(** * vmemprof: cache and TLB micro-benchmarks

    A shallow embedding of the benchmark procedures of the repository
    (one C++ function per experiment, all driven by the Google Benchmark
    harness) and the properties its specification states about them.

    The procedures are sequential and effectful: they allocate buffers,
    fill them, run a measured loop that copies a few small ranges out of a
    rotating replica and now and then evicts the caches, and finally
    publish counters.  They are embedded in a small state-and-error monad
    over a [Machine]: byte memory organised in blocks, the harness state
    ([benchmark::State]: arguments, iteration budget, counters), the clock
    and a log of the operations performed, each with the memory before and
    after it. *)

From stdpp Require Import base numbers list strings gmap.
From Equations Require Import Equations.

Local Open Scope Z_scope.

(** ** Machine integers *)

(** [size_t] and [uintptr_t] are 64-bit unsigned, [uint8_t] is 8-bit
    unsigned; arithmetic wraps around. *)

Definition SIZE_WIDTH : Z := 64.
Definition to_size_t (z : Z) : Z := z mod 2 ^ SIZE_WIDTH.
Definition to_uint8_t (z : Z) : Z := z mod 256.

Definition size_add (x y : Z) : Z := to_size_t (x + y).
Definition size_sub (x y : Z) : Z := to_size_t (x - y).
Definition size_mul (x y : Z) : Z := to_size_t (x * y).
(** Unsigned division; the C++ operation is undefined for a zero divisor,
    where [Z.div] yields 0. *)
Definition size_div (x y : Z) : Z := x / y.
Definition size_and (x y : Z) : Z := Z.land x y.
(** [~x] on a 64-bit unsigned value. *)
Definition size_not (x : Z) : Z := 2 ^ SIZE_WIDTH - 1 - x.

Declare Scope size_scope.
Delimit Scope size_scope with sz.
Infix "+" := size_add : size_scope.
Infix "-" := size_sub : size_scope.
Infix "*" := size_mul : size_scope.
Infix "/" := size_div : size_scope.
Infix "&" := size_and (at level 50, left associativity) : size_scope.
Notation "~ x" := (size_not x) : size_scope.

(** ** Pointers and memory *)

(** Every allocation of a benchmark is a block of its own; a pointer is a
    block and a byte offset into it.  The numeric address of a block (what
    [reinterpret_cast<uintptr_t>] exposes) is chosen by the allocator and
    is a parameter of the machine. *)

Inductive block : Set :=
| source_buffer_blk
| input_buffer_blk
| flush_buffer_blk
| scratch_buffer_blk
| output_buffer_blk
| copies_blk.

#[global] Instance block_eq_dec : EqDecision block.
Proof. solve_decision. Defined.

Record ptr : Set := Ptr { blk : block; off : Z }.

Definition ptr_add (p : ptr) (n : Z) : ptr := Ptr (blk p) (off p + n).

Definition memory : Type := block -> Z -> Z.

Definition load (m : memory) (p : ptr) : Z := m (blk p) (off p).

Definition store (m : memory) (p : ptr) (v : Z) : memory :=
  fun b o => if bool_decide (b = blk p) && (o =? off p) then v else m b o.

(** ** The harness: counters, events, machine state *)

Inductive Flags : Set := kDefaults | kIsRate | kIsIterationInvariantRate.
Inductive OneK : Set := kIs1000 | kIs1024.

(** [benchmark::Counter].  The value is a [double] in the library; every
    value stored by the benchmarks is an integer, kept here as it is. *)
Record Counter : Set := MkCounter { value : Z; flags : Flags; oneK : OneK }.

#[global] Instance Flags_eq_dec : EqDecision Flags.
Proof. solve_decision. Defined.
#[global] Instance OneK_eq_dec : EqDecision OneK.
Proof. solve_decision. Defined.
#[global] Instance Counter_eq_dec : EqDecision Counter.
Proof. solve_decision. Defined.

Inductive protection : Set := PAGE_NOACCESS | PAGE_READWRITE.

(** The [dwFreeType] of [VirtualFree]; the code passes no other. *)
Inductive free_type : Set := MEM_RELEASE.

Inductive event : Set :=
| EvNew (b : block) (size : Z)
| EvDelete (b : block)
| EvVirtualAlloc (b : block) (size : Z)
| EvMemset (dst : ptr) (val : Z) (count : Z)
| EvMemcpy (dst src : ptr) (count : Z)
| EvClflush (p : ptr)
| EvVirtualProtect (p : ptr) (size : Z) (prot : protection) (old : option ptr)
| EvVirtualFree (p : ptr) (size : Z) (ft : free_type)
| EvSleep (ns : Z)
| EvIteration
| EvLoopEnd
| EvSetIterationTime (elapsed : Z).

#[global] Instance ptr_eq_dec : EqDecision ptr.
Proof. solve_decision. Defined.
#[global] Instance protection_eq_dec : EqDecision protection.
Proof. solve_decision. Defined.
#[global] Instance free_type_eq_dec : EqDecision free_type.
Proof. solve_decision. Defined.
#[global] Instance event_eq_dec : EqDecision event.
Proof. solve_decision. Defined.

(** One logged operation: the memory it found, what it was, the memory it
    left. *)
Record transition : Type := MkTransition { pre : memory; label : event; post : memory }.

Record Machine : Type := MkMachine {
  st_range : list Z;                (* state.range(i) *)
  st_iterations : nat;              (* iterations the harness will run *)
  counters : gmap string Counter;   (* state.counters *)
  base : block -> Z;                (* address the allocator gives a block *)
  clock : nat -> Z;                 (* successive clock readings *)
  reads : nat;                      (* clock readings taken so far *)
  mem : memory;
  trace : list transition           (* most recent first *)
}.

(** The operations of a run, in the order they happened. *)
Definition labels (s : Machine) : list event := rev (map label (trace s)).

(** An operation [e] that rewrites memory by [f]. *)
Definition step (e : event) (f : memory -> memory) (s : Machine) : Machine :=
  MkMachine (st_range s) (st_iterations s) (counters s) (base s) (clock s)
            (reads s) (fun b o => f (mem s) b o)
            (MkTransition (mem s) e (fun b o => f (mem s) b o) :: trace s).

(** An operation that leaves memory alone. *)
Definition emit (e : event) (s : Machine) : Machine :=
  MkMachine (st_range s) (st_iterations s) (counters s) (base s) (clock s)
            (reads s) (mem s) (MkTransition (mem s) e (mem s) :: trace s).

Definition tick (s : Machine) : Machine :=
  MkMachine (st_range s) (st_iterations s) (counters s) (base s) (clock s)
            (S (reads s)) (mem s) (trace s).

Definition set_counter (k : string) (c : Counter) (s : Machine) : Machine :=
  MkMachine (st_range s) (st_iterations s) (<[k := c]> (counters s)) (base s)
            (clock s) (reads s) (mem s) (trace s).

(** ** The monad *)

(** A computation transforms the machine and may fail; failure stands for
    behaviour the C++ program leaves undefined (an index outside the
    replica table, a missing benchmark argument). *)

Definition M (A : Type) : Type := Machine -> option (A * Machine).

#[global] Instance M_ret : MRet M := fun A x s => Some (x, s).
#[global] Instance M_bind : MBind M := fun A B f c s =>
  match c s with
  | Some (x, s') => f x s'
  | None => None
  end.

Definition fail {A} : M A := fun _ => None.
Definition gets {A} (f : Machine -> A) : M A := fun s => Some (f s, s).
Definition modify (f : Machine -> Machine) : M unit := fun s => Some (tt, f s).

(** ** Primitive operations *)

(** [state.range(i)]; an argument the registration does not supply is
    not there to be read. *)
Definition range (i : nat) : M Z := fun s =>
  match st_range s !! i with
  | Some a => Some (a, s)
  | None => None
  end.

(** [new uint8_t[size]] *)
Definition new_array (b : block) (size : Z) : M ptr :=
  modify (emit (EvNew b size));; mret (Ptr b 0).

Definition delete_array (p : ptr) : M unit := modify (emit (EvDelete (blk p))).

(** [VirtualAlloc(nullptr, size, MEM_COMMIT | MEM_RESERVE, PAGE_READWRITE)] *)
Definition VirtualAlloc (b : block) (size : Z) : M ptr :=
  modify (emit (EvVirtualAlloc b size));; mret (Ptr b 0).

(** [new uint8_t*[n]]: a table of [n] pointers, none of them set yet.
    Reading an entry that was never set is undefined. *)
Definition new_table (n : Z) : M (list (option ptr)) :=
  modify (emit (EvNew copies_blk n));; mret (replicate (Z.to_nat n) None).

Definition delete_table (t : list (option ptr)) : M unit :=
  modify (emit (EvDelete copies_blk)).

(** [t[i]] *)
Definition index (t : list (option ptr)) (i : Z) : M ptr :=
  match t !! Z.to_nat i with
  | Some (Some p) => mret p
  | _ => fail
  end.

(** [reinterpret_cast<uintptr_t>(p)] and back, for block addresses [bs]. *)
Definition uintptr (bs : block -> Z) (p : ptr) : Z := to_size_t (bs (blk p) + off p).
Definition ptr_of_uintptr (bs : block -> Z) (b : block) (a : Z) : ptr := Ptr b (a - bs b).

(** [reinterpret_cast<uint8_t*>(reinterpret_cast<uintptr_t>(p + alignment - 1)
    & ~(alignment - 1))] *)
Definition aligned (bs : block -> Z) (p : ptr) (alignment : Z) : ptr :=
  ptr_of_uintptr bs (blk p)
    (uintptr bs (ptr_add (ptr_add p alignment) (- 1)) & (~ (alignment - 1)))%sz.

Definition align_ptr (p : ptr) (alignment : Z) : M ptr :=
  gets (fun s => aligned (base s) p alignment).

(** [std::memset] and [std::memcpy] belong to the C library: they are
    given by their effect on memory. *)
Definition fill (dst : ptr) (v : Z) (count : Z) (m : memory) : memory :=
  fun b o =>
    if bool_decide (b = blk dst) && (off dst <=? o) && (o <? off dst + count)
    then v else m b o.

Definition blit (dst src : ptr) (count : Z) (m : memory) : memory :=
  fun b o =>
    if bool_decide (b = blk dst) && (off dst <=? o) && (o <? off dst + count)
    then m (blk src) (off src + (o - off dst)) else m b o.

Definition std_memset (dst : ptr) (v : Z) (count : Z) : M unit :=
  modify (step (EvMemset dst (to_uint8_t v) count) (fill dst (to_uint8_t v) count)).

(** [std::memcpy] is defined for ranges that do not overlap, where it is
    [blit]; every call of the benchmarks copies from one allocation into
    another.  Nothing is read off this definition for overlapping ranges. *)
Definition std_memcpy (dst src : ptr) (count : Z) : M unit :=
  modify (step (EvMemcpy dst src count) (blit dst src count)).

(** [memset_impl]: the hand-written byte loop
    [for (ptr = buffer; ptr < buffer + buffer_size; ++ptr) *ptr = value]. *)
Equations? memset_loop (m : memory) (p : ptr) (end_off : Z) (v : Z) : memory
  by wf (Z.to_nat (end_off - off p)) lt :=
  memset_loop m p end_off v with decide (off p < end_off) => {
    | left _ := memset_loop (store m p v) (ptr_add p 1) end_off v;
    | right _ := m }.
Proof. simpl. lia. Qed.

Definition memset_impl (buffer : ptr) (buffer_size : Z) (v : Z) : M unit :=
  modify (step (EvMemset buffer v buffer_size)
               (fun m => memset_loop m buffer (off (ptr_add buffer buffer_size)) v)).

(** [memcpy_impl]: [end = src + count; while (src < end) *dst++ = *src++]. *)
Equations? memcpy_loop (m : memory) (dst src : ptr) (end_off : Z) : memory
  by wf (Z.to_nat (end_off - off src)) lt :=
  memcpy_loop m dst src end_off with decide (off src < end_off) => {
    | left _ := memcpy_loop (store m dst (load m src)) (ptr_add dst 1) (ptr_add src 1) end_off;
    | right _ := m }.
Proof. simpl. lia. Qed.

Definition memcpy_impl (dst src : ptr) (count : Z) : M unit :=
  modify (step (EvMemcpy dst src count)
               (fun m => memcpy_loop m dst src (off (ptr_add src count)))).

Definition _mm_clflush (p : ptr) : M unit := modify (emit (EvClflush p)).

(** A null pointer argument. *)
Definition nullptr : option ptr := None.

(** [VirtualProtect(lpAddress, dwSize, flNewProtect, lpflOldProtect)] and
    [VirtualFree(lpAddress, dwSize, dwFreeType)]: the calls are logged with
    their arguments; the code discards the [BOOL] they return. *)
Definition VirtualProtect (p : ptr) (size : Z) (prot : protection)
    (lpflOldProtect : option ptr) : M unit :=
  modify (emit (EvVirtualProtect p size prot lpflOldProtect)).

Definition VirtualFree (p : ptr) (size : Z) (ft : free_type) : M unit :=
  modify (emit (EvVirtualFree p size ft)).

Definition sleep_for (ns : Z) : M unit := modify (emit (EvSleep ns)).

(** [std::chrono::high_resolution_clock::now()] *)
Definition now : M Z := fun s => Some (clock s (reads s), tick s).

Definition SetIterationTime (elapsed : Z) : M unit :=
  modify (emit (EvSetIterationTime elapsed)).

Definition set_counter_m (k : string) (c : Counter) : M unit :=
  modify (set_counter k c).

(** [for (ptr = p; ptr < end; ptr += step) body(ptr)], the shape of the
    cache-line flush loops. *)
Equations? for_ptr (p : ptr) (end_off : Z) (step : positive) (body : ptr -> M unit) : M unit
  by wf (Z.to_nat (end_off - off p)) lt :=
  for_ptr p end_off step body with decide (off p < end_off) => {
    | left _ := body p;; for_ptr (ptr_add p (Z.pos step)) end_off step body;
    | right _ := mret tt }.
Proof. simpl. lia. Qed.

(** ** Loops *)

(** [for (size_t i = from; i < from + count; ++i) body], threading the
    locals the body updates. *)
Fixpoint for_count {S : Type} (count : nat) (i : Z) (body : Z -> S -> M S) (x : S) : M S :=
  match count with
  | O => mret x
  | S count' => x' ← body i x; for_count count' (i + 1) body x'
  end.

(** [for (auto _ : state) body]: the harness runs the body for the number
    of iterations it decided on; each turn of the range-for is recorded,
    and so is its end. *)
Fixpoint iterate {S : Type} (n : nat) (body : S -> M S) (x : S) : M S :=
  match n with
  | O => mret x
  | S n' => modify (emit EvIteration);; x' ← body x; iterate n' body x'
  end.

Definition for_state {S : Type} (body : S -> M S) (x : S) : M S :=
  n ← gets st_iterations; x' ← iterate n body x; modify (emit EvLoopEnd);; mret x'.

(** * The benchmarks *)

Definition Speed : string := "Speed".
Definition NumCopies : string := "NumCopies".
Definition Allocated : string := "Allocated".

(** The output buffer is an array on the stack of the benchmark. *)
Definition output_buffer : ptr := Ptr output_buffer_blk 0.

(** ** memcpy_baseline_inline *)
Module MemcpyBaselineInline.

Definition SOURCE_SIZE : Z := 17234.
Definition memcpy_size0 : Z := 401.
Definition memcpy_size1 : Z := 801.
Definition memcpy_size2 : Z := 301.

Definition body (input_buffer : ptr) (_ : unit) : M unit :=
  std_memcpy (ptr_add output_buffer 0) (ptr_add input_buffer 102) memcpy_size0;;
  std_memcpy (ptr_add output_buffer memcpy_size0) (ptr_add input_buffer 6402) memcpy_size1;;
  std_memcpy (ptr_add (ptr_add output_buffer memcpy_size0) memcpy_size1)
             (ptr_add input_buffer 16586) memcpy_size2.

Definition memcpy_baseline_inline : M unit :=
  input_buffer ← new_array input_buffer_blk SOURCE_SIZE;
  std_memset input_buffer 0xA6 SOURCE_SIZE;;
  for_state (body input_buffer) tt;;
  delete_array input_buffer;;
  set_counter_m Speed (MkCounter 1503 kIsIterationInvariantRate kIs1024);;
  set_counter_m NumCopies (MkCounter 1 kDefaults kIs1000);;
  set_counter_m Allocated (MkCounter SOURCE_SIZE kDefaults kIs1024).

End MemcpyBaselineInline.

(** ** cache_flushing_clflush *)
Module CacheFlushingClflush.

Definition BUFFER_SIZE : Z := 17234.
Definition CACHE_LINE_SIZE : positive := 64.
Definition memcpy_size : Z := 401.

Definition body (input_buffer : ptr) (_ : unit) : M unit :=
  start ← now;
  std_memcpy (ptr_add output_buffer 0) (ptr_add input_buffer 102) memcpy_size;;
  end_ ← now;
  for_ptr input_buffer (off (ptr_add input_buffer BUFFER_SIZE)) CACHE_LINE_SIZE _mm_clflush;;
  SetIterationTime (end_ - start).

Definition cache_flushing_clflush : M unit :=
  input_buffer ← new_array input_buffer_blk BUFFER_SIZE;
  std_memset input_buffer 0xA6 BUFFER_SIZE;;
  for_state (body input_buffer) tt;;
  delete_array input_buffer;;
  set_counter_m Speed (MkCounter 1503 kIsIterationInvariantRate kIs1024);;
  set_counter_m NumCopies (MkCounter 1 kDefaults kIs1000);;
  set_counter_m Allocated (MkCounter BUFFER_SIZE kDefaults kIs1024).

End CacheFlushingClflush.

(** ** memcpy_clflush *)
Module MemcpyClflush.

Definition SOURCE_SIZE : Z := 17234.
Definition CACHE_LINE_SIZE : positive := 64.
Definition memcpy_size0 : Z := 401.
Definition memcpy_size1 : Z := 801.
Definition memcpy_size2 : Z := 301.

Definition body (input_buffer : ptr) (_ : unit) : M unit :=
  start ← now;
  std_memcpy (ptr_add output_buffer 0) (ptr_add input_buffer 102) memcpy_size0;;
  std_memcpy (ptr_add output_buffer memcpy_size0) (ptr_add input_buffer 6402) memcpy_size1;;
  std_memcpy (ptr_add (ptr_add output_buffer memcpy_size0) memcpy_size1)
             (ptr_add input_buffer 16586) memcpy_size2;;
  end_ ← now;
  for_ptr input_buffer (off (ptr_add input_buffer SOURCE_SIZE)) CACHE_LINE_SIZE _mm_clflush;;
  sleep_for 1;;
  SetIterationTime (end_ - start).

Definition memcpy_clflush : M unit :=
  input_buffer ← new_array input_buffer_blk SOURCE_SIZE;
  std_memset input_buffer 0xA6 SOURCE_SIZE;;
  for_state (body input_buffer) tt;;
  delete_array input_buffer;;
  set_counter_m Speed (MkCounter 1503 kIsIterationInvariantRate kIs1024);;
  set_counter_m NumCopies (MkCounter 1 kDefaults kIs1000);;
  set_counter_m Allocated (MkCounter SOURCE_SIZE kDefaults kIs1024).

End MemcpyClflush.

(** ** memcpy_32mb_l3 *)
Module Memcpy32mbL3.

Definition L3_SIZE (range0 : Z) : Z := to_size_t (range0 * 1024 * 1024).
Definition SOURCE_SIZE : Z := 17234.
Definition TOTAL_COPY_SIZE : Z := 401 + 801 + 301.
Definition NUM_COPIES (range0 : Z) : Z := (L3_SIZE range0 / TOTAL_COPY_SIZE)%sz.
Definition INPUT_BUFFER_SIZE (range0 : Z) : Z := (SOURCE_SIZE * NUM_COPIES range0)%sz.
Definition memcpy_size0 : Z := 401.
Definition memcpy_size1 : Z := 801.
Definition memcpy_size2 : Z := 301.

Definition fill_copy (input_buffer source_buffer : ptr) (i : Z) (copies : list (option ptr))
  : M (list (option ptr)) :=
  let buffer := ptr_add input_buffer (i * SOURCE_SIZE)%sz in
  std_memcpy buffer source_buffer SOURCE_SIZE;;
  mret (<[Z.to_nat i := Some buffer]> copies).

Definition body (range0 : Z) (copies : list (option ptr)) (copy_index : Z) : M Z :=
  buffer ← index copies copy_index;
  let copy_index := (copy_index + 1)%sz in
  std_memcpy (ptr_add output_buffer 0) (ptr_add buffer 102) memcpy_size0;;
  std_memcpy (ptr_add output_buffer memcpy_size0) (ptr_add buffer 6402) memcpy_size1;;
  std_memcpy (ptr_add (ptr_add output_buffer memcpy_size0) memcpy_size1)
             (ptr_add buffer 16586) memcpy_size2;;
  if decide (copy_index >= NUM_COPIES range0) then mret 0 else mret copy_index.

Definition memcpy_32mb_l3 : M unit :=
  range0 ← range 0;
  source_buffer ← new_array source_buffer_blk SOURCE_SIZE;
  std_memset source_buffer 0xA6 SOURCE_SIZE;;
  input_buffer ← new_array input_buffer_blk (INPUT_BUFFER_SIZE range0);
  copies ← new_table (NUM_COPIES range0);
  copies ← for_count (Z.to_nat (NUM_COPIES range0)) 0 (fill_copy input_buffer source_buffer) copies;
  let copy_index := 0 in
  for_state (body range0 copies) copy_index;;
  delete_array source_buffer;;
  delete_array input_buffer;;
  delete_table copies;;
  set_counter_m Speed (MkCounter 1503 kIsIterationInvariantRate kIs1024);;
  set_counter_m NumCopies (MkCounter (NUM_COPIES range0) kDefaults kIs1000);;
  set_counter_m Allocated (MkCounter (INPUT_BUFFER_SIZE range0) kDefaults kIs1024).

End Memcpy32mbL3.

(** ** memcpy_tlb *)
Module MemcpyTlb.

Definition PAGE_SIZE : Z := 4 * 1024.
Definition SOURCE_SIZE : Z :=
  ((17234 + PAGE_SIZE - 1) & (~ (PAGE_SIZE - 1)))%sz.
Definition NUM_COPIES (range0 : Z) : Z := to_size_t range0.
Definition INPUT_BUFFER_SIZE (range0 : Z) : Z :=
  (SOURCE_SIZE * NUM_COPIES range0 + PAGE_SIZE)%sz.
Definition memcpy_size0 : Z := 401.
Definition memcpy_size1 : Z := 801.
Definition memcpy_size2 : Z := 301.

Definition fill_copy (aligned_input_buffer source_buffer : ptr) (i : Z)
    (copies : list (option ptr)) : M (list (option ptr)) :=
  let buffer := ptr_add aligned_input_buffer (i * SOURCE_SIZE)%sz in
  std_memcpy buffer source_buffer SOURCE_SIZE;;
  mret (<[Z.to_nat i := Some buffer]> copies).

Definition body (range0 : Z) (copies : list (option ptr)) (copy_index : Z) : M Z :=
  buffer ← index copies copy_index;
  let copy_index := (copy_index + 1)%sz in
  std_memcpy (ptr_add output_buffer 0) (ptr_add buffer 102) memcpy_size0;;
  std_memcpy (ptr_add output_buffer memcpy_size0) (ptr_add buffer 6402) memcpy_size1;;
  std_memcpy (ptr_add (ptr_add output_buffer memcpy_size0) memcpy_size1)
             (ptr_add buffer 16586) memcpy_size2;;
  if decide (copy_index >= NUM_COPIES range0) then mret 0 else mret copy_index.

Definition memcpy_tlb : M unit :=
  range0 ← range 0;
  source_buffer ← new_array source_buffer_blk SOURCE_SIZE;
  std_memset source_buffer 0xA6 SOURCE_SIZE;;
  input_buffer ← new_array input_buffer_blk (INPUT_BUFFER_SIZE range0);
  aligned_input_buffer ← align_ptr input_buffer PAGE_SIZE;
  copies ← new_table (NUM_COPIES range0);
  copies ← for_count (Z.to_nat (NUM_COPIES range0)) 0
             (fill_copy aligned_input_buffer source_buffer) copies;
  let copy_index := 0 in
  for_state (body range0 copies) copy_index;;
  delete_array source_buffer;;
  delete_array input_buffer;;
  delete_table copies;;
  set_counter_m Speed (MkCounter 1503 kIsIterationInvariantRate kIs1024);;
  set_counter_m NumCopies (MkCounter (NUM_COPIES range0) kDefaults kIs1000);;
  set_counter_m Allocated (MkCounter (INPUT_BUFFER_SIZE range0) kDefaults kIs1024).

End MemcpyTlb.

(** ** cache_flushing_flush_std_memset *)
Module CacheFlushingFlushStdMemset.

Definition SOURCE_SIZE : Z := 17234.
Definition PAGE_SIZE : Z := 4 * 1024.
Definition NUM_COPIES : Z := 1000.
Definition INPUT_BUFFER_SIZE : Z := (SOURCE_SIZE * NUM_COPIES + PAGE_SIZE)%sz.
Definition memcpy_size : Z := 401.
Definition cache_size (range0 : Z) : Z := to_size_t (range0 * 1024 * 1024).
Definition flush_buffer_size (range0 : Z) : Z := (cache_size range0 * 4)%sz.

Definition fill_copy (aligned_input_buffer source_buffer : ptr) (i : Z)
    (copies : list (option ptr)) : M (list (option ptr)) :=
  let buffer := ptr_add aligned_input_buffer (i * SOURCE_SIZE)%sz in
  std_memcpy buffer source_buffer SOURCE_SIZE;;
  mret (<[Z.to_nat i := Some buffer]> copies).

Definition body (range0 : Z) (copies : list (option ptr)) (flush_buffer : ptr)
    '(copy_index, flush_value) : M (Z * Z) :=
  buffer ← index copies copy_index;
  let copy_index := (copy_index + 1)%sz in
  start ← now;
  std_memcpy (ptr_add output_buffer 0) (ptr_add buffer 102) memcpy_size;;
  end_ ← now;
  '(copy_index, flush_value) ←
    (if decide (copy_index >= NUM_COPIES) then
       std_memset flush_buffer flush_value (flush_buffer_size range0);;
       let flush_value := to_uint8_t (flush_value + 1) in
       let copy_index := 0 in
       mret (copy_index, flush_value)
     else mret (copy_index, flush_value));
  SetIterationTime (end_ - start);;
  mret (copy_index, flush_value).

Definition cache_flushing_flush_std_memset : M unit :=
  source_buffer ← new_array source_buffer_blk SOURCE_SIZE;
  std_memset source_buffer 0xA6 SOURCE_SIZE;;
  input_buffer ← new_array input_buffer_blk INPUT_BUFFER_SIZE;
  aligned_input_buffer ← align_ptr input_buffer PAGE_SIZE;
  let copies := replicate (Z.to_nat NUM_COPIES) None in
  copies ← for_count (Z.to_nat NUM_COPIES) 0
             (fill_copy aligned_input_buffer source_buffer) copies;
  range0 ← range 0;
  flush_buffer ← new_array flush_buffer_blk (flush_buffer_size range0);
  let flush_value := 0 in
  let copy_index := 0 in
  std_memset flush_buffer flush_value (flush_buffer_size range0);;
  let flush_value := to_uint8_t (flush_value + 1) in
  for_state (body range0 copies flush_buffer) (copy_index, flush_value);;
  delete_array source_buffer;;
  delete_array input_buffer;;
  delete_array flush_buffer;;
  set_counter_m Speed (MkCounter 1503 kIsIterationInvariantRate kIs1024);;
  set_counter_m NumCopies (MkCounter NUM_COPIES kDefaults kIs1000);;
  set_counter_m Allocated
    (MkCounter (flush_buffer_size range0 + INPUT_BUFFER_SIZE)%sz kDefaults kIs1024).

End CacheFlushingFlushStdMemset.

(** ** memcpy_cpu_flush *)
Module MemcpyCpuFlush.

Definition SOURCE_SIZE : Z := 17234.
Definition CACHE_LINE_SIZE : Z := 64.
Definition FLUSH_BUFFER_SIZE (range0 : Z) : Z := to_size_t (range0 * 1024 * 1024 * 4).
Definition PAGE_SIZE : Z := 4 * 1024.
Definition NUM_COPIES : Z := 1000.
Definition INPUT_BUFFER_SIZE : Z := (SOURCE_SIZE * NUM_COPIES + PAGE_SIZE)%sz.
Definition memcpy_size0 : Z := 401.
Definition memcpy_size1 : Z := 801.
Definition memcpy_size2 : Z := 301.

Definition fill_copy (aligned_input_buffer source_buffer : ptr) (i : Z)
    (copies : list (option ptr)) : M (list (option ptr)) :=
  let buffer := ptr_add aligned_input_buffer (i * SOURCE_SIZE)%sz in
  std_memcpy buffer source_buffer SOURCE_SIZE;;
  mret (<[Z.to_nat i := Some buffer]> copies).

Definition body (range0 : Z) (copies : list (option ptr)) (flush_buffer : ptr)
    '(copy_index, flush_value) : M (Z * Z) :=
  buffer ← index copies copy_index;
  let copy_index := (copy_index + 1)%sz in
  start ← now;
  std_memcpy (ptr_add output_buffer 0) (ptr_add buffer 102) memcpy_size0;;
  std_memcpy (ptr_add output_buffer memcpy_size0) (ptr_add buffer 6402) memcpy_size1;;
  std_memcpy (ptr_add (ptr_add output_buffer memcpy_size0) memcpy_size1)
             (ptr_add buffer 16586) memcpy_size2;;
  end_ ← now;
  '(copy_index, flush_value) ←
    (if decide (copy_index >= NUM_COPIES) then
       memset_impl flush_buffer (FLUSH_BUFFER_SIZE range0) flush_value;;
       let flush_value := to_uint8_t (flush_value + 1) in
       let copy_index := 0 in
       mret (copy_index, flush_value)
     else mret (copy_index, flush_value));
  SetIterationTime (end_ - start);;
  mret (copy_index, flush_value).

Definition memcpy_cpu_flush : M unit :=
  range0 ← range 0;
  source_buffer ← new_array source_buffer_blk SOURCE_SIZE;
  std_memset source_buffer 0xA6 SOURCE_SIZE;;
  input_buffer ← new_array input_buffer_blk INPUT_BUFFER_SIZE;
  aligned_input_buffer ← align_ptr input_buffer PAGE_SIZE;
  copies ← new_table NUM_COPIES;
  copies ← for_count (Z.to_nat NUM_COPIES) 0
             (fill_copy aligned_input_buffer source_buffer) copies;
  flush_buffer ← new_array flush_buffer_blk (FLUSH_BUFFER_SIZE range0);
  let flush_value := 0 in
  let copy_index := 0 in
  memset_impl flush_buffer (FLUSH_BUFFER_SIZE range0) flush_value;;
  let flush_value := to_uint8_t (flush_value + 1) in
  for_state (body range0 copies flush_buffer) (copy_index, flush_value);;
  delete_array source_buffer;;
  delete_array input_buffer;;
  delete_table copies;;
  delete_array flush_buffer;;
  set_counter_m Speed (MkCounter 1503 kIsIterationInvariantRate kIs1024);;
  set_counter_m NumCopies (MkCounter NUM_COPIES kDefaults kIs1000);;
  set_counter_m Allocated
    (MkCounter (FLUSH_BUFFER_SIZE range0 + INPUT_BUFFER_SIZE)%sz kDefaults kIs1024).

End MemcpyCpuFlush.

(** ** memcpy_vmem_tlb_flush *)
Module MemcpyVmemTlbFlush.

Definition PAGE_SIZE : Z := 4 * 1024.
Definition PADDING_SIZE (range0 : Z) : Z := to_size_t (range0 * 1024).
Definition SOURCE_SIZE (range0 : Z) : Z :=
  ((17234 + PADDING_SIZE range0 - 1) / PADDING_SIZE range0)%sz.
Definition NUM_COPIES : Z := 32.
Definition INPUT_BUFFER_SIZE (range0 : Z) : Z :=
  (SOURCE_SIZE range0 * NUM_COPIES + PADDING_SIZE range0)%sz.
Definition memcpy_size0 : Z := 401.
Definition memcpy_size1 : Z := 801.
Definition memcpy_size2 : Z := 301.

Definition fill_copy (range0 : Z) (input_buffer source_buffer : ptr) (i : Z)
    (copies : list (option ptr)) : M (list (option ptr)) :=
  let buffer := ptr_add input_buffer (i * SOURCE_SIZE range0)%sz in
  std_memcpy buffer source_buffer (SOURCE_SIZE range0);;
  mret (<[Z.to_nat i := Some buffer]> copies).

Definition body (range0 : Z) (copies : list (option ptr)) (input_buffer : ptr)
    (copy_index : Z) : M Z :=
  start ← now;
  buffer ← index copies copy_index;
  let copy_index := (copy_index + 1)%sz in
  std_memcpy (ptr_add output_buffer 0) (ptr_add buffer 102) memcpy_size0;;
  std_memcpy (ptr_add output_buffer memcpy_size0) (ptr_add buffer 6402) memcpy_size1;;
  std_memcpy (ptr_add (ptr_add output_buffer memcpy_size0) memcpy_size1)
             (ptr_add buffer 16586) memcpy_size2;;
  end_ ← now;
  copy_index ←
    (if decide (copy_index >= NUM_COPIES) then
       let copy_index := 0 in
       VirtualProtect input_buffer (INPUT_BUFFER_SIZE range0) PAGE_NOACCESS nullptr;;
       VirtualProtect input_buffer (INPUT_BUFFER_SIZE range0) PAGE_READWRITE nullptr;;
       mret copy_index
     else mret copy_index);
  SetIterationTime (end_ - start);;
  mret copy_index.

Definition memcpy_vmem_tlb_flush : M unit :=
  range0 ← range 0;
  source_buffer ← new_array source_buffer_blk (SOURCE_SIZE range0);
  std_memset source_buffer 0xA6 (SOURCE_SIZE range0);;
  input_buffer ← VirtualAlloc input_buffer_blk (INPUT_BUFFER_SIZE range0);
  copies ← new_table NUM_COPIES;
  copies ← for_count (Z.to_nat NUM_COPIES) 0
             (fill_copy range0 input_buffer source_buffer) copies;
  let copy_index := 0 in
  for_state (body range0 copies input_buffer) copy_index;;
  delete_array source_buffer;;
  VirtualFree input_buffer (INPUT_BUFFER_SIZE range0) MEM_RELEASE;;
  delete_table copies;;
  set_counter_m Speed (MkCounter 1503 kIsIterationInvariantRate kIs1024);;
  set_counter_m NumCopies (MkCounter NUM_COPIES kDefaults kIs1000);;
  set_counter_m Allocated (MkCounter (INPUT_BUFFER_SIZE range0) kDefaults kIs1024).

End MemcpyVmemTlbFlush.

(** ** memcpy_cpu_flush_padded *)
Module MemcpyCpuFlushPadded.

Definition SOURCE_SIZE : Z := 17234.
Definition CPU_CACHE_SIZE : Z := 8 * 1024 * 1024.
Definition FLUSH_BUFFER_SIZE : Z := (CPU_CACHE_SIZE * 4)%sz.
Definition PAGE_SIZE : Z := 4 * 1024.
Definition NUM_COPIES : Z := 1000.
Definition INPUT_BUFFER_SIZE : Z := (SOURCE_SIZE * NUM_COPIES + PAGE_SIZE)%sz.
Definition memcpy_size0 : Z := 401.
Definition memcpy_size1 : Z := 801.
Definition memcpy_size2 : Z := 301.
Definition VMEM_PADDING (range0 : Z) : Z := to_size_t (range0 * 1024 * 1024).
Definition PADDED_FLUSH_BUFFER_SIZE (range0 : Z) : Z :=
  (FLUSH_BUFFER_SIZE + VMEM_PADDING range0 * 2)%sz.

Definition fill_copy (aligned_input_buffer source_buffer : ptr) (i : Z)
    (copies : list (option ptr)) : M (list (option ptr)) :=
  let buffer := ptr_add aligned_input_buffer (i * SOURCE_SIZE)%sz in
  std_memcpy buffer source_buffer SOURCE_SIZE;;
  mret (<[Z.to_nat i := Some buffer]> copies).

Definition body (range0 : Z) (copies : list (option ptr)) (flush_buffer : ptr)
    '(copy_index, flush_value) : M (Z * Z) :=
  buffer ← index copies copy_index;
  let copy_index := (copy_index + 1)%sz in
  start ← now;
  std_memcpy (ptr_add output_buffer 0) (ptr_add buffer 102) memcpy_size0;;
  std_memcpy (ptr_add output_buffer memcpy_size0) (ptr_add buffer 6402) memcpy_size1;;
  std_memcpy (ptr_add (ptr_add output_buffer memcpy_size0) memcpy_size1)
             (ptr_add buffer 16586) memcpy_size2;;
  end_ ← now;
  '(copy_index, flush_value) ←
    (if decide (copy_index >= NUM_COPIES) then
       memset_impl (ptr_add flush_buffer (VMEM_PADDING range0)) FLUSH_BUFFER_SIZE flush_value;;
       let flush_value := to_uint8_t (flush_value + 1) in
       let copy_index := 0 in
       mret (copy_index, flush_value)
     else mret (copy_index, flush_value));
  SetIterationTime (end_ - start);;
  mret (copy_index, flush_value).

Definition memcpy_cpu_flush_padded : M unit :=
  source_buffer ← new_array source_buffer_blk SOURCE_SIZE;
  std_memset source_buffer 0xA6 SOURCE_SIZE;;
  input_buffer ← new_array input_buffer_blk INPUT_BUFFER_SIZE;
  aligned_input_buffer ← align_ptr input_buffer PAGE_SIZE;
  copies ← new_table NUM_COPIES;
  copies ← for_count (Z.to_nat NUM_COPIES) 0
             (fill_copy aligned_input_buffer source_buffer) copies;
  range0 ← range 0;
  flush_buffer ← new_array flush_buffer_blk (PADDED_FLUSH_BUFFER_SIZE range0);
  let flush_value := 0 in
  let copy_index := 0 in
  memset_impl (ptr_add flush_buffer (VMEM_PADDING range0)) FLUSH_BUFFER_SIZE flush_value;;
  let flush_value := to_uint8_t (flush_value + 1) in
  for_state (body range0 copies flush_buffer) (copy_index, flush_value);;
  delete_array source_buffer;;
  delete_array input_buffer;;
  delete_table copies;;
  delete_array flush_buffer;;
  set_counter_m Speed (MkCounter 1503 kIsIterationInvariantRate kIs1024);;
  set_counter_m NumCopies (MkCounter NUM_COPIES kDefaults kIs1000);;
  set_counter_m Allocated
    (MkCounter (PADDED_FLUSH_BUFFER_SIZE range0 + INPUT_BUFFER_SIZE)%sz kDefaults kIs1024).

End MemcpyCpuFlushPadded.

(** ** memcpy_copies_padded *)
Module MemcpyCopiesPadded.

Definition SOURCE_SIZE : Z := 17234.
Definition CPU_CACHE_SIZE : Z := 8 * 1024 * 1024.
Definition FLUSH_BUFFER_SIZE : Z := (CPU_CACHE_SIZE * 4)%sz.
Definition SOURCE_PADDING_SIZE (range0 : Z) : Z := to_size_t range0.
Definition PADDED_SOURCE_SIZE (range0 : Z) : Z :=
  if decide (SOURCE_PADDING_SIZE range0 ≠ 0) then
    ((SOURCE_SIZE + SOURCE_PADDING_SIZE range0 - 1)
       & (~ (SOURCE_PADDING_SIZE range0 - 1)))%sz
  else SOURCE_SIZE.
Definition NUM_COPIES : Z := 1000.
Definition INPUT_BUFFER_ALIGNMENT : Z := 2 * 1024 * 1024.
Definition INPUT_BUFFER_SIZE (range0 : Z) : Z :=
  (PADDED_SOURCE_SIZE range0 * NUM_COPIES + INPUT_BUFFER_ALIGNMENT)%sz.
Definition memcpy_size0 : Z := 401.
Definition memcpy_size1 : Z := 801.
Definition memcpy_size2 : Z := 301.
Definition memcpy_size3 : Z := 501.
Definition VMEM_PADDING : Z := 16 * 1024 * 1024.
Definition PADDED_FLUSH_BUFFER_SIZE : Z := (FLUSH_BUFFER_SIZE + VMEM_PADDING * 2)%sz.

Definition fill_copy (range0 : Z) (aligned_input_buffer source_buffer : ptr) (i : Z)
    (copies : list (option ptr)) : M (list (option ptr)) :=
  let buffer := ptr_add aligned_input_buffer (i * PADDED_SOURCE_SIZE range0)%sz in
  std_memcpy buffer source_buffer SOURCE_SIZE;;
  mret (<[Z.to_nat i := Some buffer]> copies).

Definition body (copies : list (option ptr)) (flush_buffer : ptr)
    '(copy_index, flush_value) : M (Z * Z) :=
  buffer ← index copies copy_index;
  let copy_index := (copy_index + 1)%sz in
  start ← now;
  memcpy_impl (ptr_add output_buffer 0) (ptr_add buffer 102) memcpy_size0;;
  memcpy_impl (ptr_add output_buffer memcpy_size0) (ptr_add buffer 6402) memcpy_size1;;
  memcpy_impl (ptr_add (ptr_add (ptr_add output_buffer memcpy_size0) memcpy_size1) memcpy_size2)
              (ptr_add buffer 12308) memcpy_size3;;
  memcpy_impl (ptr_add (ptr_add output_buffer memcpy_size0) memcpy_size1)
              (ptr_add buffer 16586) memcpy_size2;;
  end_ ← now;
  '(copy_index, flush_value) ←
    (if decide (copy_index >= NUM_COPIES) then
       memset_impl (ptr_add flush_buffer VMEM_PADDING) FLUSH_BUFFER_SIZE flush_value;;
       let flush_value := to_uint8_t (flush_value + 1) in
       let copy_index := 0 in
       mret (copy_index, flush_value)
     else mret (copy_index, flush_value));
  SetIterationTime (end_ - start);;
  mret (copy_index, flush_value).

Definition memcpy_copies_padded : M unit :=
  range0 ← range 0;
  source_buffer ← new_array source_buffer_blk SOURCE_SIZE;
  std_memset source_buffer 0xA6 SOURCE_SIZE;;
  input_buffer ← new_array input_buffer_blk (INPUT_BUFFER_SIZE range0);
  aligned_input_buffer ← align_ptr input_buffer INPUT_BUFFER_ALIGNMENT;
  copies ← new_table NUM_COPIES;
  copies ← for_count (Z.to_nat NUM_COPIES) 0
             (fill_copy range0 aligned_input_buffer source_buffer) copies;
  flush_buffer ← new_array flush_buffer_blk PADDED_FLUSH_BUFFER_SIZE;
  let flush_value := 0 in
  let copy_index := 0 in
  memset_impl (ptr_add flush_buffer VMEM_PADDING) FLUSH_BUFFER_SIZE flush_value;;
  let flush_value := to_uint8_t (flush_value + 1) in
  for_state (body copies flush_buffer) (copy_index, flush_value);;
  delete_array source_buffer;;
  delete_array input_buffer;;
  delete_table copies;;
  delete_array flush_buffer;;
  set_counter_m Speed (MkCounter 1503 kIsIterationInvariantRate kIs1024);;
  set_counter_m NumCopies (MkCounter NUM_COPIES kDefaults kIs1000);;
  set_counter_m Allocated
    (MkCounter (PADDED_FLUSH_BUFFER_SIZE + INPUT_BUFFER_SIZE range0)%sz kDefaults kIs1024).

End MemcpyCopiesPadded.

(** ** memcpy_wip_flush *)
Module MemcpyWipFlush.

Definition SOURCE_SIZE : Z := 17234.
Definition CACHE_LINE_SIZE : Z := 64.
Definition FLUSH_BUFFER_SIZE (range0 : Z) : Z := to_size_t (range0 * 1024 * 1024 * 4).
Definition PAGE_SIZE : Z := 4 * 1024.
Definition PADDED_SOURCE_SIZE : Z :=
  ((SOURCE_SIZE + PAGE_SIZE - 1) & (~ (PAGE_SIZE - 1)))%sz.
Definition NUM_COPIES : Z := 1000.
Definition INPUT_BUFFER_SIZE : Z := (SOURCE_SIZE * NUM_COPIES + PAGE_SIZE)%sz.
Definition ONE_GB : Z := 1 * 1024 * 1024 * 1024.
Definition SCRATCH_BUFFER_SIZE : Z := (2 * ONE_GB)%sz.
Definition memcpy_size0 : Z := 401.
Definition memcpy_size1 : Z := 801.
Definition memcpy_size2 : Z := 301.
Definition VMEM_PADDING (range1 : Z) : Z := to_size_t (range1 * 1024 * 1024).
Definition PADDED_FLUSH_BUFFER_SIZE (range0 range1 : Z) : Z :=
  (FLUSH_BUFFER_SIZE range0 + VMEM_PADDING range1 * 2)%sz.

Definition fill_copy (aligned_input_buffer source_buffer : ptr) (i : Z)
    (copies : list (option ptr)) : M (list (option ptr)) :=
  let buffer := ptr_add aligned_input_buffer (i * SOURCE_SIZE)%sz in
  std_memcpy buffer source_buffer SOURCE_SIZE;;
  mret (<[Z.to_nat i := Some buffer]> copies).

Definition body (range0 range1 : Z) (copies : list (option ptr))
    (aligned_scratch_buffer flush_buffer : ptr)
    '(copy_index, flush_value) : M (Z * Z) :=
  buffer ← index copies copy_index;
  let copy_index := (copy_index + 1)%sz in
  start ← now;
  std_memcpy (ptr_add output_buffer 0) (ptr_add buffer 102) memcpy_size0;;
  std_memcpy (ptr_add output_buffer memcpy_size0) (ptr_add buffer 6402) memcpy_size1;;
  std_memcpy (ptr_add (ptr_add output_buffer memcpy_size0) memcpy_size1)
             (ptr_add buffer 16586) memcpy_size2;;
  end_ ← now;
  '(copy_index, flush_value) ←
    (if decide (copy_index >= NUM_COPIES) then
       VirtualProtect aligned_scratch_buffer ONE_GB PAGE_NOACCESS nullptr;;
       VirtualProtect aligned_scratch_buffer ONE_GB PAGE_READWRITE nullptr;;
       memset_impl (ptr_add flush_buffer (VMEM_PADDING range1)) (FLUSH_BUFFER_SIZE range0)
                   flush_value;;
       let flush_value := to_uint8_t (flush_value + 1) in
       let copy_index := 0 in
       mret (copy_index, flush_value)
     else mret (copy_index, flush_value));
  SetIterationTime (end_ - start);;
  mret (copy_index, flush_value).

Definition memcpy_wip_flush : M unit :=
  range0 ← range 0;
  source_buffer ← new_array source_buffer_blk SOURCE_SIZE;
  std_memset source_buffer 0xA6 SOURCE_SIZE;;
  scratch_buffer ← new_array scratch_buffer_blk SCRATCH_BUFFER_SIZE;
  aligned_scratch_buffer ← align_ptr scratch_buffer ONE_GB;
  std_memset aligned_scratch_buffer 0 ONE_GB;;
  let aligned_input_buffer := aligned_scratch_buffer in
  copies ← new_table NUM_COPIES;
  copies ← for_count (Z.to_nat NUM_COPIES) 0
             (fill_copy aligned_input_buffer source_buffer) copies;
  range1 ← range 1;
  let flush_buffer := ptr_add aligned_scratch_buffer (ONE_GB / 2)%sz in
  let flush_value := 0 in
  let copy_index := 0 in
  VirtualProtect aligned_scratch_buffer ONE_GB PAGE_NOACCESS nullptr;;
  VirtualProtect aligned_scratch_buffer ONE_GB PAGE_READWRITE nullptr;;
  memset_impl (ptr_add flush_buffer (VMEM_PADDING range1)) (FLUSH_BUFFER_SIZE range0)
              flush_value;;
  let flush_value := to_uint8_t (flush_value + 1) in
  for_state (body range0 range1 copies aligned_scratch_buffer flush_buffer)
            (copy_index, flush_value);;
  delete_array source_buffer;;
  delete_table copies;;
  delete_array scratch_buffer;;
  set_counter_m Speed (MkCounter 1503 kIsIterationInvariantRate kIs1024);;
  set_counter_m NumCopies (MkCounter NUM_COPIES kDefaults kIs1000);;
  set_counter_m Allocated
    (MkCounter (PADDED_FLUSH_BUFFER_SIZE range0 range1 + INPUT_BUFFER_SIZE)%sz
               kDefaults kIs1024).

End MemcpyWipFlush.

(** ** Registration *)

Inductive benchmark : Set :=
| bm_memcpy_baseline_inline
| bm_cache_flushing_clflush
| bm_memcpy_clflush
| bm_memcpy_32mb_l3
| bm_memcpy_tlb
| bm_cache_flushing_flush_std_memset
| bm_memcpy_cpu_flush
| bm_memcpy_vmem_tlb_flush
| bm_memcpy_cpu_flush_padded
| bm_memcpy_copies_padded
| bm_memcpy_wip_flush.

#[global] Instance benchmark_eq_dec : EqDecision benchmark.
Proof. solve_decision. Defined.

Definition all_benchmarks : list benchmark :=
  [ bm_memcpy_baseline_inline; bm_cache_flushing_clflush; bm_memcpy_clflush;
    bm_memcpy_32mb_l3; bm_memcpy_tlb; bm_cache_flushing_flush_std_memset;
    bm_memcpy_cpu_flush; bm_memcpy_vmem_tlb_flush; bm_memcpy_cpu_flush_padded;
    bm_memcpy_copies_padded; bm_memcpy_wip_flush ].

Definition run (b : benchmark) : M unit :=
  match b with
  | bm_memcpy_baseline_inline => MemcpyBaselineInline.memcpy_baseline_inline
  | bm_cache_flushing_clflush => CacheFlushingClflush.cache_flushing_clflush
  | bm_memcpy_clflush => MemcpyClflush.memcpy_clflush
  | bm_memcpy_32mb_l3 => Memcpy32mbL3.memcpy_32mb_l3
  | bm_memcpy_tlb => MemcpyTlb.memcpy_tlb
  | bm_cache_flushing_flush_std_memset =>
      CacheFlushingFlushStdMemset.cache_flushing_flush_std_memset
  | bm_memcpy_cpu_flush => MemcpyCpuFlush.memcpy_cpu_flush
  | bm_memcpy_vmem_tlb_flush => MemcpyVmemTlbFlush.memcpy_vmem_tlb_flush
  | bm_memcpy_cpu_flush_padded => MemcpyCpuFlushPadded.memcpy_cpu_flush_padded
  | bm_memcpy_copies_padded => MemcpyCopiesPadded.memcpy_copies_padded
  | bm_memcpy_wip_flush => MemcpyWipFlush.memcpy_wip_flush
  end.

(** The argument lists of the [BENCHMARK(...)->Arg(...)] registrations.
    [memcpy_wip_flush] is defined but its registrations are commented out. *)
Definition registered_args (b : benchmark) : list (list Z) :=
  match b with
  | bm_memcpy_baseline_inline => [[]]
  | bm_cache_flushing_clflush => [[]]
  | bm_memcpy_clflush => [[]]
  | bm_memcpy_32mb_l3 => [[33]; [43]; [53]]
  | bm_memcpy_tlb => [[850]; [1500]; [2500]; [3500]]
  | bm_cache_flushing_flush_std_memset => [[8]; [16]; [32]]
  | bm_memcpy_cpu_flush => [[8]; [16]; [32]]
  | bm_memcpy_vmem_tlb_flush => [[40]; [68]]
  | bm_memcpy_cpu_flush_padded => [[0]; [4]; [16]; [32]; [64]; [96]]
  | bm_memcpy_copies_padded => [[0]; [4 * 1024]; [16 * 1024 * 1024]]
  | bm_memcpy_wip_flush => []
  end.

(** The machine the harness hands to a benchmark: the arguments of one
    registration, the iteration budget, no counter set, nothing logged.
    Block addresses, the clock and the initial memory are arbitrary. *)
Definition initial_machine (args : list Z) (n : nat) (bs : block -> Z)
    (clk : nat -> Z) (m : memory) : Machine :=
  MkMachine args n ∅ bs clk 0 m [].

Definition example_base (b : block) : Z :=
  match b with
  | source_buffer_blk => 0x10000010
  | input_buffer_blk => 0x20000030
  | flush_buffer_blk => 0x40000010
  | scratch_buffer_blk => 0x100000010
  | output_buffer_blk => 0x7fff0000
  | copies_blk => 0x30000000
  end.

Definition example_machine (args : list Z) (n : nat) : Machine :=
  initial_machine args n example_base (fun k => 100 * Z.of_nat k) (fun _ _ => 0).

Definition result {A B} (f : Machine -> B) (r : option (A * Machine)) : option B :=
  match r with Some (_, s) => Some (f s) | None => None end.

(** ** Reading a log *)

Definition is_marker (e : event) : bool :=
  match e with EvIteration | EvLoopEnd => true | _ => false end.

(** The operations up to the next turn of the measured loop (or its end). *)
Fixpoint segment (l : list event) : list event :=
  match l with
  | [] => []
  | e :: l' => if is_marker e then [] else e :: segment l'
  end.

(** The operations of each measured iteration, in order. *)
Fixpoint iterations (l : list event) : list (list event) :=
  match l with
  | [] => []
  | EvIteration :: l' => segment l' :: iterations l'
  | _ :: l' => iterations l'
  end.

(** What a loop of [n] iterations logs when iteration [k] logs [ev k]. *)
Definition loop_labels (ev : nat -> list event) (n : nat) : list event :=
  concat (map (fun k => EvIteration :: ev k) (seq 0 n)).

(** The copies into the output buffer: destination offset and size. *)
Definition output_copy (e : event) : option (Z * Z) :=
  match e with
  | EvMemcpy dst _ count =>
      if bool_decide (blk dst = output_buffer_blk) then Some (off dst, count) else None
  | _ => None
  end.

Definition output_copies (l : list event) : list (Z * Z) := omap output_copy l.

(** ** What a run is expected to log *)

(** The environment does not change during a run. *)
Definition same_env (m0 m : Machine) : Prop :=
  st_range m = st_range m0 /\ st_iterations m = st_iterations m0 /\
  counters m = counters m0 /\ base m = base m0 /\ clock m = clock m0.

(** The memory of a machine is the one its last logged operation left. *)
Definition settled (m : Machine) : Prop :=
  match trace m with
  | t :: _ => mem m = post t
  | [] => True
  end.

(** The replica table once filled: entry [i] is [f i]. *)
Definition table_of (f : Z -> ptr) (n : Z) : list (option ptr) :=
  map (fun i => Some (f i)) (seqZ 0 n).

(** The rotation: cursor at the start of iteration [k], whether iteration
    [k] wraps, and the fill value the next eviction will use. *)
Definition cursor (NUM : Z) (k : nat) : Z := Z.of_nat k mod NUM.
Definition wraps (NUM : Z) (k : nat) : bool := bool_decide (cursor NUM k + 1 >= NUM).
Definition flush_value_at (NUM : Z) (k : nat) : Z := (1 + Z.of_nat k / NUM) mod 256.

(** The time iteration [k] reports when each iteration reads the clock
    twice. *)
Definition elapsed (clk : nat -> Z) (r0 : nat) (k : nat) : Z :=
  clk (r0 + 2 * k + 1)%nat - clk (r0 + 2 * k)%nat.

(** An overwrite of [region] leaves its first byte equal to the fill value,
    one more (modulo 256) than the byte it found. *)
Definition marker_steps (region : ptr) (t : transition) : Prop :=
  forall v n, label t = EvMemset region v n ->
    0 <= v < 256 /\ load (post t) region = v /\ load (pre t) region = to_uint8_t (v - 1).

Definition marker_is (region : ptr) (NUM : Z) (k : nat) (m : Machine) : Prop :=
  load (mem m) region = (Z.of_nat k / NUM) mod 256.

(** The pointers a flush loop visits. *)
Definition line_ptrs (p : ptr) (end_off : Z) (step : positive) : list ptr :=
  map (fun j => ptr_add p (Z.pos step * j))
      (seqZ 0 ((end_off - off p + Z.pos step - 1) / Z.pos step)).

Definition arg (i : nat) (args : list Z) : Z := default 0 (args !! i).

Definition input_buffer : ptr := Ptr input_buffer_blk 0.
Definition source_buffer : ptr := Ptr source_buffer_blk 0.
Definition flush_buffer : ptr := Ptr flush_buffer_blk 0.
Definition scratch_buffer : ptr := Ptr scratch_buffer_blk 0.

(** The number of replicas a variant rotates through (1 where the single
    input buffer is read every time). *)
Definition num_copies (b : benchmark) (args : list Z) : Z :=
  match b with
  | bm_memcpy_baseline_inline | bm_cache_flushing_clflush | bm_memcpy_clflush => 1
  | bm_memcpy_32mb_l3 => Memcpy32mbL3.NUM_COPIES (arg 0 args)
  | bm_memcpy_tlb => MemcpyTlb.NUM_COPIES (arg 0 args)
  | bm_cache_flushing_flush_std_memset => CacheFlushingFlushStdMemset.NUM_COPIES
  | bm_memcpy_cpu_flush => MemcpyCpuFlush.NUM_COPIES
  | bm_memcpy_vmem_tlb_flush => MemcpyVmemTlbFlush.NUM_COPIES
  | bm_memcpy_cpu_flush_padded => MemcpyCpuFlushPadded.NUM_COPIES
  | bm_memcpy_copies_padded => MemcpyCopiesPadded.NUM_COPIES
  | bm_memcpy_wip_flush => MemcpyWipFlush.NUM_COPIES
  end.

(** Where the replicas start, and how far apart they are. *)
Definition replica_base (b : benchmark) (bs : block -> Z) : ptr :=
  match b with
  | bm_memcpy_tlb => aligned bs input_buffer MemcpyTlb.PAGE_SIZE
  | bm_cache_flushing_flush_std_memset =>
      aligned bs input_buffer CacheFlushingFlushStdMemset.PAGE_SIZE
  | bm_memcpy_cpu_flush => aligned bs input_buffer MemcpyCpuFlush.PAGE_SIZE
  | bm_memcpy_cpu_flush_padded => aligned bs input_buffer MemcpyCpuFlushPadded.PAGE_SIZE
  | bm_memcpy_copies_padded =>
      aligned bs input_buffer MemcpyCopiesPadded.INPUT_BUFFER_ALIGNMENT
  | bm_memcpy_wip_flush => aligned bs scratch_buffer MemcpyWipFlush.ONE_GB
  | _ => input_buffer
  end.

Definition replica_stride (b : benchmark) (args : list Z) : Z :=
  match b with
  | bm_memcpy_baseline_inline => MemcpyBaselineInline.SOURCE_SIZE
  | bm_cache_flushing_clflush => CacheFlushingClflush.BUFFER_SIZE
  | bm_memcpy_clflush => MemcpyClflush.SOURCE_SIZE
  | bm_memcpy_32mb_l3 => Memcpy32mbL3.SOURCE_SIZE
  | bm_memcpy_tlb => MemcpyTlb.SOURCE_SIZE
  | bm_cache_flushing_flush_std_memset => CacheFlushingFlushStdMemset.SOURCE_SIZE
  | bm_memcpy_cpu_flush => MemcpyCpuFlush.SOURCE_SIZE
  | bm_memcpy_vmem_tlb_flush => MemcpyVmemTlbFlush.SOURCE_SIZE (arg 0 args)
  | bm_memcpy_cpu_flush_padded => MemcpyCpuFlushPadded.SOURCE_SIZE
  | bm_memcpy_copies_padded => MemcpyCopiesPadded.PADDED_SOURCE_SIZE (arg 0 args)
  | bm_memcpy_wip_flush => MemcpyWipFlush.SOURCE_SIZE
  end.

(** The bytes of the source each replica holds. *)
Definition replica_size (b : benchmark) (args : list Z) : Z :=
  match b with
  | bm_memcpy_copies_padded => MemcpyCopiesPadded.SOURCE_SIZE
  | _ => replica_stride b args
  end.

Definition replica (b : benchmark) (args : list Z) (bs : block -> Z) (i : Z) : ptr :=
  ptr_add (replica_base b bs) (i * replica_stride b args)%sz.

(** The region a capacity eviction overwrites. *)
Definition flush_region (b : benchmark) (args : list Z) (bs : block -> Z) : option (ptr * Z) :=
  match b with
  | bm_cache_flushing_flush_std_memset =>
      Some (flush_buffer, CacheFlushingFlushStdMemset.flush_buffer_size (arg 0 args))
  | bm_memcpy_cpu_flush => Some (flush_buffer, MemcpyCpuFlush.FLUSH_BUFFER_SIZE (arg 0 args))
  | bm_memcpy_cpu_flush_padded =>
      Some (ptr_add flush_buffer (MemcpyCpuFlushPadded.VMEM_PADDING (arg 0 args)),
            MemcpyCpuFlushPadded.FLUSH_BUFFER_SIZE)
  | bm_memcpy_copies_padded =>
      Some (ptr_add flush_buffer MemcpyCopiesPadded.VMEM_PADDING,
            MemcpyCopiesPadded.FLUSH_BUFFER_SIZE)
  | bm_memcpy_wip_flush =>
      Some (ptr_add (ptr_add (aligned bs scratch_buffer MemcpyWipFlush.ONE_GB)
                             (MemcpyWipFlush.ONE_GB / 2)%sz)
                    (MemcpyWipFlush.VMEM_PADDING (arg 1 args)),
            MemcpyWipFlush.FLUSH_BUFFER_SIZE (arg 0 args))
  | _ => None
  end.

Definition overwrite (r : option (ptr * Z)) (v : Z) : list event :=
  match r with Some (p, size) => [EvMemset p v size] | None => [] end.

(** The region whose protection a variant toggles. *)
Definition protected_region (b : benchmark) (args : list Z) (bs : block -> Z)
    : option (ptr * Z) :=
  match b with
  | bm_memcpy_vmem_tlb_flush =>
      Some (input_buffer, MemcpyVmemTlbFlush.INPUT_BUFFER_SIZE (arg 0 args))
  | bm_memcpy_wip_flush =>
      Some (aligned bs scratch_buffer MemcpyWipFlush.ONE_GB, MemcpyWipFlush.ONE_GB)
  | _ => None
  end.

Definition toggle (r : option (ptr * Z)) : list event :=
  match r with
  | Some (p, size) =>
      [EvVirtualProtect p size PAGE_NOACCESS nullptr;
       EvVirtualProtect p size PAGE_READWRITE nullptr]
  | None => []
  end.

(** The eviction step of a variant, for fill value [v]. *)
Definition eviction (b : benchmark) (args : list Z) (bs : block -> Z) (v : Z) : list event :=
  toggle (protected_region b args bs) ++ overwrite (flush_region b args bs) v.

Definition is_eviction (e : event) : bool :=
  match e with
  | EvMemset _ _ _ | EvVirtualProtect _ _ _ _ => true
  | _ => false
  end.

(** The measured copies out of the replica at [buffer]. *)
Definition copy1 (buffer : ptr) : list event :=
  [ EvMemcpy (Ptr output_buffer_blk 0) (ptr_add buffer 102) 401 ].

Definition copy3 (buffer : ptr) : list event :=
  [ EvMemcpy (Ptr output_buffer_blk 0) (ptr_add buffer 102) 401;
    EvMemcpy (Ptr output_buffer_blk 401) (ptr_add buffer 6402) 801;
    EvMemcpy (Ptr output_buffer_blk 1202) (ptr_add buffer 16586) 301 ].

Definition copy4 (buffer : ptr) : list event :=
  [ EvMemcpy (Ptr output_buffer_blk 0) (ptr_add buffer 102) 401;
    EvMemcpy (Ptr output_buffer_blk 401) (ptr_add buffer 6402) 801;
    EvMemcpy (Ptr output_buffer_blk 1503) (ptr_add buffer 12308) 501;
    EvMemcpy (Ptr output_buffer_blk 1202) (ptr_add buffer 16586) 301 ].

Definition measured (b : benchmark) (buffer : ptr) : list event :=
  match b with
  | bm_cache_flushing_clflush | bm_cache_flushing_flush_std_memset => copy1 buffer
  | bm_memcpy_copies_padded => copy4 buffer
  | _ => copy3 buffer
  end.

(** Whether a variant times its iterations itself. *)
Definition manual_time (b : benchmark) : bool :=
  match b with
  | bm_memcpy_baseline_inline | bm_memcpy_32mb_l3 | bm_memcpy_tlb => false
  | _ => true
  end.

(** What follows the copies and the eviction in an iteration. *)
Definition closing (b : benchmark) (t : Z) : list event :=
  match b with
  | bm_cache_flushing_clflush =>
      map EvClflush (line_ptrs input_buffer CacheFlushingClflush.BUFFER_SIZE
                               CacheFlushingClflush.CACHE_LINE_SIZE)
      ++ [EvSetIterationTime t]
  | bm_memcpy_clflush =>
      map EvClflush (line_ptrs input_buffer MemcpyClflush.SOURCE_SIZE
                               MemcpyClflush.CACHE_LINE_SIZE)
      ++ [EvSleep 1; EvSetIterationTime t]
  | _ => if manual_time b then [EvSetIterationTime t] else []
  end.

Definition iteration_labels (b : benchmark) (args : list Z) (bs : block -> Z)
    (clk : nat -> Z) (r0 : nat) (k : nat) : list event :=
  measured b (replica b args bs (cursor (num_copies b args) k))
  ++ (if wraps (num_copies b args) k
      then eviction b args bs (flush_value_at (num_copies b args) k) else [])
  ++ closing b (elapsed clk r0 k).

Definition fill_labels (b : benchmark) (args : list Z) (bs : block -> Z) : list event :=
  map (fun j => EvMemcpy (replica b args bs j) source_buffer (replica_size b args))
      (seqZ 0 (num_copies b args)).

Definition setup_labels (b : benchmark) (args : list Z) (bs : block -> Z) : list event :=
  match b with
  | bm_memcpy_baseline_inline | bm_cache_flushing_clflush | bm_memcpy_clflush =>
      [ EvNew input_buffer_blk 17234; EvMemset input_buffer 166 17234 ]
  | bm_memcpy_32mb_l3 =>
      [ EvNew source_buffer_blk 17234; EvMemset source_buffer 166 17234;
        EvNew input_buffer_blk (Memcpy32mbL3.INPUT_BUFFER_SIZE (arg 0 args));
        EvNew copies_blk (num_copies b args) ]
      ++ fill_labels b args bs
  | bm_memcpy_tlb =>
      [ EvNew source_buffer_blk MemcpyTlb.SOURCE_SIZE;
        EvMemset source_buffer 166 MemcpyTlb.SOURCE_SIZE;
        EvNew input_buffer_blk (MemcpyTlb.INPUT_BUFFER_SIZE (arg 0 args));
        EvNew copies_blk (num_copies b args) ]
      ++ fill_labels b args bs
  | bm_cache_flushing_flush_std_memset =>
      [ EvNew source_buffer_blk 17234; EvMemset source_buffer 166 17234;
        EvNew input_buffer_blk CacheFlushingFlushStdMemset.INPUT_BUFFER_SIZE ]
      ++ fill_labels b args bs
      ++ [ EvNew flush_buffer_blk (CacheFlushingFlushStdMemset.flush_buffer_size (arg 0 args)) ]
      ++ eviction b args bs 0
  | bm_memcpy_cpu_flush =>
      [ EvNew source_buffer_blk 17234; EvMemset source_buffer 166 17234;
        EvNew input_buffer_blk MemcpyCpuFlush.INPUT_BUFFER_SIZE;
        EvNew copies_blk (num_copies b args) ]
      ++ fill_labels b args bs
      ++ [ EvNew flush_buffer_blk (MemcpyCpuFlush.FLUSH_BUFFER_SIZE (arg 0 args)) ]
      ++ eviction b args bs 0
  | bm_memcpy_vmem_tlb_flush =>
      [ EvNew source_buffer_blk (MemcpyVmemTlbFlush.SOURCE_SIZE (arg 0 args));
        EvMemset source_buffer 166 (MemcpyVmemTlbFlush.SOURCE_SIZE (arg 0 args));
        EvVirtualAlloc input_buffer_blk (MemcpyVmemTlbFlush.INPUT_BUFFER_SIZE (arg 0 args));
        EvNew copies_blk (num_copies b args) ]
      ++ fill_labels b args bs
  | bm_memcpy_cpu_flush_padded =>
      [ EvNew source_buffer_blk 17234; EvMemset source_buffer 166 17234;
        EvNew input_buffer_blk MemcpyCpuFlushPadded.INPUT_BUFFER_SIZE;
        EvNew copies_blk (num_copies b args) ]
      ++ fill_labels b args bs
      ++ [ EvNew flush_buffer_blk (MemcpyCpuFlushPadded.PADDED_FLUSH_BUFFER_SIZE (arg 0 args)) ]
      ++ eviction b args bs 0
  | bm_memcpy_copies_padded =>
      [ EvNew source_buffer_blk 17234; EvMemset source_buffer 166 17234;
        EvNew input_buffer_blk (MemcpyCopiesPadded.INPUT_BUFFER_SIZE (arg 0 args));
        EvNew copies_blk (num_copies b args) ]
      ++ fill_labels b args bs
      ++ [ EvNew flush_buffer_blk MemcpyCopiesPadded.PADDED_FLUSH_BUFFER_SIZE ]
      ++ eviction b args bs 0
  | bm_memcpy_wip_flush =>
      [ EvNew source_buffer_blk 17234; EvMemset source_buffer 166 17234;
        EvNew scratch_buffer_blk MemcpyWipFlush.SCRATCH_BUFFER_SIZE;
        EvMemset (replica_base b bs) 0 MemcpyWipFlush.ONE_GB;
        EvNew copies_blk (num_copies b args) ]
      ++ fill_labels b args bs
      ++ eviction b args bs 0
  end.

Definition teardown_labels (b : benchmark) (args : list Z) : list event :=
  match b with
  | bm_memcpy_baseline_inline | bm_cache_flushing_clflush | bm_memcpy_clflush =>
      [ EvDelete input_buffer_blk ]
  | bm_memcpy_32mb_l3 | bm_memcpy_tlb =>
      [ EvDelete source_buffer_blk; EvDelete input_buffer_blk; EvDelete copies_blk ]
  | bm_cache_flushing_flush_std_memset =>
      [ EvDelete source_buffer_blk; EvDelete input_buffer_blk; EvDelete flush_buffer_blk ]
  | bm_memcpy_cpu_flush | bm_memcpy_cpu_flush_padded | bm_memcpy_copies_padded =>
      [ EvDelete source_buffer_blk; EvDelete input_buffer_blk; EvDelete copies_blk;
        EvDelete flush_buffer_blk ]
  | bm_memcpy_vmem_tlb_flush =>
      [ EvDelete source_buffer_blk;
        EvVirtualFree input_buffer (MemcpyVmemTlbFlush.INPUT_BUFFER_SIZE (arg 0 args))
          MEM_RELEASE;
        EvDelete copies_blk ]
  | bm_memcpy_wip_flush =>
      [ EvDelete source_buffer_blk; EvDelete copies_blk; EvDelete scratch_buffer_blk ]
  end.

(** The value of the ["Allocated"] counter. *)
Definition allocated (b : benchmark) (args : list Z) : Z :=
  match b with
  | bm_memcpy_baseline_inline => MemcpyBaselineInline.SOURCE_SIZE
  | bm_cache_flushing_clflush => CacheFlushingClflush.BUFFER_SIZE
  | bm_memcpy_clflush => MemcpyClflush.SOURCE_SIZE
  | bm_memcpy_32mb_l3 => Memcpy32mbL3.INPUT_BUFFER_SIZE (arg 0 args)
  | bm_memcpy_tlb => MemcpyTlb.INPUT_BUFFER_SIZE (arg 0 args)
  | bm_cache_flushing_flush_std_memset =>
      (CacheFlushingFlushStdMemset.flush_buffer_size (arg 0 args)
       + CacheFlushingFlushStdMemset.INPUT_BUFFER_SIZE)%sz
  | bm_memcpy_cpu_flush =>
      (MemcpyCpuFlush.FLUSH_BUFFER_SIZE (arg 0 args) + MemcpyCpuFlush.INPUT_BUFFER_SIZE)%sz
  | bm_memcpy_vmem_tlb_flush => MemcpyVmemTlbFlush.INPUT_BUFFER_SIZE (arg 0 args)
  | bm_memcpy_cpu_flush_padded =>
      (MemcpyCpuFlushPadded.PADDED_FLUSH_BUFFER_SIZE (arg 0 args)
       + MemcpyCpuFlushPadded.INPUT_BUFFER_SIZE)%sz
  | bm_memcpy_copies_padded =>
      (MemcpyCopiesPadded.PADDED_FLUSH_BUFFER_SIZE
       + MemcpyCopiesPadded.INPUT_BUFFER_SIZE (arg 0 args))%sz
  | bm_memcpy_wip_flush =>
      (MemcpyWipFlush.PADDED_FLUSH_BUFFER_SIZE (arg 0 args) (arg 1 args)
       + MemcpyWipFlush.INPUT_BUFFER_SIZE)%sz
  end.

Definition reported_counters (b : benchmark) (args : list Z) : gmap string Counter :=
  <[Allocated := MkCounter (allocated b args) kDefaults kIs1024]>
    (<[NumCopies := MkCounter (num_copies b args) kDefaults kIs1000]>
       (<[Speed := MkCounter 1503 kIsIterationInvariantRate kIs1024]> ∅)).

(** How many arguments a variant reads. *)
Definition arity (b : benchmark) : nat :=
  match b with
  | bm_memcpy_baseline_inline | bm_cache_flushing_clflush | bm_memcpy_clflush => 0
  | bm_memcpy_wip_flush => 2
  | _ => 1
  end.

(** The arguments a variant runs on without leaving defined behaviour:
    the ones it reads are there, it has a replica to read, it divides by
    no zero, and what it overwrites to evict is not empty. *)
Definition valid_args (b : benchmark) (args : list Z) : bool :=
  bool_decide (arity b <= length args)%nat
  && bool_decide (0 < num_copies b args)
  && match b with
     | bm_memcpy_vmem_tlb_flush =>
         bool_decide (MemcpyVmemTlbFlush.PADDING_SIZE (arg 0 args) <> 0)
     | _ => true
     end
  && match flush_region b args (fun _ => 0) with
     | Some (_, size) => bool_decide (0 < size)
     | None => true
     end.

(** The variants that rotate through replicas, and those among them that
    evict by overwriting a flush buffer or by toggling page protection. *)
Definition rotating (b : benchmark) : bool :=
  match b with
  | bm_memcpy_baseline_inline | bm_cache_flushing_clflush | bm_memcpy_clflush => false
  | _ => true
  end.

Definition capacity_eviction (b : benchmark) : bool :=
  match b with
  | bm_cache_flushing_flush_std_memset | bm_memcpy_cpu_flush
  | bm_memcpy_cpu_flush_padded | bm_memcpy_copies_padded | bm_memcpy_wip_flush => true
  | _ => false
  end.

Definition page_protection (b : benchmark) : bool :=
  match b with
  | bm_memcpy_vmem_tlb_flush | bm_memcpy_wip_flush => true
  | _ => false
  end.

(** The measured loop of a variant, with the locals its setup leaves: the
    loop body applied to them, the loop-carried locals at the start of
    iteration [k], and the rotation cursor among them. *)
Record measured_loop : Type := MkLoop {
  loop_state : Type;
  loop_body : loop_state -> M loop_state;
  loop_at : nat -> loop_state;
  loop_cursor : loop_state -> Z
}.

Definition loop_of (b : benchmark) (args : list Z) (bs : block -> Z) : measured_loop :=
  let NUM := num_copies b args in
  let copies := table_of (replica b args bs) NUM in
  match b with
  | bm_memcpy_baseline_inline =>
      MkLoop unit (MemcpyBaselineInline.body input_buffer) (fun _ => tt) (fun _ => 0)
  | bm_cache_flushing_clflush =>
      MkLoop unit (CacheFlushingClflush.body input_buffer) (fun _ => tt) (fun _ => 0)
  | bm_memcpy_clflush =>
      MkLoop unit (MemcpyClflush.body input_buffer) (fun _ => tt) (fun _ => 0)
  | bm_memcpy_32mb_l3 =>
      MkLoop Z (Memcpy32mbL3.body (arg 0 args) copies) (cursor NUM) id
  | bm_memcpy_tlb =>
      MkLoop Z (MemcpyTlb.body (arg 0 args) copies) (cursor NUM) id
  | bm_cache_flushing_flush_std_memset =>
      MkLoop (Z * Z) (CacheFlushingFlushStdMemset.body (arg 0 args) copies flush_buffer)
             (fun k => (cursor NUM k, flush_value_at NUM k)) fst
  | bm_memcpy_cpu_flush =>
      MkLoop (Z * Z) (MemcpyCpuFlush.body (arg 0 args) copies flush_buffer)
             (fun k => (cursor NUM k, flush_value_at NUM k)) fst
  | bm_memcpy_vmem_tlb_flush =>
      MkLoop Z (MemcpyVmemTlbFlush.body (arg 0 args) copies input_buffer) (cursor NUM) id
  | bm_memcpy_cpu_flush_padded =>
      MkLoop (Z * Z) (MemcpyCpuFlushPadded.body (arg 0 args) copies flush_buffer)
             (fun k => (cursor NUM k, flush_value_at NUM k)) fst
  | bm_memcpy_copies_padded =>
      MkLoop (Z * Z) (MemcpyCopiesPadded.body copies flush_buffer)
             (fun k => (cursor NUM k, flush_value_at NUM k)) fst
  | bm_memcpy_wip_flush =>
      MkLoop (Z * Z)
             (MemcpyWipFlush.body (arg 0 args) (arg 1 args) copies (replica_base b bs)
                (ptr_add (replica_base b bs) (MemcpyWipFlush.ONE_GB / 2)%sz))
             (fun k => (cursor NUM k, flush_value_at NUM k)) fst
  end.

(** Clock readings per iteration. *)
Definition clock_reads (b : benchmark) : nat := if manual_time b then 2%nat else 0%nat.

(** The state of the flush region at the start of iteration [k], and what
    every logged overwrite of it does. *)
Definition marker_at (b : benchmark) (args : list Z) (bs : block -> Z)
    (k : nat) (m : Machine) : Prop :=
  match flush_region b args bs with
  | Some (p, _) => marker_is p (num_copies b args) k m
  | None => True
  end.

Definition marker_step (b : benchmark) (args : list Z) (bs : block -> Z)
    (t : transition) : Prop :=
  match flush_region b args bs with
  | Some (p, _) => marker_steps p t
  | None => True
  end.

(** ** Whole runs *)

(** What a run leaves behind: the log splits into setup, measured loop and
    teardown, the measured loop is entered on the machine [ms] the setup
    left (its log is the setup, its memory the one the setup left, the
    harness state untouched) and left on [ml], and the counters are the
    reported ones. *)
Definition run_result (b : benchmark) (args : list Z) (n : nat) (bs : block -> Z)
    (clk : nat -> Z) (mf : Machine) : Prop :=
  exists st lp td ms ml,
    for_state (loop_body (loop_of b args bs)) (loop_at (loop_of b args bs) 0) ms
      = Some (loop_at (loop_of b args bs) n, ml) /\
    (st_range ms = args /\ st_iterations ms = n /\ counters ms = ∅ /\ base ms = bs /\
     clock ms = clk /\ reads ms = 0%nat /\ settled ms /\
     trace ms = st /\ trace ml = lp ++ st) /\
    trace mf = td ++ lp ++ st /\
    rev (map label st) = setup_labels b args bs /\
    rev (map label lp) = loop_labels (iteration_labels b args bs clk 0) n ++ [EvLoopEnd] /\
    rev (map label td) = teardown_labels b args /\
    Forall (marker_step b args bs) lp /\
    counters mf = reported_counters b args.

(** ** What the log of a run tells *)

(** A copy out of the replica at [buffer], [size] bytes long, stays inside
    it. Other operations read no replica. *)
Definition within (buffer : ptr) (size : Z) (e : event) : bool :=
  match e with
  | EvMemcpy dst src count =>
      if bool_decide (blk dst = output_buffer_blk)
      then bool_decide (blk src = blk buffer /\ off buffer <= off src /\
                        off src + count <= off buffer + size)
      else true
  | _ => true
  end.

(** The measured copies of iteration [k], logged as [it], stay inside the
    replica the iteration targets. *)
Definition reads_within (b : benchmark) (args : list Z) (bs : block -> Z) (k : nat)
    (it : list event) : bool :=
  forallb (within (replica b args bs (cursor (num_copies b args) k)) (replica_size b args)) it.

(** Regions of the output buffer, as (offset, size). *)
Definition in_region (x : Z) (r : Z * Z) : Prop := r.1 <= x < r.1 + r.2.

Definition footprint (l : list (Z * Z)) : Z := foldr (fun r acc => r.2 + acc) 0 l.

(** Each offset is the sum of the sizes before it. *)
Fixpoint running_from (acc : Z) (l : list (Z * Z)) : bool :=
  match l with
  | [] => true
  | r :: l' => bool_decide (r.1 = acc) && running_from (acc + r.2) l'
  end.

Definition running_sum (l : list (Z * Z)) : bool := running_from 0 l.

(** No byte is written twice, and the bytes written are exactly those below
    the footprint. *)
Definition disjoint_regions (l : list (Z * Z)) : Prop :=
  forall i j r1 r2 x,
    l !! i = Some r1 -> l !! j = Some r2 -> in_region x r1 -> in_region x r2 -> i = j.

Definition contiguous_regions (l : list (Z * Z)) : Prop :=
  forall x, 0 <= x < footprint l <-> exists r, r ∈ l /\ in_region x r.

(** The fill values of the overwrites of region [r], in order. *)
Definition fill_value (r : option (ptr * Z)) (e : event) : option Z :=
  match e, r with
  | EvMemset p v n, Some (q, size) =>
      if bool_decide (p = q /\ n = size) then Some v else None
  | _, _ => None
  end.

Definition fill_values (r : option (ptr * Z)) (l : list event) : list Z :=
  omap (fill_value r) l.

(** The pointers handed to [_mm_clflush], in order. *)
Definition flushed (e : event) : option ptr :=
  match e with EvClflush p => Some p | _ => None end.

Definition flushes (l : list event) : list ptr := omap flushed l.

(** [_mm_clflush(p)] invalidates the cache line that contains the byte at
    [p]: the 64 bytes, aligned on 64, that hold its address.  Lines are
    numbered by address divided by 64. *)
Definition line_of (bs : block -> Z) (p : ptr) : Z := uintptr bs p / 64.

(** The line of the byte at [q] is among those the log [l] flushes. *)
Definition flushed_line (bs : block -> Z) (l : list event) (q : ptr) : Prop :=
  exists p, p ∈ flushes l /\ line_of bs p = line_of bs q.

(** The counter a finished run reports under [name]. *)
Definition reported (name : string) (r : option (unit * Machine)) : option Counter :=
  match r with Some (_, s) => counters s !! name | None => None end.

(** ** Allocations and the accesses they permit *)

(** How a block came to be: the output buffer is an array on the stack,
    the others come from [new[]] or [VirtualAlloc]. *)
Inductive storage : Set := OnStack | ByNew | ByVirtualAlloc.

(** The live blocks, each with its storage and its size. *)
Definition heap : Type := block -> option (storage * Z).

Definition heap_set (h : heap) (b : block) (v : option (storage * Z)) : heap :=
  fun b' => if decide (b' = b) then v else h b'.

(** Before a benchmark allocates anything only its
    [uint8_t output_buffer[3 * 1024]] is there. *)
Definition initial_heap : heap :=
  fun b => match b with output_buffer_blk => Some (OnStack, 3 * 1024) | _ => None end.

(** The [n] bytes from [p] on lie in a live block. *)
Definition inside (h : heap) (p : ptr) (n : Z) : Prop :=
  match h (blk p) with
  | Some (_, size) => 0 <= off p /\ 0 <= n /\ off p + n <= size
  | None => False
  end.

(** What an operation needs so as not to touch or release memory that is
    not there: a block is allocated once at a time, handed for release to
    the call that matches its allocation, at its base address and while
    live, and read, written, flushed or protected only while live and
    within its size. *)
Definition allowed (h : heap) (e : event) : Prop :=
  match e with
  | EvNew b size | EvVirtualAlloc b size => h b = None /\ 0 <= size
  | EvDelete b => exists size, h b = Some (ByNew, size)
  | EvVirtualFree p _ _ => off p = 0 /\ exists size, h (blk p) = Some (ByVirtualAlloc, size)
  | EvMemset dst _ count => inside h dst count
  | EvMemcpy dst src count => inside h dst count /\ inside h src count
  | EvClflush p => inside h p 1
  | EvVirtualProtect p size _ _ => inside h p size
  | EvSleep _ | EvIteration | EvLoopEnd | EvSetIterationTime _ => True
  end.

(** The live blocks after an operation.  [VirtualFree] with [MEM_RELEASE]
    releases the region only when its [dwSize] is 0; with any other size
    the call fails and the region stays allocated. *)
Definition after (h : heap) (e : event) : heap :=
  match e with
  | EvNew b size => heap_set h b (Some (ByNew, size))
  | EvVirtualAlloc b size => heap_set h b (Some (ByVirtualAlloc, size))
  | EvDelete b => heap_set h b None
  | EvVirtualFree p size MEM_RELEASE =>
      if decide (size = 0) then heap_set h (blk p) None else h
  | _ => h
  end.

(** Every operation of a log is allowed when its turn comes. *)
Fixpoint safe (h : heap) (l : list event) : Prop :=
  match l with
  | [] => True
  | e :: l' => allowed h e /\ safe (after h e) l'
  end.

(** The live blocks once a log has run. *)
Definition final (h : heap) (l : list event) : heap := fold_left after l h.

(** The operations that neither allocate nor release. *)
Definition keeps_heap (e : event) : bool :=
  match e with
  | EvNew _ _ | EvVirtualAlloc _ _ | EvDelete _ | EvVirtualFree _ _ _ => false
  | _ => true
  end.

(** How far into a replica the measured copies of a variant read. *)
Definition source_extent (b : benchmark) : Z :=
  match b with
  | bm_cache_flushing_clflush | bm_cache_flushing_flush_std_memset => 102 + 401
  | _ => 16586 + 301
  end.

(** The size a variant allocates for the buffer its replicas live in. *)
Definition input_size (b : benchmark) (args : list Z) : Z :=
  match b with
  | bm_memcpy_baseline_inline => MemcpyBaselineInline.SOURCE_SIZE
  | bm_cache_flushing_clflush => CacheFlushingClflush.BUFFER_SIZE
  | bm_memcpy_clflush => MemcpyClflush.SOURCE_SIZE
  | bm_memcpy_32mb_l3 => Memcpy32mbL3.INPUT_BUFFER_SIZE (arg 0 args)
  | bm_memcpy_tlb => MemcpyTlb.INPUT_BUFFER_SIZE (arg 0 args)
  | bm_cache_flushing_flush_std_memset => CacheFlushingFlushStdMemset.INPUT_BUFFER_SIZE
  | bm_memcpy_cpu_flush => MemcpyCpuFlush.INPUT_BUFFER_SIZE
  | bm_memcpy_vmem_tlb_flush => MemcpyVmemTlbFlush.INPUT_BUFFER_SIZE (arg 0 args)
  | bm_memcpy_cpu_flush_padded => MemcpyCpuFlushPadded.INPUT_BUFFER_SIZE
  | bm_memcpy_copies_padded => MemcpyCopiesPadded.INPUT_BUFFER_SIZE (arg 0 args)
  | bm_memcpy_wip_flush => MemcpyWipFlush.SCRATCH_BUFFER_SIZE
  end.
(** ** More of what a log tells *)

(** The sources of the copies into the output buffer. *)
Definition source_ptr (e : event) : option ptr :=
  match e with
  | EvMemcpy dst src _ =>
      if bool_decide (blk dst = output_buffer_blk) then Some src else None
  | _ => None
  end.

Definition source_ptrs (l : list event) : list ptr := omap source_ptr l.

(** The offsets into a replica at which the measured copies of a variant
    read, in the order the copies are issued. *)
Definition read_offsets (b : benchmark) : list Z :=
  match b with
  | bm_cache_flushing_clflush | bm_cache_flushing_flush_std_memset => [102]
  | bm_memcpy_copies_padded => [102; 6402; 12308; 16586]
  | _ => [102; 6402; 16586]
  end.

(** The copies out of the source buffer: the filling of the replicas. *)
Definition is_fill (e : event) : bool :=
  match e with
  | EvMemcpy _ src _ => bool_decide (blk src = source_buffer_blk)
  | _ => false
  end.



(** Where the copies out of the source buffer write, each with the number
    of bytes it writes: the replicas as the setup lays them down. *)
Definition fill_dest (e : event) : option (ptr * Z) :=
  match e with
  | EvMemcpy dst src count =>
      if bool_decide (blk src = source_buffer_blk) then Some (dst, count) else None
  | _ => None
  end.

Definition fill_dests (l : list event) : list (ptr * Z) := omap fill_dest l.

(** The [VirtualProtect] calls of a log come in pairs: a call that takes
    access away from a region is followed at once, with no operation in
    between, by a call that gives read and write access back to the same
    address and size, and access is given back nowhere else.  [pending] is
    the region awaiting its second call. *)
Fixpoint paired (pending : option (ptr * Z)) (l : list event) : bool :=
  match l with
  | [] => bool_decide (pending = None)
  | e :: l' =>
      match e, pending with
      | EvVirtualProtect p size PAGE_NOACCESS _, None => paired (Some (p, size)) l'
      | EvVirtualProtect p size PAGE_READWRITE _, Some r =>
          bool_decide (r = (p, size)) && paired None l'
      | EvVirtualProtect _ _ _ _, _ => false
      | _, None => paired None l'
      | _, Some _ => false
      end
  end.

(** An operation that is not a [VirtualProtect] with somewhere to store
    the old protection. *)
Definition null_old_protect (e : event) : bool :=
  match e with EvVirtualProtect _ _ _ (Some _) => false | _ => true end.

Definition no_protect (e : event) : bool :=
  match e with EvVirtualProtect _ _ _ _ => false | _ => true end.

(** * Proofs *)

(** * Properties *)

(** ** Memory loops *)

Lemma memset_loop_spec m p end_off v b o :
  memset_loop m p end_off v b o =
  if bool_decide (b = blk p) && (off p <=? o) && (o <? end_off) then v else m b o.
Proof.
  funelim (memset_loop m p end_off v).
  - rewrite H by exact b || exact o. unfold store. simpl.
    destruct (bool_decide (b = blk p)); simpl; [|done].
    destruct (Z.eqb_spec o (off p)) as [->|Hne].
    + destruct (Z.leb_spec (off p + 1) (off p)), (Z.leb_spec (off p) (off p)),
        (Z.ltb_spec (off p) end_off); simpl; try lia; done.
    + destruct (Z.leb_spec (off p + 1) o), (Z.leb_spec (off p) o); simpl; try lia; done.
  - destruct (bool_decide (b = blk p)); simpl; [|done].
    destruct (Z.leb_spec (off p) o), (Z.ltb_spec o end_off); simpl; try done; lia.
Qed.

Lemma memcpy_loop_other m dst src end_off b o :
  b <> blk dst -> memcpy_loop m dst src end_off b o = m b o.
Proof.
  intros Hb. funelim (memcpy_loop m dst src end_off); [|done].
  rewrite H by done. unfold store. rewrite bool_decide_eq_false_2 by done. done.
Qed.

Lemma load_memset_loop m p n v :
  0 < n -> load (fun b o => memset_loop m p (off (ptr_add p n)) v b o) p = v.
Proof.
  intros Hn. unfold load. rewrite memset_loop_spec. simpl.
  rewrite bool_decide_eq_true_2, Z.leb_refl by done. simpl.
  by rewrite (proj2 (Z.ltb_lt _ _)) by lia.
Qed.

Lemma load_fill m p n v : 0 < n -> load (fun b o => fill p v n m b o) p = v.
Proof.
  intros Hn. unfold load, fill.
  rewrite bool_decide_eq_true_2, Z.leb_refl by done. simpl.
  by rewrite (proj2 (Z.ltb_lt _ _)) by lia.
Qed.

Lemma load_step e f m p : load (mem (step e f m)) p = load (f (mem m)) p.
Proof. done. Qed.

Lemma load_emit e m p : load (mem (emit e m)) p = load (mem m) p.
Proof. done. Qed.

Lemma load_tick m p : load (mem (tick m)) p = load (mem m) p.
Proof. done. Qed.

Lemma load_blit_other d s n m p : blk p <> blk d -> load (blit d s n m) p = load m p.
Proof. intros. unfold load, blit. by rewrite bool_decide_eq_false_2. Qed.

Lemma load_memcpy_loop_other d s e m p :
  blk p <> blk d -> load (memcpy_loop m d s e) p = load m p.
Proof. intros. unfold load. by apply memcpy_loop_other. Qed.

Ltac load_frame :=
  repeat first
    [ rewrite load_emit | rewrite load_tick | rewrite load_step
    | rewrite load_blit_other by (simpl; congruence)
    | rewrite load_memcpy_loop_other by (simpl; congruence) ].

(** ** Reading a log *)

Lemma segment_app s e r :
  forallb (fun x => negb (is_marker x)) s = true -> is_marker e = true ->
  segment (s ++ e :: r) = s.
Proof.
  intros Hs He. induction s as [|x s IH]; simpl in *.
  - by rewrite He.
  - apply andb_prop in Hs as [Hx Hs]. destruct (is_marker x); [done|].
    by rewrite IH.
Qed.

Lemma iterations_app s r :
  forallb (fun x => negb (is_marker x)) s = true ->
  iterations (s ++ r) = iterations r.
Proof.
  intros Hs. induction s as [|x s IH]; simpl in *; [done|].
  apply andb_prop in Hs as [Hx Hs]. destruct x; try done; by apply IH.
Qed.

Lemma iterations_loop ev n td :
  (forall k, forallb (fun x => negb (is_marker x)) (ev k) = true) ->
  forallb (fun x => negb (bool_decide (x = EvIteration))) td = true ->
  iterations (loop_labels ev n ++ EvLoopEnd :: td) = map ev (seq 0 n).
Proof.
  intros Hev Htd. unfold loop_labels. generalize 0%nat as i.
  induction n as [|n IH]; intros i; simpl.
  - induction td as [|x td IHtd]; simpl in *; [done|].
    apply andb_prop in Htd as [Hx Htd]. destruct x; try done; by apply IHtd.
  - rewrite <- app_assoc. f_equal.
    + destruct n; simpl.
      * by apply segment_app.
      * rewrite <- app_assoc. by apply segment_app.
    + rewrite iterations_app by done. apply IH.
Qed.

(** ** The environment *)

Lemma same_env_refl m : same_env m m.
Proof. by repeat split. Qed.

Lemma same_env_trans m0 m1 m2 : same_env m0 m1 -> same_env m1 m2 -> same_env m0 m2.
Proof. unfold same_env. intros (?&?&?&?&?) (?&?&?&?&?). repeat split; congruence. Qed.

Lemma range_arg i m :
  (i < length (st_range m))%nat -> range i m = Some (arg i (st_range m), m).
Proof.
  intros Hi. unfold range, arg. destruct (lookup_lt_is_Some_2 _ _ Hi) as [a ->]. done.
Qed.

Lemma settled_step e f s : settled (step e f s).
Proof. reflexivity. Qed.

Lemma settled_emit e s : settled (emit e s).
Proof. reflexivity. Qed.

(** ** The measured loop *)

Lemma iterate_app {St : Type} a b (body : St -> M St) x m :
  iterate (a + b) body x m
    = match iterate a body x m with
      | Some (x', m') => iterate b body x' m'
      | None => None
      end.
Proof.
  revert x m. induction a as [|a IH]; intros x m; [done|].
  cbn [Nat.add iterate]. unfold mbind, M_bind, modify.
  destruct (body x (emit EvIteration m)) as [[x' m']|]; [apply IH|done].
Qed.

(** Establish, preserve, use: a loop whose body takes the locals of
    iteration [k] to those of iteration [k + 1], logging [ev k]. *)
Section MeasuredLoop.
Context {St : Type} (body : St -> M St) (m0 : Machine).
Context (st : nat -> St) (ev : nat -> list event) (rd : nat).
Context (Q : transition -> Prop) (P : nat -> Machine -> Prop).

Hypothesis Q_marker : forall e mm, is_marker e = true -> Q (MkTransition mm e mm).
Hypothesis preserve : forall k m,
  same_env m0 m -> reads m = (reads m0 + rd * k)%nat ->
  exists m' new,
    body (st k) (emit EvIteration m) = Some (st (S k), m') /\
    same_env m0 m' /\ reads m' = (reads m + rd)%nat /\
    trace m' = new ++ trace (emit EvIteration m) /\
    rev (map label new) = ev k /\
    (P k m -> Forall Q new /\ P (S k) m').

Lemma iterate_from n : forall k m,
  same_env m0 m -> reads m = (reads m0 + rd * k)%nat ->
  exists m' lp,
    iterate n body (st k) m = Some (st (k + n)%nat, m') /\
    same_env m0 m' /\ reads m' = (reads m0 + rd * (k + n))%nat /\
    trace m' = lp ++ trace m /\
    rev (map label lp) = concat (map (fun j => EvIteration :: ev j) (seq k n)) /\
    (P k m -> Forall Q lp /\ P (k + n)%nat m').
Proof.
  induction n as [|n IH]; intros k m Henv Hrd.
  - exists m, []. rewrite Nat.add_0_r.
    split; [done|]. split; [done|]. split; [done|]. split; [done|]. split; [done|].
    intros HP. split; [apply Forall_nil_2|done].
  - destruct (preserve k m Henv Hrd) as (m1 & new & Hb & Henv1 & Hrd1 & Htr1 & Hlab1 & HP1).
    destruct (IH (S k) m1 Henv1 ltac:(lia)) as (m2 & lp & Hit & Henv2 & Hrd2 & Htr2 & Hlab2 & HP2).
    exists m2, (lp ++ new ++ [MkTransition (mem m) EvIteration (mem m)]).
    rewrite <- Nat.add_succ_comm. split; [|split; [|split; [|split; [|split]]]]; try done.
    + simpl. unfold mbind, M_bind, modify. by rewrite Hb.
    + rewrite Htr2, Htr1. simpl. by rewrite <- !app_assoc.
    + rewrite !map_app, !rev_app_distr. simpl. by rewrite Hlab1, Hlab2.
    + intros HP. destruct (HP1 HP) as [HQ1 HP1']. destruct (HP2 HP1') as [HQ2 HP2'].
      split; [|done]. rewrite !Forall_app. repeat split; try done.
      apply Forall_singleton. by apply Q_marker.
Qed.

Lemma for_state_spec :
  exists m' lp,
    for_state body (st 0%nat) m0 = Some (st (st_iterations m0), emit EvLoopEnd m') /\
    same_env m0 m' /\ reads m' = (reads m0 + rd * st_iterations m0)%nat /\
    trace (emit EvLoopEnd m') = lp ++ trace m0 /\
    rev (map label lp) = loop_labels ev (st_iterations m0) ++ [EvLoopEnd] /\
    (P 0%nat m0 -> Forall Q lp /\ P (st_iterations m0) m').
Proof.
  destruct (iterate_from (st_iterations m0) 0%nat m0 (same_env_refl _) ltac:(lia))
    as (m1 & lp & Hit & Henv & Hrd & Htr & Hlab & HP).
  exists m1, (MkTransition (mem m1) EvLoopEnd (mem m1) :: lp).
  split; [|split; [|split; [|split; [|split]]]]; try done.
  - unfold for_state, mbind, M_bind, gets, modify, mret, M_ret. by rewrite Hit.
  - simpl. by rewrite Htr.
  - simpl. by rewrite Hlab.
  - intros H0. destruct (HP H0) as [HQ HPn]. split; [|done].
    apply Forall_cons_2; [by apply Q_marker|done].
Qed.
End MeasuredLoop.

(** ** Filling the replica table *)

Section FillTable.
Context (f : Z -> ptr) (src : ptr) (size : Z).
Context (body : Z -> list (option ptr) -> M (list (option ptr))).
Hypothesis body_eq : forall i t m,
  body i t m = Some (<[Z.to_nat i := Some (f i)]> t,
                     step (EvMemcpy (f i) src size) (blit (f i) src size) m).

Lemma for_count_fill c : forall i filled m,
  0 <= i -> length filled = Z.to_nat i ->
  exists m' new,
    for_count c i body (filled ++ replicate c None) m
      = Some (filled ++ map (fun j => Some (f j)) (seqZ i (Z.of_nat c)), m') /\
    same_env m m' /\ reads m' = reads m /\ trace m' = new ++ trace m /\
    rev (map label new) = map (fun j => EvMemcpy (f j) src size) (seqZ i (Z.of_nat c)) /\
    (settled m -> settled m').
Proof.
  induction c as [|c IH]; intros i filled m Hi Hlen.
  - exists m, []. simpl. by repeat split.
  - destruct (IH (i + 1) (filled ++ [Some (f i)])
                (step (EvMemcpy (f i) src size) (blit (f i) src size) m))
      as (m' & new & Hrun & Henv & Hrd & Htr & Hlab & Hset).
    { lia. } { rewrite length_app. simpl. lia. }
    assert (seqZ i (Z.of_nat (S c)) = i :: seqZ (i + 1) (Z.of_nat c)) as Hseq.
    { rewrite (seqZ_cons i) by lia. f_equal. f_equal; lia. }
    exists m', (new ++ [MkTransition (mem m) (EvMemcpy (f i) src size)
                          (fun b o => blit (f i) src size (mem m) b o)]).
    rewrite Hseq. split; [|split; [|split; [|split; [|split]]]].
    + cbn [for_count]. unfold mbind, M_bind. rewrite body_eq.
      replace (<[Z.to_nat i:=Some (f i)]> (filled ++ replicate (S c) None))
        with ((filled ++ [Some (f i)]) ++ replicate c None).
      2:{ rewrite <- Hlen. rewrite insert_app_r_alt by lia. rewrite Nat.sub_diag.
          simpl. by rewrite <- app_assoc. }
      rewrite Hrun. by rewrite <- app_assoc.
    + destruct Henv as (?&?&?&?&?). by repeat split.
    + done.
    + rewrite Htr. simpl. by rewrite <- app_assoc.
    + rewrite map_app, rev_app_distr. simpl. by rewrite Hlab.
    + intros _. by apply Hset.
Qed.

Lemma fill_table n m :
  0 <= n ->
  exists m' new,
    for_count (Z.to_nat n) 0 body (replicate (Z.to_nat n) None) m
      = Some (table_of f n, m') /\
    same_env m m' /\ reads m' = reads m /\ trace m' = new ++ trace m /\
    rev (map label new) = map (fun j => EvMemcpy (f j) src size) (seqZ 0 n) /\
    (settled m -> settled m').
Proof.
  intros Hn. destruct (for_count_fill (Z.to_nat n) 0 [] m) as (m' & new & H); [lia|done|].
  rewrite Z2Nat.id in H by lia. by exists m', new.
Qed.
End FillTable.

Lemma index_table f n i :
  0 <= i < n -> index (table_of f n) i = mret (f i).
Proof.
  intros Hi. unfold index, table_of. rewrite list_lookup_fmap.
  rewrite lookup_seqZ_lt by lia. simpl. by rewrite Z2Nat.id by lia.
Qed.

(** ** The flush loop *)

Lemma line_ptrs_done p end_off step : ~ off p < end_off -> line_ptrs p end_off step = [].
Proof.
  intros H. unfold line_ptrs. rewrite seqZ_nil; [done|].
  assert (end_off - off p + Z.pos step - 1 < Z.pos step * 1) as Hlt by lia.
  apply Z.div_lt_upper_bound in Hlt; lia.
Qed.

Lemma line_ptrs_next p end_off step :
  off p < end_off ->
  line_ptrs p end_off step = p :: line_ptrs (ptr_add p (Z.pos step)) end_off step.
Proof.
  intros H. unfold line_ptrs. simpl.
  replace (end_off - off p + Z.pos step - 1)
    with (end_off - (off p + Z.pos step) + Z.pos step - 1 + 1 * Z.pos step) by lia.
  rewrite Z.div_add by lia.
  set (c := (end_off - (off p + Z.pos step) + Z.pos step - 1) / Z.pos step).
  assert (0 <= c) by (apply Z.div_pos; lia).
  rewrite (seqZ_cons 0) by lia. simpl. f_equal.
  - destruct p. unfold ptr_add. simpl. f_equal. lia.
  - replace (Z.pred (c + 1)) with c by lia.
    change (Z.succ 0) with 1.
    assert (seqZ 1 c = Z.add 1 <$> seqZ 0 c) as -> by (by rewrite fmap_add_seqZ).
    rewrite <- list_fmap_compose. apply list_fmap_ext. intros _ j _. simpl.
    unfold ptr_add. simpl. f_equal. lia.
Qed.

Lemma for_ptr_clflush p end_off step m :
  exists m' new,
    for_ptr p end_off step _mm_clflush m = Some (tt, m') /\
    same_env m m' /\ reads m' = reads m /\ (forall q, load (mem m') q = load (mem m) q) /\
    trace m' = new ++ trace m /\
    rev (map label new) = map EvClflush (line_ptrs p end_off step).
Proof.
  remember _mm_clflush as body eqn:Hbody. revert m.
  funelim (for_ptr p end_off step body); intros m.
  - destruct (H tt m (emit (EvClflush p) m)) as (m' & new & Hrun & Henv & Hrd & Hmem & Htr & Hlab).
    exists m', (new ++ [MkTransition (mem m) (EvClflush p) (mem m)]).
    split; [|split; [|split; [|split; [|split]]]].
    + done.
    + destruct Henv as (?&?&?&?&?). by repeat split.
    + done.
    + done.
    + rewrite Htr. simpl. by rewrite <- app_assoc.
    + rewrite map_app, rev_app_distr. simpl. rewrite Hlab.
      by rewrite (line_ptrs_next p) by done.
  - exists m, []. rewrite line_ptrs_done by done. by repeat split.
Qed.

(** ** The rotation *)

Lemma rotation_next NUM k :
  0 < NUM < 2 ^ 64 ->
  (cursor NUM k + 1)%sz = cursor NUM k + 1 /\
  (if wraps NUM k
   then cursor NUM (S k) = 0 /\ Z.of_nat (S k) / NUM = Z.of_nat k / NUM + 1
   else cursor NUM (S k) = cursor NUM k + 1 /\ Z.of_nat (S k) / NUM = Z.of_nat k / NUM).
Proof.
  intros HN. unfold wraps, cursor, size_add, to_size_t, SIZE_WIDTH.
  pose proof (Z.mod_pos_bound (Z.of_nat k) NUM ltac:(lia)) as Hc.
  pose proof (Z.div_mod (Z.of_nat k) NUM ltac:(lia)) as Hk.
  replace (Z.of_nat (S k)) with (Z.of_nat k + 1) by lia.
  set (c := Z.of_nat k `mod` NUM) in *. set (q := Z.of_nat k / NUM) in *.
  clearbody c q. split; [apply Z.mod_small; clear Hk; lia|].
  case_bool_decide as Hw.
  - assert (Z.of_nat k + 1 = (q + 1) * NUM) as -> by lia.
    split; [apply Z.mod_mul; lia | apply Z.div_mul; lia].
  - split.
    + symmetry. apply (Z.mod_unique_pos _ _ q); lia.
    + symmetry. apply (Z.div_unique_pos _ _ _ (c + 1)); lia.
Qed.

Lemma flush_value_next NUM k :
  to_uint8_t (flush_value_at NUM k + 1) = (1 + (Z.of_nat k / NUM + 1)) mod 256.
Proof.
  unfold to_uint8_t, flush_value_at.
  rewrite Zplus_mod_idemp_l. f_equal. lia.
Qed.

Lemma flush_value_prev NUM k :
  to_uint8_t (flush_value_at NUM k - 1) = (Z.of_nat k / NUM) mod 256.
Proof.
  unfold to_uint8_t, flush_value_at.
  rewrite Zminus_mod_idemp_l. f_equal. lia.
Qed.

Lemma flush_value_range NUM k : 0 <= flush_value_at NUM k < 256.
Proof. apply Z.mod_pos_bound. lia. Qed.

Lemma next_cursor NUM k :
  0 < NUM < 2 ^ 64 ->
  (if wraps NUM k then 0 else cursor NUM k + 1) = cursor NUM (S k).
Proof.
  intros HN. destruct (rotation_next NUM k HN) as [_ H].
  by destruct (wraps NUM k); destruct H as [-> _].
Qed.

Lemma next_state NUM k :
  0 < NUM < 2 ^ 64 ->
  (if wraps NUM k then (0, to_uint8_t (flush_value_at NUM k + 1))
   else (cursor NUM k + 1, flush_value_at NUM k))
  = (cursor NUM (S k), flush_value_at NUM (S k)).
Proof.
  intros HN. destruct (rotation_next NUM k HN) as [_ H].
  destruct (wraps NUM k); destruct H as [-> Hd]; f_equal.
  - rewrite flush_value_next. unfold flush_value_at. by rewrite Hd.
  - unfold flush_value_at. by rewrite Hd.
Qed.

Lemma next_marker NUM k :
  0 < NUM < 2 ^ 64 ->
  (Z.of_nat (S k) / NUM) mod 256 =
  if wraps NUM k then flush_value_at NUM k else (Z.of_nat k / NUM) mod 256.
Proof.
  intros HN. destruct (rotation_next NUM k HN) as [_ H].
  destruct (wraps NUM k); destruct H as [_ ->]; [|done].
  unfold flush_value_at. f_equal. lia.
Qed.

(** ** One iteration of each measured loop *)

Lemma to_size_t_bound z : 0 <= to_size_t z < 2 ^ 64.
Proof. apply Z.mod_pos_bound. done. Qed.

Lemma num_copies_bound b args : num_copies b args < 2 ^ 64.
Proof.
  destruct b; simpl; try done.
  - unfold Memcpy32mbL3.NUM_COPIES, Memcpy32mbL3.L3_SIZE, size_div.
    pose proof (to_size_t_bound (arg 0 args * 1024 * 1024)) as H.
    apply Z.div_lt_upper_bound; [done|]. unfold Memcpy32mbL3.TOTAL_COPY_SIZE. lia.
  - apply to_size_t_bound.
Qed.

Lemma valid_num_copies b args :
  valid_args b args = true -> 0 < num_copies b args < 2 ^ 64.
Proof.
  intros H. split; [|apply num_copies_bound].
  unfold valid_args in H. rewrite !andb_true_iff in H.
  destruct H as [[[_ H] _] _]. by apply bool_decide_eq_true in H.
Qed.

Lemma valid_flush_size b args bs p size :
  valid_args b args = true -> flush_region b args bs = Some (p, size) -> 0 < size.
Proof.
  intros H Hr. unfold valid_args in H. rewrite !andb_true_iff in H.
  destruct H as [_ H].
  destruct b; cbn [flush_region] in H, Hr; try discriminate;
    injection Hr as <- <-; by apply bool_decide_eq_true in H.
Qed.

(** Symbolic execution of straight-line code. *)
Ltac exec :=
  cbv [mbind M_bind mret M_ret modify now std_memcpy std_memset memcpy_impl
       memset_impl SetIterationTime VirtualProtect sleep_for].

Lemma to_uint8_t_flush_value NUM k :
  to_uint8_t (flush_value_at NUM k) = flush_value_at NUM k.
Proof. unfold to_uint8_t, flush_value_at. apply Z.mod_mod. done. Qed.

Ltac elapsed_eq Hclk Hrd :=
  simpl; rewrite ?to_uint8_t_flush_value; unfold elapsed; rewrite Hclk, Hrd;
  repeat match goal with |- context [S (?a + 2 * ?k)%nat] =>
    replace (S (a + 2 * k)) with (a + 2 * k + 1)%nat by lia end;
  reflexivity.

Ltac no_overwrite :=
  repeat apply Forall_cons_2; try apply Forall_nil_2;
  intros ? ? Hl; simpl in Hl; discriminate.

Ltac one_overwrite tac :=
  repeat apply Forall_cons_2; try apply Forall_nil_2;
  intros ? ? Hl; simpl in Hl; try discriminate;
  rewrite ?to_uint8_t_flush_value in Hl;
  inversion Hl; subst; cbn [pre post]; rewrite ?to_uint8_t_flush_value; tac.

Ltac unfold_case :=
  cbn [loop_of loop_body loop_at loop_cursor flush_region measured eviction
       protected_region toggle overwrite closing manual_time clock_reads app
       num_copies] in *.

(** The log of a machine, one operation at a time. *)
Lemma trace_step e f s :
  trace (step e f s) = MkTransition (mem s) e (fun b o => f (mem s) b o) :: trace s.
Proof. reflexivity. Qed.

Lemma trace_emit e s : trace (emit e s) = MkTransition (mem s) e (mem s) :: trace s.
Proof. reflexivity. Qed.

Lemma trace_tick s : trace (tick s) = trace s.
Proof. reflexivity. Qed.

(** What an iteration added to the log. *)
Ltac trace_eq :=
  repeat match goal with
         | |- context [trace (step ?e ?f ?s)] => rewrite (trace_step e f s)
         | |- context [trace (tick ?s)] => rewrite (trace_tick s)
         | |- context [trace (emit ?e ?s)] =>
             lazymatch e with
             | EvIteration => fail
             | _ => rewrite (trace_emit e s)
             end
         end;
  reflexivity.

Ltac split6 := split; [|split; [|split; [|split; [|split]]]].

(** An iteration of a variant that overwrites a flush buffer when it
    wraps: [wrapped] and [plain] are the shapes of what it logs. *)
Tactic Notation "capacity_case" hyp(Hsz) hyp(Hvalid) hyp(Hst) hyp(Hmk) hyp(Hinc)
    hyp(Hprev) hyp(Hclk) hyp(Hrd) constr(body_def) tactic(marker)
    uconstr(wrapped) uconstr(plain) :=
  specialize (Hsz _ _ Hvalid eq_refl);
  rewrite <- Hst, Hmk; unfold body_def; rewrite index_table by done;
  rewrite Hinc; unfold wraps;
  case_bool_decide; [rewrite decide_True by done|rewrite decide_False by done];
  [ eexists _, wrapped; split6;
    [ exec; reflexivity | by repeat split | simpl; lia | trace_eq
    | elapsed_eq Hclk Hrd
    | let HP := fresh "HP" in intros HP; split;
      [ one_overwrite ltac:(split; [done|]; split; [by marker|];
                            rewrite Hprev; load_frame; apply HP)
      | load_frame; rewrite ?to_uint8_t_flush_value; by marker ] ]
  | eexists _, plain; split6;
    [ exec; reflexivity | by repeat split | simpl; lia | trace_eq
    | elapsed_eq Hclk Hrd
    | let HP := fresh "HP" in intros HP; split;
      [ no_overwrite | load_frame; apply HP ] ] ].

Lemma loop_preserve b args m0 k m :
  valid_args b args = true ->
  same_env m0 m -> reads m = (reads m0 + clock_reads b * k)%nat ->
  exists m' new,
    loop_body (loop_of b args (base m0)) (loop_at (loop_of b args (base m0)) k)
              (emit EvIteration m)
      = Some (loop_at (loop_of b args (base m0)) (S k), m') /\
    same_env m0 m' /\ reads m' = (reads m + clock_reads b)%nat /\
    trace m' = new ++ trace (emit EvIteration m) /\
    rev (map label new) = iteration_labels b args (base m0) (clock m0) (reads m0) k /\
    (marker_at b args (base m0) k m ->
     Forall (marker_step b args (base m0)) new /\ marker_at b args (base m0) (S k) m').
Proof.
  intros Hvalid Henv Hrd.
  pose proof (valid_num_copies b args Hvalid) as HN.
  pose proof (valid_flush_size b args (base m0)) as Hsz.
  destruct (rotation_next (num_copies b args) k HN) as [Hinc _].
  assert (0 <= cursor (num_copies b args) k < num_copies b args) as Hc
    by (apply Z.mod_pos_bound; lia).
  pose proof (flush_value_range (num_copies b args) k) as Hfv.
  pose proof (flush_value_prev (num_copies b args) k) as Hprev.
  pose proof (next_state (num_copies b args) k HN) as Hst.
  pose proof (next_cursor (num_copies b args) k HN) as Hcu.
  pose proof (next_marker (num_copies b args) k HN) as Hmk.
  destruct Henv as (Hrg & Hit & Hct & Hbs & Hclk).
  unfold marker_at, marker_step, marker_is, iteration_labels.
  destruct b; unfold_case.
  - (* memcpy_baseline_inline *)
    unfold wraps, replica, cursor. rewrite Z.mod_1_r.
    eexists _, [_; _; _]. split6.
    + exec. reflexivity.
    + by repeat split.
    + simpl. lia.
    + reflexivity.
    + reflexivity.
    + intros _. split; [by apply Forall_true|done].
  - (* cache_flushing_clflush *)
    unfold wraps, replica, cursor. rewrite Z.mod_1_r.
    unfold CacheFlushingClflush.body. exec.
    match goal with |- context [for_ptr ?p ?e ?s _ ?M] =>
      destruct (for_ptr_clflush p e s M) as (m1 & fl & Hrun & Henv1 & Hrd1 & _ & Htr1 & Hlab1)
    end.
    eexists _, (_ :: fl ++ [_]). split6.
    + rewrite Hrun. reflexivity.
    + destruct Henv1 as (?&?&?&?&?). repeat split; cbn [st_range st_iterations counters base clock emit step tick] in *; congruence.
    + cbn [reads emit step tick] in *. lia.
    + cbn [trace emit]. rewrite Htr1. cbn [trace step tick emit app].
      rewrite <- app_assoc. reflexivity.
    + cbn [map rev label]. rewrite map_app, rev_app_distr. cbn [map rev label app].
      rewrite Hlab1. unfold elapsed. cbn [clock reads step emit tick].
      rewrite Hclk, Hrd.
      replace (S (reads m0 + 2 * k)) with (reads m0 + 2 * k + 1)%nat by lia.
      reflexivity.
    + intros _. split; [by apply Forall_true|done].
  - (* memcpy_clflush *)
    unfold wraps, replica, cursor. rewrite Z.mod_1_r.
    unfold MemcpyClflush.body. exec.
    match goal with |- context [for_ptr ?p ?e ?s _ ?M] =>
      destruct (for_ptr_clflush p e s M) as (m1 & fl & Hrun & Henv1 & Hrd1 & _ & Htr1 & Hlab1)
    end.
    eexists _, (_ :: _ :: fl ++ [_; _; _]). split6.
    + rewrite Hrun. reflexivity.
    + destruct Henv1 as (?&?&?&?&?). repeat split; cbn [st_range st_iterations counters base clock emit step tick] in *; congruence.
    + cbn [reads emit step tick] in *. lia.
    + cbn [trace emit]. rewrite Htr1. cbn [trace step tick emit app].
      rewrite <- app_assoc. reflexivity.
    + cbn [map rev label]. rewrite map_app, rev_app_distr. cbn [map rev label app].
      rewrite Hlab1. unfold elapsed. cbn [clock reads step emit tick].
      rewrite Hclk, Hrd.
      replace (S (reads m0 + 2 * k)) with (reads m0 + 2 * k + 1)%nat by lia.
      reflexivity.
    + intros _. split; [by apply Forall_true|done].
  - (* memcpy_32mb_l3 *)
    rewrite <- Hcu. unfold Memcpy32mbL3.body. rewrite index_table by done.
    rewrite Hinc. unfold wraps.
    eexists _, [_; _; _]. split6.
    + exec. case_bool_decide; [rewrite decide_True by done|rewrite decide_False by done];
        reflexivity.
    + by repeat split.
    + simpl. lia.
    + reflexivity.
    + simpl. by case_bool_decide.
    + intros _. split; [by apply Forall_true|done].
  - (* memcpy_tlb *)
    rewrite <- Hcu. unfold MemcpyTlb.body. rewrite index_table by done.
    rewrite Hinc. unfold wraps.
    eexists _, [_; _; _]. split6.
    + exec. case_bool_decide; [rewrite decide_True by done|rewrite decide_False by done];
        reflexivity.
    + by repeat split.
    + simpl. lia.
    + reflexivity.
    + simpl. by case_bool_decide.
    + intros _. split; [by apply Forall_true|done].
  - (* cache_flushing_flush_std_memset *)
    capacity_case Hsz Hvalid Hst Hmk Hinc Hprev Hclk Hrd CacheFlushingFlushStdMemset.body
      (apply load_fill) [_; _; _] [_; _].
  - (* memcpy_cpu_flush *)
    capacity_case Hsz Hvalid Hst Hmk Hinc Hprev Hclk Hrd MemcpyCpuFlush.body
      (apply load_memset_loop) [_; _; _; _; _] [_; _; _; _].
  - (* memcpy_vmem_tlb_flush *)
    rewrite <- Hcu. unfold MemcpyVmemTlbFlush.body. exec.
    rewrite index_table by done. rewrite Hinc. unfold wraps.
    case_bool_decide; [rewrite decide_True by done|rewrite decide_False by done].
    + eexists _, [_; _; _; _; _; _]. split6.
      * exec. reflexivity.
      * by repeat split.
      * simpl. lia.
      * trace_eq.
      * elapsed_eq Hclk Hrd.
      * intros _. split; [by apply Forall_true|done].
    + eexists _, [_; _; _; _]. split6.
      * exec. reflexivity.
      * by repeat split.
      * simpl. lia.
      * trace_eq.
      * elapsed_eq Hclk Hrd.
      * intros _. split; [by apply Forall_true|done].
  - (* memcpy_cpu_flush_padded *)
    capacity_case Hsz Hvalid Hst Hmk Hinc Hprev Hclk Hrd MemcpyCpuFlushPadded.body
      (apply load_memset_loop) [_; _; _; _; _] [_; _; _; _].
  - (* memcpy_copies_padded *)
    capacity_case Hsz Hvalid Hst Hmk Hinc Hprev Hclk Hrd MemcpyCopiesPadded.body
      (apply load_memset_loop) [_; _; _; _; _; _] [_; _; _; _; _].
  - (* memcpy_wip_flush *)
    capacity_case Hsz Hvalid Hst Hmk Hinc Hprev Hclk Hrd MemcpyWipFlush.body
      (apply load_memset_loop) [_; _; _; _; _; _; _] [_; _; _; _].
Qed.

(** ** The measured loop of each variant *)

Lemma marker_step_marker b args bs e mm :
  is_marker e = true -> marker_step b args bs (MkTransition mm e mm).
Proof.
  intros He. unfold marker_step. destruct (flush_region b args bs) as [[p size]|]; [|done].
  intros v n Hl. simpl in Hl. subst e. discriminate.
Qed.

Lemma loop_spec b args m0 :
  valid_args b args = true ->
  exists m' lp,
    for_state (loop_body (loop_of b args (base m0))) (loop_at (loop_of b args (base m0)) 0) m0
      = Some (loop_at (loop_of b args (base m0)) (st_iterations m0), emit EvLoopEnd m') /\
    same_env m0 m' /\
    reads m' = (reads m0 + clock_reads b * st_iterations m0)%nat /\
    trace (emit EvLoopEnd m') = lp ++ trace m0 /\
    rev (map label lp)
      = loop_labels (iteration_labels b args (base m0) (clock m0) (reads m0))
                    (st_iterations m0) ++ [EvLoopEnd] /\
    (marker_at b args (base m0) 0 m0 ->
     Forall (marker_step b args (base m0)) lp /\
     marker_at b args (base m0) (st_iterations m0) m').
Proof.
  intros Hvalid.
  apply (for_state_spec _ m0 _ _ (clock_reads b) (marker_step b args (base m0))
                        (marker_at b args (base m0))).
  - intros e mm He. by apply marker_step_marker.
  - intros k m Henv Hrd. by apply loop_preserve.
Qed.

(** ** Whole runs, variant by variant *)

Lemma valid_arity b args : valid_args b args = true -> (arity b <= length args)%nat.
Proof.
  unfold valid_args. rewrite !andb_true_iff. intros [[[H _] _] _].
  by apply bool_decide_eq_true in H.
Qed.

Ltac exec_run :=
  cbv [mbind M_bind mret M_ret modify gets new_array new_table delete_array
       delete_table VirtualAlloc VirtualFree VirtualProtect std_memset memset_impl
       align_ptr set_counter_m].

(** Fill the replica table with [f]. *)
Ltac use_fill f :=
  match goal with |- context [for_count (Z.to_nat ?n) 0 ?bd (replicate _ None) ?M] =>
    destruct (fill_table f source_buffer _ bd ltac:(intros; reflexivity) n M ltac:(lia))
      as (m1 & fl & Hfill & (Hrg1 & Hit1 & Hct1 & Hbs1 & Hclk1) & Hrd1 & Htr1 & Hlab1 & Hset1);
    specialize (Hset1 ltac:(first [apply settled_step | apply settled_emit]));
    cbn [st_range st_iterations counters base clock reads trace emit step tick
         initial_machine] in Hrg1, Hit1, Hct1, Hbs1, Hclk1, Hrd1, Htr1;
    rewrite Hfill; exec_run
  end.

(** Rewrite what is known of the environment in [H]. *)
Ltac rewrite_env H :=
  repeat first
    [ match goal with Hx : base _ = _ |- _ => rewrite Hx in H end
    | match goal with Hx : clock _ = _ |- _ => rewrite Hx in H end
    | match goal with Hx : reads _ = _ |- _ => rewrite Hx in H end
    | match goal with Hx : st_iterations _ = _ |- _ => rewrite Hx in H end ].

Ltac rewrite_env_goal :=
  repeat first
    [ match goal with Hx : base _ = _ |- _ => rewrite Hx end
    | match goal with Hx : st_range _ = _ |- _ => rewrite Hx end ].

(** Run the measured loop of variant [b]. *)
Ltac use_loop b args Hvalid :=
  match goal with |- context [for_state ?bd ?x0 ?M] =>
    destruct (loop_spec b args M Hvalid)
      as (m3 & lp & Hloop & (Hrg3 & Hit3 & Hct3 & Hbs3 & Hclk3) & Hrd3 & Htr3 & Hlab3 & HP3);
    cbn [st_range st_iterations counters base clock reads emit step tick
         initial_machine] in Hloop, Hrg3, Hit3, Hct3, Hbs3, Hclk3, Hrd3, Hlab3, HP3;
    rewrite_env Hloop; rewrite_env Hlab3; rewrite_env HP3;
    match type of Hloop with ?lhs = _ => change (for_state bd x0 M) with lhs end;
    rewrite Hloop; exec_run;
    assert (counters (emit EvLoopEnd m3) = counters m3) as HctE by reflexivity;
    set (mE := emit EvLoopEnd m3) in *; clearbody mE
  end.

Ltac read_range Hvalid :=
  match goal with |- context [range ?i ?M] =>
    rewrite (range_arg i M)
      by (cbn [st_range emit step tick initial_machine]; rewrite_env_goal;
          pose proof (valid_arity _ _ Hvalid) as Har; cbn [arity] in Har; lia);
    cbn [st_range emit step tick initial_machine]; rewrite_env_goal
  end.

Ltac start_run Hvalid def :=
  pose proof (valid_num_copies _ _ Hvalid) as HN;
  cbn [num_copies] in HN;
  unfold run, def.

Ltac split_result :=
  eexists; split; [reflexivity|].

(** Close a run: [st] and [td] are the shapes of the setup and teardown
    parts of the log. *)
Tactic Notation "finish_run" hyp(Hloop) hyp(Htr3) hyp(Hlab3) hyp(HQ) hyp(HctE) hyp(Hct3)
    constr(lp) uconstr(st) uconstr(td) :=
  eexists st, lp, td, _, _; split; [exact Hloop|]; split;
  [ repeat (cbn [st_range st_iterations counters base clock reads trace step emit tick
                 initial_machine];
            match goal with Hx : trace _ = _ |- _ => rewrite Hx end);
    cbn [st_range st_iterations counters base clock reads trace step emit tick
         initial_machine app];
    rewrite <- ?app_assoc;
    repeat match goal with |- _ /\ _ => split end;
    first [ reflexivity | assumption | apply settled_step | apply settled_emit ]
  | split6;
    [ cbn [trace set_counter emit]; rewrite Htr3;
      cbn [trace step emit initial_machine];
      repeat match goal with Hx : trace _ = _ |- _ => rewrite Hx end;
      cbn [app]; rewrite <- ?app_assoc; reflexivity
    | cbn [map rev label]; rewrite ?map_app, ?rev_app_distr; cbn [map rev label app];
      repeat match goal with Hx : rev (map label _) = map _ _ |- _ => rewrite Hx end;
      rewrite <- ?app_assoc; reflexivity
    | exact Hlab3
    | reflexivity
    | exact HQ
    | cbn [counters set_counter emit]; rewrite HctE, Hct3;
      repeat match goal with Hx : counters _ = _ |- _ => rewrite Hx end;
      reflexivity ] ].

Ltac no_marker := unfold marker_at; cbn [flush_region]; exact I.

Ltac marker_set tac :=
  unfold marker_at, marker_is; cbn [flush_region]; load_frame; by tac.

Lemma run_memcpy_baseline_inline args n bs clk mem0 :
  valid_args bm_memcpy_baseline_inline args = true ->
  exists mf, run bm_memcpy_baseline_inline (initial_machine args n bs clk mem0) = Some (tt, mf) /\
             run_result bm_memcpy_baseline_inline args n bs clk mf.
Proof.
  intros Hvalid. start_run Hvalid MemcpyBaselineInline.memcpy_baseline_inline.
  exec_run. use_loop bm_memcpy_baseline_inline args Hvalid. split_result.
  destruct HP3 as [HQ _]; [no_marker|].
  finish_run Hloop Htr3 Hlab3 HQ HctE Hct3 lp [_; _] [_].
Qed.

Lemma run_cache_flushing_clflush args n bs clk mem0 :
  valid_args bm_cache_flushing_clflush args = true ->
  exists mf, run bm_cache_flushing_clflush (initial_machine args n bs clk mem0) = Some (tt, mf) /\
             run_result bm_cache_flushing_clflush args n bs clk mf.
Proof.
  intros Hvalid. start_run Hvalid CacheFlushingClflush.cache_flushing_clflush.
  exec_run. use_loop bm_cache_flushing_clflush args Hvalid. split_result.
  destruct HP3 as [HQ _]; [no_marker|].
  finish_run Hloop Htr3 Hlab3 HQ HctE Hct3 lp [_; _] [_].
Qed.

Lemma run_memcpy_clflush args n bs clk mem0 :
  valid_args bm_memcpy_clflush args = true ->
  exists mf, run bm_memcpy_clflush (initial_machine args n bs clk mem0) = Some (tt, mf) /\
             run_result bm_memcpy_clflush args n bs clk mf.
Proof.
  intros Hvalid. start_run Hvalid MemcpyClflush.memcpy_clflush.
  exec_run. use_loop bm_memcpy_clflush args Hvalid. split_result.
  destruct HP3 as [HQ _]; [no_marker|].
  finish_run Hloop Htr3 Hlab3 HQ HctE Hct3 lp [_; _] [_].
Qed.

Lemma run_memcpy_32mb_l3 args n bs clk mem0 :
  valid_args bm_memcpy_32mb_l3 args = true ->
  exists mf, run bm_memcpy_32mb_l3 (initial_machine args n bs clk mem0) = Some (tt, mf) /\
             run_result bm_memcpy_32mb_l3 args n bs clk mf.
Proof.
  intros Hvalid. start_run Hvalid Memcpy32mbL3.memcpy_32mb_l3.
  unfold mbind at 1, M_bind at 1. read_range Hvalid. exec_run.
  use_fill (replica bm_memcpy_32mb_l3 args bs).
  use_loop bm_memcpy_32mb_l3 args Hvalid. split_result.
  destruct HP3 as [HQ _]; [no_marker|].
  finish_run Hloop Htr3 Hlab3 HQ HctE Hct3 lp (fl ++ [_; _; _; _]) [_; _; _].
Qed.

Lemma run_memcpy_tlb args n bs clk mem0 :
  valid_args bm_memcpy_tlb args = true ->
  exists mf, run bm_memcpy_tlb (initial_machine args n bs clk mem0) = Some (tt, mf) /\
             run_result bm_memcpy_tlb args n bs clk mf.
Proof.
  intros Hvalid. start_run Hvalid MemcpyTlb.memcpy_tlb.
  unfold mbind at 1, M_bind at 1. read_range Hvalid. exec_run.
  cbn [base emit step initial_machine].
  use_fill (replica bm_memcpy_tlb args bs).
  use_loop bm_memcpy_tlb args Hvalid. split_result.
  destruct HP3 as [HQ _]; [no_marker|].
  finish_run Hloop Htr3 Hlab3 HQ HctE Hct3 lp (fl ++ [_; _; _; _]) [_; _; _].
Qed.

Lemma run_cache_flushing_flush_std_memset args n bs clk mem0 :
  valid_args bm_cache_flushing_flush_std_memset args = true ->
  exists mf, run bm_cache_flushing_flush_std_memset (initial_machine args n bs clk mem0)
             = Some (tt, mf) /\
             run_result bm_cache_flushing_flush_std_memset args n bs clk mf.
Proof.
  intros Hvalid.
  start_run Hvalid CacheFlushingFlushStdMemset.cache_flushing_flush_std_memset.
  pose proof (valid_flush_size _ _ bs _ _ Hvalid eq_refl) as Hsz.
  exec_run. cbn [base emit step initial_machine].
  use_fill (replica bm_cache_flushing_flush_std_memset args bs).
  read_range Hvalid. exec_run.
  use_loop bm_cache_flushing_flush_std_memset args Hvalid. split_result.
  destruct HP3 as [HQ _]; [marker_set ltac:(apply load_fill)|].
  finish_run Hloop Htr3 Hlab3 HQ HctE Hct3 lp (_ :: _ :: fl ++ [_; _; _]) [_; _; _].
Qed.

Lemma run_memcpy_cpu_flush args n bs clk mem0 :
  valid_args bm_memcpy_cpu_flush args = true ->
  exists mf, run bm_memcpy_cpu_flush (initial_machine args n bs clk mem0) = Some (tt, mf) /\
             run_result bm_memcpy_cpu_flush args n bs clk mf.
Proof.
  intros Hvalid. start_run Hvalid MemcpyCpuFlush.memcpy_cpu_flush.
  pose proof (valid_flush_size _ _ bs _ _ Hvalid eq_refl) as Hsz.
  unfold mbind at 1, M_bind at 1. read_range Hvalid. exec_run.
  cbn [base emit step initial_machine].
  use_fill (replica bm_memcpy_cpu_flush args bs).
  use_loop bm_memcpy_cpu_flush args Hvalid. split_result.
  destruct HP3 as [HQ _]; [marker_set ltac:(apply load_memset_loop)|].
  finish_run Hloop Htr3 Hlab3 HQ HctE Hct3 lp (_ :: _ :: fl ++ [_; _; _; _]) [_; _; _; _].
Qed.

Lemma run_memcpy_vmem_tlb_flush args n bs clk mem0 :
  valid_args bm_memcpy_vmem_tlb_flush args = true ->
  exists mf, run bm_memcpy_vmem_tlb_flush (initial_machine args n bs clk mem0) = Some (tt, mf) /\
             run_result bm_memcpy_vmem_tlb_flush args n bs clk mf.
Proof.
  intros Hvalid. start_run Hvalid MemcpyVmemTlbFlush.memcpy_vmem_tlb_flush.
  unfold mbind at 1, M_bind at 1. read_range Hvalid. exec_run.
  use_fill (replica bm_memcpy_vmem_tlb_flush args bs).
  use_loop bm_memcpy_vmem_tlb_flush args Hvalid. split_result.
  destruct HP3 as [HQ _]; [no_marker|].
  finish_run Hloop Htr3 Hlab3 HQ HctE Hct3 lp (fl ++ [_; _; _; _]) [_; _; _].
Qed.

Lemma run_memcpy_cpu_flush_padded args n bs clk mem0 :
  valid_args bm_memcpy_cpu_flush_padded args = true ->
  exists mf, run bm_memcpy_cpu_flush_padded (initial_machine args n bs clk mem0)
             = Some (tt, mf) /\
             run_result bm_memcpy_cpu_flush_padded args n bs clk mf.
Proof.
  intros Hvalid. start_run Hvalid MemcpyCpuFlushPadded.memcpy_cpu_flush_padded.
  pose proof (valid_flush_size _ _ bs _ _ Hvalid eq_refl) as Hsz.
  exec_run. cbn [base emit step initial_machine].
  use_fill (replica bm_memcpy_cpu_flush_padded args bs).
  read_range Hvalid. exec_run.
  use_loop bm_memcpy_cpu_flush_padded args Hvalid. split_result.
  destruct HP3 as [HQ _]; [marker_set ltac:(apply load_memset_loop)|].
  finish_run Hloop Htr3 Hlab3 HQ HctE Hct3 lp (_ :: _ :: fl ++ [_; _; _; _]) [_; _; _; _].
Qed.

Lemma run_memcpy_copies_padded args n bs clk mem0 :
  valid_args bm_memcpy_copies_padded args = true ->
  exists mf, run bm_memcpy_copies_padded (initial_machine args n bs clk mem0) = Some (tt, mf) /\
             run_result bm_memcpy_copies_padded args n bs clk mf.
Proof.
  intros Hvalid. start_run Hvalid MemcpyCopiesPadded.memcpy_copies_padded.
  pose proof (valid_flush_size _ _ bs _ _ Hvalid eq_refl) as Hsz.
  unfold mbind at 1, M_bind at 1. read_range Hvalid. exec_run.
  cbn [base emit step initial_machine].
  use_fill (replica bm_memcpy_copies_padded args bs).
  use_loop bm_memcpy_copies_padded args Hvalid. split_result.
  destruct HP3 as [HQ _]; [marker_set ltac:(apply load_memset_loop)|].
  finish_run Hloop Htr3 Hlab3 HQ HctE Hct3 lp (_ :: _ :: fl ++ [_; _; _; _]) [_; _; _; _].
Qed.

Lemma run_memcpy_wip_flush args n bs clk mem0 :
  valid_args bm_memcpy_wip_flush args = true ->
  exists mf, run bm_memcpy_wip_flush (initial_machine args n bs clk mem0) = Some (tt, mf) /\
             run_result bm_memcpy_wip_flush args n bs clk mf.
Proof.
  intros Hvalid. start_run Hvalid MemcpyWipFlush.memcpy_wip_flush.
  pose proof (valid_flush_size _ _ bs _ _ Hvalid eq_refl) as Hsz.
  unfold mbind at 1, M_bind at 1. read_range Hvalid. exec_run.
  cbn [base emit step initial_machine].
  use_fill (replica bm_memcpy_wip_flush args bs).
  read_range Hvalid. exec_run.
  use_loop bm_memcpy_wip_flush args Hvalid. split_result.
  destruct HP3 as [HQ _]; [marker_set ltac:(apply load_memset_loop)|].
  finish_run Hloop Htr3 Hlab3 HQ HctE Hct3 lp (_ :: _ :: _ :: fl ++ [_; _; _; _; _]) [_; _; _].
Qed.

(** Every variant, on arguments it is defined on, runs to completion and
    leaves the expected log and counters. *)
Lemma run_spec b args n bs clk mem0 :
  valid_args b args = true ->
  exists mf, run b (initial_machine args n bs clk mem0) = Some (tt, mf) /\
             run_result b args n bs clk mf.
Proof.
  destruct b.
  - apply run_memcpy_baseline_inline.
  - apply run_cache_flushing_clflush.
  - apply run_memcpy_clflush.
  - apply run_memcpy_32mb_l3.
  - apply run_memcpy_tlb.
  - apply run_cache_flushing_flush_std_memset.
  - apply run_memcpy_cpu_flush.
  - apply run_memcpy_vmem_tlb_flush.
  - apply run_memcpy_cpu_flush_padded.
  - apply run_memcpy_copies_padded.
  - apply run_memcpy_wip_flush.
Qed.

(** ** Reading the log of a run *)

Lemma forallb_map_true {A B} (f : B -> bool) (g : A -> B) l :
  (forall x, f (g x) = true) -> forallb f (map g l) = true.
Proof. intros H. induction l as [|x l IH]; simpl; [done|]. by rewrite H, IH. Qed.

Lemma omap_map_None {A B C} (f : B -> option C) (g : A -> B) l :
  (forall x, f (g x) = None) -> omap f (map g l) = [].
Proof. intros H. induction l as [|x l IH]; simpl; [done|]. by rewrite H. Qed.

Lemma existsb_map_false {A B} (f : B -> bool) (g : A -> B) l :
  (forall x, f (g x) = false) -> existsb f (map g l) = false.
Proof. intros H. induction l as [|x l IH]; simpl; [done|]. by rewrite H, IH. Qed.

(** Unfold an expected log down to its literal events. *)
Ltac open_log :=
  unfold iteration_labels, setup_labels, teardown_labels, measured, eviction, closing,
    toggle, overwrite, fill_labels, copy1, copy3, copy4, manual_time,
    flush_region, protected_region.

Ltac by_events :=
  repeat first
    [ rewrite forallb_app | rewrite existsb_app | rewrite omap_app
    | rewrite forallb_map_true by (intros; reflexivity)
    | rewrite existsb_map_false by (intros; reflexivity)
    | rewrite omap_map_None by (intros; reflexivity) ];
  try reflexivity.

Lemma setup_no_marker b args bs :
  forallb (fun x => negb (is_marker x)) (setup_labels b args bs) = true.
Proof. destruct b; open_log; by_events. Qed.

Lemma iteration_no_marker b args bs clk r0 k :
  forallb (fun x => negb (is_marker x)) (iteration_labels b args bs clk r0 k) = true.
Proof.
  destruct b; open_log; destruct (wraps _ k); by_events.
Qed.

Lemma teardown_no_iteration b args :
  forallb (fun x => negb (bool_decide (x = EvIteration))) (teardown_labels b args) = true.
Proof. by destruct b. Qed.

Lemma labels_run b args n bs clk mf :
  run_result b args n bs clk mf ->
  labels mf = setup_labels b args bs
              ++ loop_labels (iteration_labels b args bs clk 0) n
              ++ EvLoopEnd :: teardown_labels b args.
Proof.
  intros (st & lp & td & ms & ml & _ & _ & Htr & Hst & Hlp & Htd & _).
  unfold labels. rewrite Htr, !map_app, !rev_app_distr, Hst, Hlp, Htd.
  by rewrite <- !app_assoc.
Qed.

(** The measured iterations of a run are the expected ones, and what
    precedes them is the setup. *)
Lemma iterations_run b args n bs clk mf :
  run_result b args n bs clk mf ->
  iterations (labels mf) = map (iteration_labels b args bs clk 0) (seq 0 n).
Proof.
  intros H. rewrite (labels_run _ _ _ _ _ _ H).
  rewrite iterations_app by apply setup_no_marker.
  apply iterations_loop; [intros k; apply iteration_no_marker | apply teardown_no_iteration].
Qed.

Lemma iterations_length b args n bs clk mf :
  run_result b args n bs clk mf -> length (iterations (labels mf)) = n.
Proof.
  intros H. rewrite (iterations_run _ _ _ _ _ _ H). by rewrite length_map, length_seq.
Qed.

Lemma iteration_run b args n bs clk mf k it :
  run_result b args n bs clk mf ->
  iterations (labels mf) !! k = Some it ->
  (k < n)%nat /\ it = iteration_labels b args bs clk 0 k.
Proof.
  intros H Hk. rewrite (iterations_run _ _ _ _ _ _ H) in Hk.
  rewrite list_lookup_fmap in Hk.
  destruct (seq 0 n !! k) as [j|] eqn:Hj; [|done].
  apply lookup_seq in Hj as [-> Hlt]. simpl in Hk. split; [done|congruence].
Qed.

Lemma segment_run b args n bs clk mf :
  run_result b args n bs clk mf -> segment (labels mf) = setup_labels b args bs.
Proof.
  intros H. rewrite (labels_run _ _ _ _ _ _ H). unfold loop_labels.
  destruct n as [|n]; simpl.
  - apply segment_app; [apply setup_no_marker|done].
  - apply segment_app; [apply setup_no_marker|done].
Qed.

(** ** The registered arguments *)

Lemma registered_valid b args :
  In args (registered_args b) -> valid_args b args = true.
Proof.
  destruct b; simpl; intros H;
    repeat (destruct H as [<-|H]; [by vm_compute|]); destruct H.
Qed.

Lemma reported_run b args n bs clk mem0 name :
  valid_args b args = true ->
  reported name (run b (initial_machine args n bs clk mem0))
    = reported_counters b args !! name.
Proof.
  intros Hvalid. destruct (run_spec b args n bs clk mem0 Hvalid) as (mf & -> & Hres).
  destruct Hres as (st & lp & td & ms & ml & _ & _ & _ & _ & _ & _ & _ & Hct).
  unfold reported. by rewrite Hct.
Qed.

(** ** Source reads and replica sizes *)

Lemma within_copy buffer size d o c :
  within buffer size (EvMemcpy (Ptr output_buffer_blk d) (ptr_add buffer o) c)
    = bool_decide (0 <= o /\ o + c <= size).
Proof.
  unfold within. simpl. apply bool_decide_ext. split.
  - intros (_ & ? & ?). lia.
  - intros [? ?]. split; [done|lia].
Qed.

Lemma reads_within_iteration b args bs clk r0 k :
  reads_within b args bs k (iteration_labels b args bs clk r0 k)
    = forallb (within (replica b args bs (cursor (num_copies b args) k)) (replica_size b args))
              (measured b (replica b args bs (cursor (num_copies b args) k))).
Proof.
  unfold reads_within, iteration_labels. rewrite !forallb_app.
  match goal with |- ?a && (?x && ?y) = _ =>
    assert (x = true) as ->; [|assert (y = true) as ->; [|by rewrite andb_true_r]] end.
  - destruct (wraps _ k); [|done]. destruct b; open_log; by_events.
  - destruct b; open_log; by_events.
Qed.

(** C1 (source reads stay inside the replica): this holds for every
    registered variant and argument except [memcpy_vmem_tlb_flush], whose
    [SOURCE_SIZE] the division leaves at 1 byte for both registered
    arguments, so that each of its measured copies reads past the end of
    the replica it targets. *)
Theorem source_reads_within_replica b args n bs clk mem0 :
  In args (registered_args b) ->
  exists mf,
    run b (initial_machine args n bs clk mem0) = Some (tt, mf) /\
    length (iterations (labels mf)) = n /\
    (b = bm_memcpy_vmem_tlb_flush -> replica_size b args = 1) /\
    forall k it,
      iterations (labels mf) !! k = Some it ->
      (reads_within b args bs k it = true <-> b <> bm_memcpy_vmem_tlb_flush).
Proof.
  intros Hin. pose proof (registered_valid _ _ Hin) as Hvalid.
  destruct (run_spec b args n bs clk mem0 Hvalid) as (mf & Hrun & Hres).
  exists mf. split; [done|]. split; [by apply (iterations_length _ _ _ _ _ _ Hres)|]. split.
  - intros ->. simpl in Hin. by destruct Hin as [<-|[<-|[]]].
  - intros k it Hit. apply (iteration_run _ _ _ _ _ _ _ _ Hres) in Hit as [_ ->].
    rewrite reads_within_iteration.
    destruct b; simpl in Hin;
      repeat (destruct Hin as [<-|Hin];
              [unfold measured, copy1, copy3, copy4; cbn [forallb];
               rewrite !within_copy; vm_compute; split; congruence|]);
      destruct Hin.
Qed.

Lemma source_reads_within_replica_witness :
  exists mf,
    run bm_memcpy_vmem_tlb_flush (example_machine [40] 1) = Some (tt, mf) /\
    length (iterations (labels mf)) = 1%nat /\
    (bm_memcpy_vmem_tlb_flush = bm_memcpy_vmem_tlb_flush ->
     replica_size bm_memcpy_vmem_tlb_flush [40] = 1) /\
    forall k it,
      iterations (labels mf) !! k = Some it ->
      (reads_within bm_memcpy_vmem_tlb_flush [40] example_base k it = true
       <-> bm_memcpy_vmem_tlb_flush <> bm_memcpy_vmem_tlb_flush).
Proof.
  apply (source_reads_within_replica bm_memcpy_vmem_tlb_flush [40] 1).
  simpl. left. reflexivity.
Defined.

(** ** Counters *)

(** C8 (the Speed counter): every variant that runs reports Speed as the
    constant 1503, an iteration-invariant rate in units of 1024, whatever
    its arguments, the clock and the number of iterations. *)
Theorem speed_counter_fixed b args n bs clk mem0 :
  valid_args b args = true ->
  reported Speed (run b (initial_machine args n bs clk mem0))
    = Some (MkCounter 1503 kIsIterationInvariantRate kIs1024).
Proof.
  intros Hvalid. rewrite reported_run by done. reflexivity.
Qed.

Lemma speed_counter_fixed_witness :
  reported Speed (run bm_memcpy_32mb_l3 (example_machine [33] 5))
    = Some (MkCounter 1503 kIsIterationInvariantRate kIs1024).
Proof.
  apply (speed_counter_fixed bm_memcpy_32mb_l3 [33] 5). vm_compute. reflexivity.
Defined.

(** C5 (the replicas of [memcpy_32mb_l3] fit the assumed cache): not on
    the code. For the registered argument 33, [NUM_COPIES] is the cache
    size divided by the 1503 bytes copied per iteration, 23022, where 2007
    replicas of 17234 bytes fit in 33 MiB; the buffer allocated and
    reported is 23022 * 17234 bytes, more than eleven times 33 MiB. *)
Theorem l3_buffer_exceeds_cache n bs clk mem0 :
  let r := run bm_memcpy_32mb_l3 (initial_machine [33] n bs clk mem0) in
  reported NumCopies r = Some (MkCounter 23022 kDefaults kIs1000) /\
  reported Allocated r = Some (MkCounter (23022 * 17234) kDefaults kIs1024) /\
  Memcpy32mbL3.NUM_COPIES 33 = 33 * 1024 * 1024 / 1503 /\
  2007 * 17234 <= 33 * 1024 * 1024 < 2008 * 17234 /\
  11 * (33 * 1024 * 1024) < Memcpy32mbL3.INPUT_BUFFER_SIZE 33.
Proof.
  cbv zeta. rewrite !reported_run by (by vm_compute).
  split; [by vm_compute|]. split; [by vm_compute|]. split; [by vm_compute|].
  split; [lia|]. by vm_compute.
Qed.

(** C7 (the Allocated counter of [memcpy_copies_padded]): for the paddings
    0, 4096 and 16 MiB the counter is the padded flush buffer plus 1000
    padded replicas plus the 2 MiB of alignment slack, it does not decrease
    along the sweep, and the padded replica size is 17234 for padding 0 and
    otherwise the least multiple of the padding that holds 17234 bytes. *)
Theorem allocated_counter_monotone n bs clk mem0 :
  let A pad :=
    reported Allocated (run bm_memcpy_copies_padded (initial_machine [pad] n bs clk mem0)) in
  let size pad :=
    MemcpyCopiesPadded.PADDED_FLUSH_BUFFER_SIZE
    + MemcpyCopiesPadded.PADDED_SOURCE_SIZE pad * 1000 + 2 * 1024 * 1024 in
  let padded := MemcpyCopiesPadded.PADDED_SOURCE_SIZE in
  (A 0 = Some (MkCounter (size 0) kDefaults kIs1024) /\
   A 4096 = Some (MkCounter (size 4096) kDefaults kIs1024) /\
   A (16 * 1024 * 1024) = Some (MkCounter (size (16 * 1024 * 1024)) kDefaults kIs1024)) /\
  size 0 <= size 4096 <= size (16 * 1024 * 1024) /\
  padded 0 = 17234 /\
  ((4096 | padded 4096) /\ 17234 <= padded 4096 < 17234 + 4096) /\
  ((16 * 1024 * 1024 | padded (16 * 1024 * 1024)) /\
   17234 <= padded (16 * 1024 * 1024) < 17234 + 16 * 1024 * 1024).
Proof.
  cbv beta zeta. rewrite !reported_run by (by vm_compute).
  split; [by vm_compute|].
  split; [by vm_compute|]. split; [by vm_compute|].
  split.
  - split; [exists 5; by vm_compute | by vm_compute].
  - split; [exists 1; by vm_compute | by vm_compute].
Qed.

(** ** Evictions *)

Lemma filter_map_false {A B} (f : B -> bool) (g : A -> B) l :
  (forall x, f (g x) = false) -> List.filter f (map g l) = [].
Proof. intros H. induction l as [|x l IH]; simpl; [done|]. by rewrite H. Qed.

Lemma wraps_cursor NUM k :
  0 < NUM < 2 ^ 64 -> wraps NUM k = bool_decide (cursor NUM (S k) = 0).
Proof.
  intros HN. destruct (rotation_next NUM k HN) as [_ H].
  pose proof (Z.mod_pos_bound (Z.of_nat k) NUM ltac:(lia)) as Hc. fold (cursor NUM k) in Hc.
  destruct (wraps NUM k); destruct H as [Hn _]; symmetry.
  - by apply bool_decide_eq_true_2.
  - apply bool_decide_eq_false_2. lia.
Qed.

Lemma eviction_iteration b args bs clk r0 k :
  List.filter is_eviction (iteration_labels b args bs clk r0 k)
    = if wraps (num_copies b args) k
      then eviction b args bs (flush_value_at (num_copies b args) k) else [].
Proof.
  unfold iteration_labels. rewrite !List.filter_app.
  assert (forall p, List.filter is_eviction (measured b p) = []) as -> by (by destruct b).
  assert (forall t, List.filter is_eviction (closing b t) = []) as ->.
  { intros t. destruct b; unfold closing; simpl; try done;
      rewrite List.filter_app, filter_map_false by done; done. }
  rewrite app_nil_r. simpl. destruct (wraps _ k); [|done].
  by destruct b.
Qed.

Lemma eviction_not_nil b args bs v :
  capacity_eviction b || page_protection b = true -> eviction b args bs v <> [].
Proof. by destruct b. Qed.

(** C4 (eviction only at rotation wrap): in the variants that evict, the
    eviction step is logged in a measured iteration exactly when that
    iteration takes the cursor back to 0, which is when the count of
    iterations so far is a multiple of [NUM_COPIES]; it is then logged
    once. *)
Theorem eviction_iff_wrap b args n bs clk mem0 :
  capacity_eviction b || page_protection b = true ->
  valid_args b args = true ->
  exists mf,
    run b (initial_machine args n bs clk mem0) = Some (tt, mf) /\
    length (iterations (labels mf)) = n /\
    forall k it,
      iterations (labels mf) !! k = Some it ->
      List.filter is_eviction it
        = (if bool_decide (cursor (num_copies b args) (S k) = 0)
           then eviction b args bs (flush_value_at (num_copies b args) k) else []) /\
      eviction b args bs (flush_value_at (num_copies b args) k) <> [] /\
      (cursor (num_copies b args) (S k) = 0 <-> (num_copies b args | Z.of_nat k + 1)).
Proof.
  intros Hb Hvalid. pose proof (valid_num_copies _ _ Hvalid) as HN.
  destruct (run_spec b args n bs clk mem0 Hvalid) as (mf & Hrun & Hres).
  exists mf. split; [done|]. split.
  - by apply (iterations_length _ _ _ _ _ _ Hres).
  - intros k it Hit. apply (iteration_run _ _ _ _ _ _ _ _ Hres) in Hit as [_ ->].
    split; [|split].
    + rewrite eviction_iteration. by rewrite wraps_cursor.
    + by apply eviction_not_nil.
    + unfold cursor. rewrite Nat2Z.inj_succ, <- Z.add_1_r.
      apply Z.mod_divide. lia.
Qed.

Lemma eviction_iff_wrap_witness :
  exists mf,
    run bm_memcpy_vmem_tlb_flush (example_machine [40] 64) = Some (tt, mf) /\
    length (iterations (labels mf)) = 64%nat /\
    forall k it,
      iterations (labels mf) !! k = Some it ->
      List.filter is_eviction it
        = (if bool_decide (cursor (num_copies bm_memcpy_vmem_tlb_flush [40]) (S k) = 0)
           then eviction bm_memcpy_vmem_tlb_flush [40] example_base
                  (flush_value_at (num_copies bm_memcpy_vmem_tlb_flush [40]) k)
           else []) /\
      eviction bm_memcpy_vmem_tlb_flush [40] example_base
        (flush_value_at (num_copies bm_memcpy_vmem_tlb_flush [40]) k) <> [] /\
      (cursor (num_copies bm_memcpy_vmem_tlb_flush [40]) (S k) = 0
       <-> (num_copies bm_memcpy_vmem_tlb_flush [40] | Z.of_nat k + 1)).
Proof.
  apply (eviction_iff_wrap bm_memcpy_vmem_tlb_flush [40] 64); vm_compute; reflexivity.
Defined.

(** ** The fill values of the flush region *)

Lemma loop_labels_S ev n :
  loop_labels ev (S n) = loop_labels ev n ++ EvIteration :: ev n.
Proof.
  unfold loop_labels. rewrite seq_S, map_app, concat_app. simpl. by rewrite app_nil_r.
Qed.




(** ** The eviction of the setup *)

(** An overwrite of another block, or of the same block elsewhere, is not
    an overwrite of the flush region. *)
Lemma wip_flush_not_base args bs :
  replica_base bm_memcpy_wip_flush bs
  <> ptr_add (ptr_add (aligned bs scratch_buffer MemcpyWipFlush.ONE_GB)
                      (MemcpyWipFlush.ONE_GB / 2)%sz)
             (MemcpyWipFlush.VMEM_PADDING (arg 1 args)).
Proof.
  intros Hp. apply (f_equal off) in Hp.
  unfold replica_base, ptr_add, MemcpyWipFlush.VMEM_PADDING in Hp. cbn [off] in Hp.
  pose proof (to_size_t_bound (arg 1 args * 1024 * 1024)).
  change (MemcpyWipFlush.ONE_GB / 2)%sz with 536870912 in Hp. lia.
Qed.

Ltac other_region :=
  rewrite bool_decide_eq_false_2;
  [| intros [Hp _];
     first [ by apply (f_equal blk) in Hp | by apply wip_flush_not_base in Hp ] ].

Lemma setup_ends_with_overwrite b args bs :
  capacity_eviction b = true ->
  exists pre p size,
    flush_region b args bs = Some (p, size) /\
    setup_labels b args bs = pre ++ [EvMemset p 0 size] /\
    fill_values (Some (p, size)) pre = [].
Proof.
  intros Hb. destruct b; try discriminate; unfold setup_labels, eviction;
    eexists _, _, _; (split; [reflexivity|]); (split; [rewrite !app_assoc; reflexivity|]);
    unfold fill_values, fill_labels; rewrite ?omap_app;
    rewrite omap_map_None by done; cbn [omap list_omap fill_value app toggle protected_region];
    repeat other_region; reflexivity.
Qed.

(** C10 (an eviction precedes the measured loop): in every variant that
    evicts by overwriting a flush region, the last operation before the
    measured loop begins is an overwrite of that region, with fill value 0,
    and it is the only one before the loop. *)
Theorem eviction_before_loop b args n bs clk mem0 :
  capacity_eviction b = true ->
  valid_args b args = true ->
  exists mf pre p size,
    run b (initial_machine args n bs clk mem0) = Some (tt, mf) /\
    flush_region b args bs = Some (p, size) /\
    segment (labels mf) = pre ++ [EvMemset p 0 size] /\
    fill_values (Some (p, size)) pre = [].
Proof.
  intros Hb Hvalid.
  destruct (run_spec b args n bs clk mem0 Hvalid) as (mf & Hrun & Hres).
  destruct (setup_ends_with_overwrite b args bs Hb) as (pre & p & size & Hr & Hst & Hpre).
  exists mf, pre, p, size. rewrite (segment_run _ _ _ _ _ _ Hres). done.
Qed.

Lemma eviction_before_loop_witness :
  exists mf pre p size,
    run bm_memcpy_cpu_flush (example_machine [8] 2) = Some (tt, mf) /\
    flush_region bm_memcpy_cpu_flush [8] example_base = Some (p, size) /\
    segment (labels mf) = pre ++ [EvMemset p 0 size] /\
    fill_values (Some (p, size)) pre = [].
Proof.
  apply (eviction_before_loop bm_memcpy_cpu_flush [8] 2); vm_compute; reflexivity.
Defined.



(** ** Where the measured copies land *)

Lemma output_copies_iteration b args bs clk r0 k :
  output_copies (iteration_labels b args bs clk r0 k)
    = match b with
      | bm_cache_flushing_clflush | bm_cache_flushing_flush_std_memset => [(0, 401)]
      | bm_memcpy_copies_padded => [(0, 401); (401, 801); (1503, 501); (1202, 301)]
      | _ => [(0, 401); (401, 801); (1202, 301)]
      end.
Proof.
  unfold output_copies.
  destruct b; open_log; destruct (wraps _ k);
    rewrite ?omap_app; rewrite ?omap_map_None by done; reflexivity.
Qed.

Ltac region_cases :=
  unfold disjoint_regions, in_region;
  intros i j r1 r2 x Hi Hj;
  repeat (destruct i as [|i]; [|try discriminate]);
  repeat (destruct j as [|j]; [|try discriminate]);
  simpl in Hi, Hj; try discriminate;
  injection Hi as <-; injection Hj as <-; simpl; intros; first [reflexivity | lia].

Lemma disjoint_one : disjoint_regions [(0, 401)].
Proof. region_cases. Qed.

Lemma disjoint_three : disjoint_regions [(0, 401); (401, 801); (1202, 301)].
Proof. region_cases. Qed.

Lemma disjoint_four : disjoint_regions [(0, 401); (401, 801); (1503, 501); (1202, 301)].
Proof. region_cases. Qed.

Ltac member := rewrite !elem_of_cons; by repeat first [left; reflexivity | right].

Ltac in_some_region :=
  unfold contiguous_regions, footprint, in_region; intros x; simpl; split;
  [ intros Hx
  | intros (r & Hin & Hr);
    repeat (apply elem_of_cons in Hin as [->|Hin]; [simpl in Hr; lia|]);
    by apply elem_of_nil in Hin ].

Lemma contiguous_one : contiguous_regions [(0, 401)].
Proof. in_some_region. exists (0, 401). split; [apply list_elem_of_here|simpl; lia]. Qed.

Lemma contiguous_three : contiguous_regions [(0, 401); (401, 801); (1202, 301)].
Proof.
  in_some_region.
  destruct (decide (x < 401)); [|destruct (decide (x < 1202))].
  - exists (0, 401). split; [member|simpl; lia].
  - exists (401, 801). split; [member|simpl; lia].
  - exists (1202, 301). split; [member|simpl; lia].
Qed.

Lemma contiguous_four :
  contiguous_regions [(0, 401); (401, 801); (1503, 501); (1202, 301)].
Proof.
  in_some_region.
  destruct (decide (x < 401)); [|destruct (decide (x < 1202)); [|destruct (decide (x < 1503))]].
  - exists (0, 401). split; [member|simpl; lia].
  - exists (401, 801). split; [member|simpl; lia].
  - exists (1202, 301). split; [member|simpl; lia].
  - exists (1503, 501). split; [member|simpl; lia].
Qed.

(** C2, as the code has it: in every variant each measured iteration
    writes the output buffer by the same copies: one of 401 bytes at
    offset 0 in the two one-copy variants, three of 401, 801 and 301 bytes
    at offsets 0, 401 and 1202 in the three-copy variants, and in
    [memcpy_copies_padded] four of 401, 801, 501 and 301 bytes at offsets
    0, 401, 1503 and 1202.  Their regions share no byte and together are
    exactly the bytes below their total size (401, 1503 or 2004); outside
    [memcpy_copies_padded] each offset is the sum of the sizes of the
    copies issued before it. *)
Theorem output_copies_tile b args n bs clk mem0 :
  valid_args b args = true ->
  exists mf,
    run b (initial_machine args n bs clk mem0) = Some (tt, mf) /\
    length (iterations (labels mf)) = n /\
    forall k it,
      iterations (labels mf) !! k = Some it ->
      output_copies it
        = match b with
          | bm_cache_flushing_clflush | bm_cache_flushing_flush_std_memset => [(0, 401)]
          | bm_memcpy_copies_padded => [(0, 401); (401, 801); (1503, 501); (1202, 301)]
          | _ => [(0, 401); (401, 801); (1202, 301)]
          end /\
      footprint (output_copies it)
        = match b with
          | bm_cache_flushing_clflush | bm_cache_flushing_flush_std_memset => 401
          | bm_memcpy_copies_padded => 2004
          | _ => 1503
          end /\
      disjoint_regions (output_copies it) /\
      contiguous_regions (output_copies it) /\
      (b <> bm_memcpy_copies_padded -> running_sum (output_copies it) = true).
Proof.
  intros Hvalid.
  destruct (run_spec b args n bs clk mem0 Hvalid) as (mf & Hrun & Hres).
  exists mf. split; [done|]. split; [by apply (iterations_length _ _ _ _ _ _ Hres)|].
  intros k it Hit.
  apply (iteration_run _ _ _ _ _ _ _ _ Hres) in Hit as [_ ->].
  rewrite output_copies_iteration.
  destruct b; (split; [reflexivity|split; [reflexivity|split; [|split]]]);
    first [ apply disjoint_one | apply disjoint_three | apply disjoint_four
          | apply contiguous_one | apply contiguous_three | apply contiguous_four
          | done ].
Qed.

Lemma output_copies_tile_witness :
  exists mf,
    run bm_memcpy_tlb (example_machine [850] 3) = Some (tt, mf) /\
    length (iterations (labels mf)) = 3%nat /\
    forall k it,
      iterations (labels mf) !! k = Some it ->
      output_copies it
        = match bm_memcpy_tlb with
          | bm_cache_flushing_clflush | bm_cache_flushing_flush_std_memset => [(0, 401)]
          | bm_memcpy_copies_padded => [(0, 401); (401, 801); (1503, 501); (1202, 301)]
          | _ => [(0, 401); (401, 801); (1202, 301)]
          end /\
      footprint (output_copies it)
        = match bm_memcpy_tlb with
          | bm_cache_flushing_clflush | bm_cache_flushing_flush_std_memset => 401
          | bm_memcpy_copies_padded => 2004
          | _ => 1503
          end /\
      disjoint_regions (output_copies it) /\
      contiguous_regions (output_copies it) /\
      (bm_memcpy_tlb <> bm_memcpy_copies_padded -> running_sum (output_copies it) = true).
Proof.
  apply (output_copies_tile bm_memcpy_tlb [850] 3). vm_compute. reflexivity.
Defined.

(** C2 as stated fails: the first measured iteration of
    [memcpy_copies_padded] writes its third copy at offset 1503, not at the
    sum 1202 of the sizes of the two copies before it. *)
Lemma copies_padded_not_running_sum :
  exists mf it,
    run bm_memcpy_copies_padded (example_machine [0] 1) = Some (tt, mf) /\
    iterations (labels mf) !! 0%nat = Some it /\
    output_copies it = [(0, 401); (401, 801); (1503, 501); (1202, 301)] /\
    running_sum (output_copies it) = false.
Proof.
  destruct (run_spec bm_memcpy_copies_padded [0] 1 example_base
              (fun k => 100 * Z.of_nat k) (fun _ _ => 0) eq_refl) as (mf & Hrun & Hres).
  exists mf, (iteration_labels bm_memcpy_copies_padded [0] example_base
                (fun k => 100 * Z.of_nat k) 0 0).
  split; [exact Hrun|]. split; [by rewrite (iterations_run _ _ _ _ _ _ Hres)|].
  rewrite output_copies_iteration. split; reflexivity.
Qed.

(** ** The rotation cursor *)

Lemma loop_cursor_at b args bs k :
  rotating b = true ->
  loop_cursor (loop_of b args bs) (loop_at (loop_of b args bs) k)
    = cursor (num_copies b args) k.
Proof. by destruct b. Qed.

Lemma loop_reaches b args ms k :
  valid_args b args = true ->
  exists mk,
    iterate k (loop_body (loop_of b args (base ms))) (loop_at (loop_of b args (base ms)) 0) ms
      = Some (loop_at (loop_of b args (base ms)) k, mk) /\
    same_env ms mk /\ reads mk = (reads ms + clock_reads b * k)%nat.
Proof.
  intros Hvalid.
  destruct (iterate_from (loop_body (loop_of b args (base ms))) ms
              (loop_at (loop_of b args (base ms)))
              (iteration_labels b args (base ms) (clock ms) (reads ms))
              (clock_reads b) (marker_step b args (base ms)) (marker_at b args (base ms))
              (fun e mm He => marker_step_marker b args (base ms) e mm He)
              (fun j m He Hr => loop_preserve b args ms j m Hvalid He Hr)
              k 0%nat ms (same_env_refl _) ltac:(lia))
    as (mk & lp & Hit & Henv & Hrd & _).
  exists mk. done.
Qed.

(** The state an iteration leaves lies on the path of the loop: what the
    loop logs afterwards comes on top of its log. *)
Lemma loop_path b args ms n k st' mk' x ml :
  valid_args b args = true ->
  (k < n)%nat -> st_iterations ms = n ->
  for_state (loop_body (loop_of b args (base ms))) (loop_at (loop_of b args (base ms)) 0) ms
    = Some (x, ml) ->
  iterate (S k) (loop_body (loop_of b args (base ms)))
          (loop_at (loop_of b args (base ms)) 0) ms = Some (st', mk') ->
  exists rest, trace ml = rest ++ trace mk'.
Proof.
  intros Hvalid Hk Hn Hfor Hit.
  destruct (loop_reaches b args ms (S k) Hvalid) as (m1 & Hreach & Henv & Hrd).
  rewrite Hit in Hreach. injection Hreach as -> <-.
  destruct (iterate_from (loop_body (loop_of b args (base ms))) ms
              (loop_at (loop_of b args (base ms)))
              (iteration_labels b args (base ms) (clock ms) (reads ms))
              (clock_reads b) (marker_step b args (base ms)) (marker_at b args (base ms))
              (fun e mm He => marker_step_marker b args (base ms) e mm He)
              (fun j m He Hr => loop_preserve b args ms j m Hvalid He Hr)
              (n - S k) (S k) mk' Henv Hrd)
    as (m2 & lp & Hrest & _ & _ & Htr & _).
  unfold for_state, mbind, M_bind, gets, modify, mret, M_ret in Hfor.
  rewrite Hn in Hfor. replace n with (S k + (n - S k))%nat in Hfor at 1 by lia.
  rewrite iterate_app, Hit, Hrest in Hfor. injection Hfor as _ <-.
  eexists (_ :: lp). cbn [trace emit]. by rewrite Htr.
Qed.

(** C3 (the rotation cursor stays in range): a run of a rotating variant
    enters its measured loop on the machine [ms] the setup left (its log
    is the setup part of the run's log, its memory the one the setup
    left, the harness state that of the start) with the cursor at 0, and
    the run's log is the teardown on top of the log the loop leaves.  At
    the start of every measured iteration [k] the cursor is at least 0 and
    below [NUM_COPIES]; the iteration, whose operations are those of
    iteration [k] in the run's log, leaves the cursor one higher, or at 0
    when the increment reaches [NUM_COPIES], and it is in those
    iterations, and only those, that the eviction step (if the variant has
    one) is logged. *)
Theorem cursor_in_range b args n bs clk mem0 :
  rotating b = true ->
  valid_args b args = true ->
  let L := loop_of b args bs in
  let NUM := num_copies b args in
  exists mf ms ml td,
    run b (initial_machine args n bs clk mem0) = Some (tt, mf) /\
    (st_range ms = args /\ st_iterations ms = n /\ counters ms = ∅ /\ base ms = bs /\
     clock ms = clk /\ reads ms = 0%nat /\ settled ms /\
     labels ms = setup_labels b args bs) /\
    for_state (loop_body L) (loop_at L 0) ms = Some (loop_at L n, ml) /\
    ((exists lp, trace ml = lp ++ trace ms) /\
     trace mf = td ++ trace ml /\ rev (map label td) = teardown_labels b args) /\
    loop_cursor L (loop_at L 0) = 0 /\
    forall k, (k < n)%nat ->
      exists mk st' mk' new rest,
        iterate k (loop_body L) (loop_at L 0) ms = Some (loop_at L k, mk) /\
        0 <= loop_cursor L (loop_at L k) < NUM /\
        loop_body L (loop_at L k) (emit EvIteration mk) = Some (st', mk') /\
        loop_cursor L st'
          = (if bool_decide (loop_cursor L (loop_at L k) + 1 >= NUM)
             then 0 else loop_cursor L (loop_at L k) + 1) /\
        trace mk' = new ++ trace (emit EvIteration mk) /\
        trace mf = rest ++ trace mk' /\
        iterations (labels mf) !! k = Some (rev (map label new)) /\
        List.filter is_eviction (rev (map label new))
          = (if bool_decide (loop_cursor L (loop_at L k) + 1 >= NUM)
             then eviction b args bs (flush_value_at NUM k) else []).
Proof.
  intros Hrot Hvalid L NUM. pose proof (valid_num_copies _ _ Hvalid) as HN. fold NUM in HN.
  destruct (run_spec b args n bs clk mem0 Hvalid) as (mf & Hrun & Hres).
  pose proof (iterations_run _ _ _ _ _ _ Hres) as Hits.
  destruct Hres as (st & lp & td & ms & ml & Hfor
                    & (Hrg & Hit & Hct & Hbs & Hclk & Hrd0 & Hset & Htrms & Htrml)
                    & Htr & Hst & _ & Htd & _).
  exists mf, ms, ml, td. split; [done|].
  split; [repeat split; try done; by unfold labels; rewrite Htrms|].
  split; [done|].
  split; [split; [exists lp; by rewrite Htrms|split; [by rewrite Htrml|done]]|].
  split; [unfold L; rewrite loop_cursor_at by done; apply Zmod_0_l|].
  intros k Hk.
  destruct (loop_reaches b args ms k Hvalid) as (mk & Hreach & Henv & Hrd).
  destruct (loop_preserve b args ms k mk Hvalid Henv Hrd)
    as (mk' & new & Hbody & _ & _ & Htrk & Hlab & _).
  destruct (loop_path b args ms n k (loop_at (loop_of b args (base ms)) (S k)) mk'
              (loop_at (loop_of b args (base ms)) n) ml Hvalid Hk Hit)
    as (rest & Hrest).
  { by rewrite Hbs. }
  { rewrite <- (Nat.add_1_r k) at 1. rewrite iterate_app, Hreach.
    cbn [iterate]. unfold mbind, M_bind, modify, mret, M_ret. rewrite Hbody. reflexivity. }
  rewrite Hbs, Hclk, Hrd0 in *. fold L in Hreach, Hbody.
  exists mk, (loop_at L (S k)), mk', new, (td ++ rest).
  unfold L in *. rewrite !loop_cursor_at by done. fold NUM.
  split; [done|]. split; [apply Z.mod_pos_bound; lia|]. split; [done|].
  split; [symmetry; by apply next_cursor|]. split; [done|].
  split; [by rewrite Htr, <- Htrml, Hrest, app_assoc|].
  split.
  - rewrite Hits, list_lookup_fmap, lookup_seq_lt by done. simpl. by rewrite Hlab.
  - rewrite Hlab. apply eviction_iteration.
Qed.

Lemma cursor_in_range_witness :
  let L := loop_of bm_memcpy_cpu_flush [8] example_base in
  let NUM := num_copies bm_memcpy_cpu_flush [8] in
  exists mf ms ml td,
    run bm_memcpy_cpu_flush (example_machine [8] 2000) = Some (tt, mf) /\
    (st_range ms = [8] /\ st_iterations ms = 2000%nat /\ counters ms = ∅ /\ base ms = example_base /\
     clock ms = (fun k => 100 * Z.of_nat k) /\ reads ms = 0%nat /\ settled ms /\
     labels ms = setup_labels bm_memcpy_cpu_flush [8] example_base) /\
    for_state (loop_body L) (loop_at L 0) ms = Some (loop_at L 2000%nat, ml) /\
    ((exists lp, trace ml = lp ++ trace ms) /\
     trace mf = td ++ trace ml /\ rev (map label td) = teardown_labels bm_memcpy_cpu_flush [8]) /\
    loop_cursor L (loop_at L 0) = 0 /\
    forall k, (k < 2000%nat)%nat ->
      exists mk st' mk' new rest,
        iterate k (loop_body L) (loop_at L 0) ms = Some (loop_at L k, mk) /\
        0 <= loop_cursor L (loop_at L k) < NUM /\
        loop_body L (loop_at L k) (emit EvIteration mk) = Some (st', mk') /\
        loop_cursor L st'
          = (if bool_decide (loop_cursor L (loop_at L k) + 1 >= NUM)
             then 0 else loop_cursor L (loop_at L k) + 1) /\
        trace mk' = new ++ trace (emit EvIteration mk) /\
        trace mf = rest ++ trace mk' /\
        iterations (labels mf) !! k = Some (rev (map label new)) /\
        List.filter is_eviction (rev (map label new))
          = (if bool_decide (loop_cursor L (loop_at L k) + 1 >= NUM)
             then eviction bm_memcpy_cpu_flush [8] example_base (flush_value_at NUM k) else []).
Proof.
  apply (cursor_in_range bm_memcpy_cpu_flush [8] 2000); vm_compute; reflexivity.
Defined.

(** ** The flush loop *)

Lemma flushes_map l : flushes (map EvClflush l) = l.
Proof. unfold flushes. induction l as [|p l IH]; [done|]. cbn. by f_equal. Qed.

Lemma line_ptrs_buffer :
  line_ptrs input_buffer 17234 64
    = map (fun j => ptr_add input_buffer (64 * j)) (seqZ 0 270).
Proof. reflexivity. Qed.

Lemma flushes_iteration b args bs clk r0 k :
  b = bm_cache_flushing_clflush \/ b = bm_memcpy_clflush ->
  flushes (iteration_labels b args bs clk r0 k) = line_ptrs input_buffer 17234 64.
Proof.
  intros [-> | ->]; open_log; destruct (wraps _ k); unfold flushes;
    rewrite ?omap_app; fold (flushes (map EvClflush (line_ptrs input_buffer 17234 64)));
    rewrite flushes_map; cbn [omap list_omap flushed app]; by rewrite app_nil_r.
Qed.

Lemma line_of_input bs y :
  0 <= bs input_buffer_blk -> 0 <= y -> bs input_buffer_blk + y < 2 ^ 64 ->
  line_of bs (ptr_add input_buffer y)
    = bs input_buffer_blk / 64 + (bs input_buffer_blk mod 64 + y) / 64.
Proof.
  intros H0 Hy Hfit. unfold line_of, uintptr, to_size_t, SIZE_WIDTH.
  cbn [blk off ptr_add input_buffer]. rewrite Z.mod_small by lia.
  Z.div_mod_to_equations. lia.
Qed.

(** The lines the flush loop flushes are the 270 lines from that of the
    base on: the line of byte [x] of the buffer is among them when [x],
    counted from the start of the base's line, is below 270 * 64. *)
Lemma flushed_line_input bs it x :
  flushes it = map (fun j => ptr_add input_buffer (64 * j)) (seqZ 0 270) ->
  0 <= bs input_buffer_blk -> bs input_buffer_blk + 17234 <= 2 ^ 64 ->
  0 <= x < 17234 ->
  flushed_line bs it (ptr_add input_buffer x) <-> bs input_buffer_blk mod 64 + x < 17280.
Proof.
  intros Hfl H0 Hfit Hx. unfold flushed_line. rewrite Hfl.
  pose proof (Z.mod_pos_bound (bs input_buffer_blk) 64 ltac:(lia)) as Hr.
  rewrite (line_of_input bs x) by lia. split.
  - intros (p & Hp & Hl). apply list_elem_of_fmap in Hp as (j & -> & Hj).
    apply elem_of_seqZ in Hj. rewrite (line_of_input bs (64 * j)) in Hl by lia.
    Z.div_mod_to_equations. lia.
  - intros Hlt. exists (ptr_add input_buffer (64 * ((bs input_buffer_blk mod 64 + x) / 64))).
    assert (0 <= (bs input_buffer_blk mod 64 + x) / 64 < 270) as Hj
      by (Z.div_mod_to_equations; lia).
    split.
    + apply list_elem_of_fmap. eexists. split; [reflexivity|]. apply elem_of_seqZ. lia.
    + rewrite line_of_input by lia. Z.div_mod_to_equations. lia.
Qed.

(** C9, as the code has it: in both variants that flush cache lines,
    every measured iteration hands [_mm_clflush] the 270 pointers
    [input_buffer + 64 * j], from the base of the buffer on, the last one
    at 17216; every byte of the 17234-byte buffer is less than 64 bytes
    after one of them.  The cache lines flushed, the aligned 64-byte lines
    that hold those addresses, contain every byte the measured copies read
    (offsets 102 to 16886) wherever the buffer lies; they contain every
    byte of the buffer exactly when the base is at most 46 bytes into a
    cache line, and the last of them ends past the end of the buffer
    exactly when the base is less than 46 bytes into a line, as when it is
    aligned on 64. *)
Theorem flush_loop_covers_lines b n bs clk mem0 :
  b = bm_cache_flushing_clflush \/ b = bm_memcpy_clflush ->
  0 <= bs input_buffer_blk ->
  bs input_buffer_blk + 17234 <= 2 ^ 64 ->
  exists mf,
    run b (initial_machine [] n bs clk mem0) = Some (tt, mf) /\
    length (iterations (labels mf)) = n /\
    forall k it,
      iterations (labels mf) !! k = Some it ->
      flushes it = map (fun j => ptr_add input_buffer (64 * j)) (seqZ 0 270) /\
      length (flushes it) = 270%nat /\
      (forall x, 0 <= x < 17234 ->
         exists p, p ∈ flushes it /\ blk p = input_buffer_blk /\ off p <= x < off p + 64) /\
      (forall x, 102 <= x < 16887 -> flushed_line bs it (ptr_add input_buffer x)) /\
      ((forall x, 0 <= x < 17234 -> flushed_line bs it (ptr_add input_buffer x))
       <-> bs input_buffer_blk mod 64 <= 46) /\
      last (flushes it) = Some (ptr_add input_buffer 17216) /\
      (bs input_buffer_blk + 17234 < 64 * (line_of bs (ptr_add input_buffer 17216) + 1)
       <-> bs input_buffer_blk mod 64 < 46).
Proof.
  intros Hb H0 Hfit.
  assert (valid_args b [] = true) as Hvalid by (by destruct Hb as [-> | ->]).
  destruct (run_spec b [] n bs clk mem0 Hvalid) as (mf & Hrun & Hres).
  exists mf. split; [done|]. split; [by apply (iterations_length _ _ _ _ _ _ Hres)|].
  intros k it Hit.
  apply (iteration_run _ _ _ _ _ _ _ _ Hres) in Hit as [_ ->].
  pose proof (flushes_iteration b [] bs clk 0 k Hb) as Hfl. rewrite line_ptrs_buffer in Hfl.
  pose proof (Z.mod_pos_bound (bs input_buffer_blk) 64 ltac:(lia)) as Hr.
  split; [done|]. split; [by rewrite Hfl, length_map, length_seqZ|].
  split; [|split; [|split; [|split]]].
  - rewrite Hfl. intros x Hx. exists (ptr_add input_buffer (64 * (x / 64))).
    pose proof (Z.div_mod x 64 ltac:(lia)) as Hdm.
    pose proof (Z.mod_pos_bound x 64 ltac:(lia)) as Hm.
    split; [|split; [done|simpl; lia]].
    apply list_elem_of_fmap. exists (x / 64). split; [done|].
    apply elem_of_seqZ. lia.
  - intros x Hx. apply flushed_line_input; [done|lia..].
  - split.
    + intros Hall. specialize (Hall 17233 ltac:(lia)).
      apply flushed_line_input in Hall; [lia|done|lia..].
    + intros Hle x Hx. apply flushed_line_input; [done|lia..].
  - rewrite Hfl. by vm_compute.
  - rewrite (line_of_input bs 17216) by lia. Z.div_mod_to_equations. lia.
Qed.

Lemma flush_loop_covers_lines_witness :
  exists mf,
    run bm_memcpy_clflush (example_machine [] 2) = Some (tt, mf) /\
    length (iterations (labels mf)) = 2%nat /\
    forall k it,
      iterations (labels mf) !! k = Some it ->
      flushes it = map (fun j => ptr_add input_buffer (64 * j)) (seqZ 0 270) /\
      length (flushes it) = 270%nat /\
      (forall x, 0 <= x < 17234 ->
         exists p, p ∈ flushes it /\ blk p = input_buffer_blk /\ off p <= x < off p + 64) /\
      (forall x, 102 <= x < 16887 -> flushed_line example_base it (ptr_add input_buffer x)) /\
      ((forall x, 0 <= x < 17234 -> flushed_line example_base it (ptr_add input_buffer x))
       <-> example_base input_buffer_blk mod 64 <= 46) /\
      last (flushes it) = Some (ptr_add input_buffer 17216) /\
      (example_base input_buffer_blk + 17234 < 64 * (line_of example_base (ptr_add input_buffer 17216) + 1)
       <-> example_base input_buffer_blk mod 64 < 46).
Proof.
  apply (flush_loop_covers_lines bm_memcpy_clflush 2); [right; reflexivity|simpl; lia..].
Defined.

(** C9 as stated fails: for an input buffer that starts 48 bytes into a
    cache line, the line of the last byte of the buffer is not among the
    lines an iteration of [memcpy_clflush] flushes, and the last line it
    flushes ends before the end of the buffer. *)
Lemma flush_loop_misses_last_bytes :
  exists mf it,
    run bm_memcpy_clflush (example_machine [] 1) = Some (tt, mf) /\
    iterations (labels mf) !! 0%nat = Some it /\
    example_base input_buffer_blk mod 64 = 48 /\
    ~ flushed_line example_base it (ptr_add input_buffer 17233) /\
    last (flushes it) = Some (ptr_add input_buffer 17216) /\
    64 * (line_of example_base (ptr_add input_buffer 17216) + 1)
      < example_base input_buffer_blk + 17234.
Proof.
  destruct (run_spec bm_memcpy_clflush [] 1 example_base
              (fun k => 100 * Z.of_nat k) (fun _ _ => 0) eq_refl) as (mf & Hrun & Hres).
  exists mf, (iteration_labels bm_memcpy_clflush [] example_base
                (fun k => 100 * Z.of_nat k) 0 0).
  split; [exact Hrun|]. split; [by rewrite (iterations_run _ _ _ _ _ _ Hres)|].
  pose proof (flushes_iteration bm_memcpy_clflush [] example_base
                (fun k => 100 * Z.of_nat k) 0 0 ltac:(by right)) as Hfl.
  rewrite line_ptrs_buffer in Hfl.
  split; [reflexivity|]. split; [|split].
  - intros Hin. apply flushed_line_input in Hin; [|done|simpl; lia..].
    change (example_base input_buffer_blk mod 64) with 48 in Hin. lia.
  - rewrite Hfl. by vm_compute.
  - by vm_compute.
Qed.

(** * Further properties of the code *)

(** ** The hand-written memory loops *)

Lemma memset_loop_fill m p n v b o :
  memset_loop m p (off (ptr_add p n)) v b o = fill p v n m b o.
Proof. rewrite memset_loop_spec. reflexivity. Qed.

(** X1 ([memset_impl] against [std::memset]): the byte loop of
    [memset_impl] leaves memory exactly as [std::memset] does for the same
    byte value: the bytes of [buffer, buffer + buffer_size) hold the value
    and no other byte changes; the two calls are logged alike. *)
Theorem memset_impl_as_std_memset buffer buffer_size v s :
  0 <= v < 256 ->
  exists s1 s2,
    memset_impl buffer buffer_size v s = Some (tt, s1) /\
    std_memset buffer v buffer_size s = Some (tt, s2) /\
    labels s1 = labels s2 /\
    forall b o,
      mem s1 b o = mem s2 b o /\
      mem s1 b o = if bool_decide (b = blk buffer) && (off buffer <=? o)
                      && (o <? off buffer + buffer_size)
                   then v else mem s b o.
Proof.
  intros Hv. eexists _, _. split; [reflexivity|]. split; [reflexivity|].
  assert (to_uint8_t v = v) as Hu by (apply Z.mod_small; lia).
  split.
  - unfold labels. cbn [trace step map label]. by rewrite Hu.
  - intros b o. cbn [mem step]. rewrite memset_loop_fill, Hu. done.
Qed.

Lemma memset_impl_as_std_memset_witness :
  exists s1 s2,
    memset_impl flush_buffer 4096 7 (example_machine [8] 0) = Some (tt, s1) /\
    std_memset flush_buffer 7 4096 (example_machine [8] 0) = Some (tt, s2) /\
    labels s1 = labels s2 /\
    forall b o,
      mem s1 b o = mem s2 b o /\
      mem s1 b o = if bool_decide (b = blk flush_buffer) && (off flush_buffer <=? o)
                      && (o <? off flush_buffer + 4096)
                   then 7 else mem (example_machine [8] 0) b o.
Proof.
  apply (memset_impl_as_std_memset flush_buffer 4096 7). lia.
Defined.

(** Decide every test of a goal on bytes and offsets. *)
Ltac byte_cases :=
  repeat case_bool_decide;
  repeat match goal with
         | |- context [?x <=? ?y] => destruct (Z.leb_spec x y)
         | |- context [?x <? ?y] => destruct (Z.ltb_spec x y)
         | |- context [?x =? ?y] => destruct (Z.eqb_spec x y)
         end;
  cbn [andb]; subst; try reflexivity; try lia; try congruence.

Lemma memcpy_loop_blit m dst src end_off b o :
  blk dst <> blk src \/ off dst <= off src \/ end_off <= off dst ->
  memcpy_loop m dst src end_off b o = blit dst src (end_off - off src) m b o.
Proof.
  funelim (memcpy_loop m dst src end_off); intros Hfw.
  - rewrite H; [|exact b|exact o|simpl; destruct Hfw as [?|[?|?]]; [by left|right; lia..]].
    unfold blit, store, load. cbn [blk off ptr_add].
    byte_cases; try (f_equal; lia); destruct Hfw as [?|[?|?]]; congruence || lia.
  - unfold blit. byte_cases.
Qed.

(** X2 ([memcpy_impl] against [std::memcpy]): on ranges that do not
    overlap (the destination in another block than the source, or the two
    ranges of [count] bytes apart in the same block), which is where
    [std::memcpy] is defined, the byte loop of [memcpy_impl] leaves memory
    exactly as [std::memcpy] does: the destination holds the bytes the
    source held before the call and no other byte changes. *)
Theorem memcpy_impl_as_std_memcpy dst src count s :
  0 <= count ->
  blk dst <> blk src \/ off dst + count <= off src \/ off src + count <= off dst ->
  exists s1 s2,
    memcpy_impl dst src count s = Some (tt, s1) /\
    std_memcpy dst src count s = Some (tt, s2) /\
    labels s1 = labels s2 /\
    forall b o,
      mem s1 b o = mem s2 b o /\
      mem s1 b o = if bool_decide (b = blk dst) && (off dst <=? o) && (o <? off dst + count)
                   then mem s (blk src) (off src + (o - off dst)) else mem s b o.
Proof.
  intros Hcount Hapart. eexists _, _. split; [reflexivity|]. split; [reflexivity|].
  split; [reflexivity|]. intros b o. cbn [mem step].
  rewrite memcpy_loop_blit by (cbn [off ptr_add]; lia || (destruct Hapart as [?|[?|?]]; [by left|right; lia..])).
  cbn [off ptr_add].
  replace (off src + count - off src) with count by lia. done.
Qed.

Lemma memcpy_impl_as_std_memcpy_witness :
  exists s1 s2,
    memcpy_impl output_buffer (ptr_add input_buffer 102) 401 (example_machine [] 0)
      = Some (tt, s1) /\
    std_memcpy output_buffer (ptr_add input_buffer 102) 401 (example_machine [] 0)
      = Some (tt, s2) /\
    labels s1 = labels s2 /\
    forall b o,
      mem s1 b o = mem s2 b o /\
      mem s1 b o = if bool_decide (b = blk output_buffer) && (off output_buffer <=? o)
                      && (o <? off output_buffer + 401)
                   then mem (example_machine [] 0) (blk (ptr_add input_buffer 102))
                          (off (ptr_add input_buffer 102) + (o - off output_buffer))
                   else mem (example_machine [] 0) b o.
Proof.
  apply (memcpy_impl_as_std_memcpy output_buffer (ptr_add input_buffer 102) 401).
  - lia.
  - left. simpl. discriminate.
Defined.

Lemma memcpy_loop_smear m dst src end_off b o :
  blk dst = blk src -> off dst = off src + 1 ->
  memcpy_loop m dst src end_off b o
    = if bool_decide (b = blk src) && (off src <? o) && (o <=? end_off)
      then m (blk src) (off src) else m b o.
Proof.
  funelim (memcpy_loop m dst src end_off); intros Hb Ho.
  - rewrite H; [|exact b|exact o|done|simpl; lia].
    unfold store, load. cbn [blk off ptr_add]. rewrite Hb, Ho.
    byte_cases.
  - byte_cases.
Qed.

(** X3 ([memcpy_impl] on overlapping ranges): copying a range onto itself
    shifted up by one byte does not move it: every byte of the destination
    ends up holding the first byte of the source, and nothing else is
    written. *)
Theorem memcpy_impl_overlap_smears src count s :
  0 < count ->
  exists s',
    memcpy_impl (ptr_add src 1) src count s = Some (tt, s') /\
    forall b o,
      mem s' b o = if bool_decide (b = blk src) && (off src + 1 <=? o)
                      && (o <? off src + 1 + count)
                   then mem s (blk src) (off src) else mem s b o.
Proof.
  intros Hc. eexists. split; [reflexivity|]. intros b o. cbn [mem step].
  rewrite memcpy_loop_smear by done. cbn [off ptr_add]. byte_cases.
Qed.

Lemma memcpy_impl_overlap_smears_witness :
  exists s',
    memcpy_impl (ptr_add input_buffer 1) input_buffer 3 (example_machine [] 0)
      = Some (tt, s') /\
    forall b o,
      mem s' b o = if bool_decide (b = blk input_buffer) && (off input_buffer + 1 <=? o)
                      && (o <? off input_buffer + 1 + 3)
                   then mem (example_machine [] 0) (blk input_buffer) (off input_buffer)
                   else mem (example_machine [] 0) b o.
Proof.
  apply (memcpy_impl_overlap_smears input_buffer 3). lia.
Defined.

(** ** Aligning a pointer *)

(** Clearing the low [k] bits of a 64-bit value. *)
Lemma size_and_not_ones x k :
  0 <= k -> 0 <= x < 2 ^ 64 ->
  (x & (~ (2 ^ k - 1)))%sz = 2 ^ k * (x / 2 ^ k).
Proof.
  intros Hk Hx. unfold size_and, size_not, SIZE_WIDTH.
  replace (2 ^ 64 - 1 - (2 ^ k - 1)) with (Z.lnot (Z.ones k) + 2 ^ 64)
    by (rewrite Z.ones_equiv; unfold Z.lnot; lia).
  destruct (decide (k <= 64)) as [Hle|Hgt].
  - assert (Z.lnot (Z.ones k) + 2 ^ 64 = Z.land (Z.lnot (Z.ones k)) (Z.ones 64)) as ->.
    { rewrite Z.land_ones by lia. symmetry.
      rewrite <- (Z.mod_add _ 1) by lia. apply Z.mod_small.
      rewrite Z.ones_equiv. unfold Z.lnot.
      assert (0 < 2 ^ k <= 2 ^ 64) by (split; [lia|apply Z.pow_le_mono_r; lia]). lia. }
    rewrite (Z.land_comm (Z.lnot _)), Z.land_assoc, (Z.land_ones x) by lia.
    rewrite (Z.mod_small x) by done.
    rewrite <- Z.ldiff_land, Z.ldiff_ones_r by lia.
    rewrite Z.shiftr_div_pow2, Z.shiftl_mul_pow2 by lia. lia.
  - assert (2 ^ 64 < 2 ^ k) by (apply Z.pow_lt_mono_r; lia).
    rewrite (Z.div_small x) by lia. rewrite Z.mul_0_r.
    apply Z.bits_inj'. intros n Hn. rewrite Z.land_spec, Z.bits_0.
    destruct (decide (n < 64)) as [Hlt|Hge].
    + replace (Z.lnot (Z.ones k) + 2 ^ 64) with (2 ^ 64 * (1 - 2 ^ (k - 64)))
        by (rewrite Z.ones_equiv; unfold Z.lnot;
            replace (2 ^ k) with (2 ^ 64 * 2 ^ (k - 64))
              by (rewrite <- Z.pow_add_r by lia; f_equal; lia); lia).
      rewrite (Z.mul_comm (2 ^ 64)), Z.mul_pow2_bits_low by lia. apply andb_false_r.
    + rewrite (Z.bits_above_log2 x n); [done|lia|].
      destruct (decide (x = 0)) as [->|Hne]; [simpl; lia|].
      apply Z.log2_lt_pow2; [lia|]. apply Z.lt_le_trans with (2 ^ 64); [lia|].
      apply Z.pow_le_mono_r; lia.
Qed.

(** The address of an aligned pointer. *)
Lemma aligned_address bs p k :
  0 <= k -> 0 <= bs (blk p) + off p -> bs (blk p) + off p + 2 ^ k <= 2 ^ 64 ->
  bs (blk p) + off (aligned bs p (2 ^ k))
    = 2 ^ k * ((bs (blk p) + off p + 2 ^ k - 1) / 2 ^ k).
Proof.
  intros Hk H0 Hfit. assert (0 < 2 ^ k) by lia.
  unfold aligned, ptr_of_uintptr, uintptr. cbn [blk off ptr_add].
  unfold to_size_t, SIZE_WIDTH. rewrite Z.mod_small by lia.
  rewrite size_and_not_ones by lia.
  replace (bs (blk p) + (off p + 2 ^ k + -1)) with (bs (blk p) + off p + 2 ^ k - 1) by lia.
  lia.
Qed.

Lemma round_up_window a A :
  0 < A -> a <= A * ((a + A - 1) / A) < a + A.
Proof.
  intros HA. pose proof (Z.div_mod (a + A - 1) A ltac:(lia)) as Hd.
  pose proof (Z.mod_pos_bound (a + A - 1) A HA) as Hm. lia.
Qed.

Lemma round_up_fixed a A :
  0 < A -> (A | a) -> A * ((a + A - 1) / A) = a.
Proof.
  intros HA [c ->]. replace (c * A + A - 1) with (A - 1 + c * A) by lia.
  rewrite Z.div_add by lia. rewrite Z.div_small by lia. lia.
Qed.

(** X4 (aligning a pointer): for a power-of-two alignment and a pointer
    whose address leaves room for it below [2^64], the expression
    [(p + alignment - 1) & ~(alignment - 1)] yields a pointer into the
    same block whose address is a multiple of the alignment, at or after
    [p] and less than [alignment] bytes after it; a pointer that is
    already aligned comes back unchanged. *)
Theorem aligned_is_next_multiple bs p k :
  0 <= k ->
  0 <= bs (blk p) + off p ->
  bs (blk p) + off p + 2 ^ k <= 2 ^ 64 ->
  blk (aligned bs p (2 ^ k)) = blk p /\
  (2 ^ k | bs (blk p) + off (aligned bs p (2 ^ k))) /\
  off p <= off (aligned bs p (2 ^ k)) < off p + 2 ^ k /\
  ((2 ^ k | bs (blk p) + off p) -> aligned bs p (2 ^ k) = p).
Proof.
  intros Hk H0 Hfit. assert (0 < 2 ^ k) as HA by lia.
  pose proof (aligned_address bs p k Hk H0 Hfit) as Ha.
  pose proof (round_up_window (bs (blk p) + off p) (2 ^ k) HA) as Hw.
  split; [done|]. split; [|split].
  - rewrite Ha. apply Z.divide_factor_l.
  - lia.
  - intros Hd. pose proof (round_up_fixed _ _ HA Hd) as Hf.
    destruct p as [b o]. unfold aligned, ptr_of_uintptr in *. cbn [blk off] in *.
    f_equal. lia.
Qed.

Lemma aligned_is_next_multiple_witness :
  blk (aligned example_base input_buffer (2 ^ 12)) = blk input_buffer /\
  (2 ^ 12 | example_base (blk input_buffer)
            + off (aligned example_base input_buffer (2 ^ 12))) /\
  off input_buffer <= off (aligned example_base input_buffer (2 ^ 12))
    < off input_buffer + 2 ^ 12 /\
  ((2 ^ 12 | example_base (blk input_buffer) + off input_buffer) ->
   aligned example_base input_buffer (2 ^ 12) = input_buffer).
Proof.
  apply (aligned_is_next_multiple example_base input_buffer 12); vm_compute; congruence.
Defined.

(** ** Memory safety of a run *)

Lemma heap_set_eq h b v : heap_set h b v b = v.
Proof. unfold heap_set. by rewrite decide_True. Qed.

Lemma heap_set_ne h b v b' : b' <> b -> heap_set h b v b' = h b'.
Proof. intros. unfold heap_set. by rewrite decide_False. Qed.

Ltac heap_lookup :=
  repeat first [ rewrite heap_set_eq | rewrite heap_set_ne by discriminate ].

Lemma final_app h l1 l2 : final h (l1 ++ l2) = final (final h l1) l2.
Proof. apply fold_left_app. Qed.

Lemma safe_app h l1 l2 : safe h (l1 ++ l2) <-> safe h l1 /\ safe (final h l1) l2.
Proof.
  revert h. induction l1 as [|e l1 IH]; intros h; simpl; [tauto|].
  rewrite IH. unfold final. simpl. tauto.
Qed.

Lemma final_keeps h l : forallb keeps_heap l = true -> final h l = h.
Proof.
  revert h. induction l as [|e l IH]; intros h Hl; [done|].
  simpl in Hl. apply andb_prop in Hl as [He Hl]. unfold final in *. simpl.
  rewrite <- (IH h Hl) at 2. by destruct e.
Qed.

Lemma safe_keeps h l :
  forallb keeps_heap l = true -> Forall (allowed h) l -> safe h l.
Proof.
  induction l as [|e l IH]; intros Hl Hs; [done|].
  simpl in Hl. apply andb_prop in Hl as [He Hl].
  apply Forall_cons in Hs as [Hse Hs]. simpl. split; [done|].
  replace (after h e) with h by (by destruct e). by apply IH.
Qed.

Lemma inside_part h p n o c :
  inside h p n -> 0 <= o -> 0 <= c -> o + c <= n -> inside h (ptr_add p o) c.
Proof.
  unfold inside. cbn [blk off ptr_add]. destruct (h (blk p)) as [[s size]|]; [|done]. lia.
Qed.

Lemma fill_keeps b args bs : forallb keeps_heap (fill_labels b args bs) = true.
Proof. unfold fill_labels. by apply forallb_map_true. Qed.

Lemma iteration_keeps b args bs clk r0 k :
  forallb keeps_heap (iteration_labels b args bs clk r0 k) = true.
Proof. destruct b; open_log; destruct (wraps _ k); by_events. Qed.

Lemma loop_keeps b args bs clk r0 n :
  forallb keeps_heap (loop_labels (iteration_labels b args bs clk r0) n) = true.
Proof.
  induction n as [|n IH]; [done|]. rewrite loop_labels_S, forallb_app, IH.
  simpl. apply iteration_keeps.
Qed.

Lemma loop_allowed h ev n :
  (forall k, Forall (allowed h) (ev k)) -> Forall (allowed h) (loop_labels ev n).
Proof.
  intros Hev. induction n as [|n IH]; [apply Forall_nil_2|].
  rewrite loop_labels_S. apply Forall_app. split; [done|].
  apply Forall_cons_2; [exact I|apply Hev].
Qed.

Lemma line_ptrs_range p end_off step q :
  q ∈ line_ptrs p end_off step -> blk q = blk p /\ off p <= off q < end_off.
Proof.
  unfold line_ptrs. intros Hq. apply list_elem_of_fmap in Hq as (j & -> & Hj).
  apply elem_of_seqZ in Hj. cbn [blk off ptr_add]. split; [done|].
  pose proof (Z.mul_div_le (end_off - off p + Z.pos step - 1) (Z.pos step) ltac:(lia)).
  nia.
Qed.

(** The operations of one measured iteration are allowed once the output
    buffer, the replica the iteration reads, the regions it evicts through
    and (where it flushes lines) the input buffer are live. *)
Lemma iteration_allowed b args bs clk r0 k h :
  h output_buffer_blk = Some (OnStack, 3 * 1024) ->
  inside h (replica b args bs (cursor (num_copies b args) k)) (source_extent b) ->
  (forall p size, flush_region b args bs = Some (p, size) -> inside h p size) ->
  (forall p size, protected_region b args bs = Some (p, size) -> inside h p size) ->
  (rotating b = false -> inside h input_buffer 17234) ->
  Forall (allowed h) (iteration_labels b args bs clk r0 k).
Proof.
  intros Hout Hrep Hfl Hpr Hin.
  assert (forall d o c, 0 <= d -> 0 <= c -> d + c <= 3 * 1024 ->
                        0 <= o -> o + c <= source_extent b ->
            allowed h (EvMemcpy (Ptr output_buffer_blk d)
                         (ptr_add (replica b args bs (cursor (num_copies b args) k)) o) c))
    as Hcopy.
  { intros d o c ? ? ? ? ?. split.
    - unfold inside. cbn [blk off]. rewrite Hout. lia.
    - by apply inside_part with (source_extent b). }
  assert (forall s, Forall (allowed h) (map EvClflush (line_ptrs input_buffer 17234 s))
                      \/ rotating b = true) as Hlines.
  { intros s. destruct (rotating b) eqn:Hr; [by right|left].
    specialize (Hin eq_refl). apply Forall_fmap, Forall_forall. intros q Hq.
    apply line_ptrs_range in Hq as [Hb Ho]. change (inside h q 1).
    unfold inside in *. rewrite Hb. destruct (h (blk input_buffer)) as [[? size]|]; [|done].
    cbn [off input_buffer] in *. lia. }
  unfold iteration_labels. rewrite !Forall_app. split; [|split].
  - destruct b; unfold measured, copy1, copy3, copy4;
      repeat apply Forall_cons_2; try apply Forall_nil_2;
      apply Hcopy; unfold source_extent; lia.
  - destruct (wraps _ k); [|apply Forall_nil_2].
    unfold eviction. apply Forall_app. split.
    + destruct (protected_region b args bs) as [[p size]|]; [|apply Forall_nil_2].
      specialize (Hpr p size eq_refl). by repeat apply Forall_cons_2.
    + destruct (flush_region b args bs) as [[p size]|]; [|apply Forall_nil_2].
      specialize (Hfl p size eq_refl). by repeat apply Forall_cons_2.
  - destruct b; unfold closing; cbn [manual_time];
      rewrite ?Forall_app; repeat split;
      try (repeat apply Forall_cons_2; try apply Forall_nil_2; exact I);
      by destruct (Hlines 64%positive).
Qed.

(** A run is safe once its setup and teardown are and the heap the setup
    leaves permits every iteration; it leaves behind what its teardown
    leaves of that heap. *)
Lemma run_heap b args n bs clk mf h :
  run_result b args n bs clk mf ->
  final initial_heap (setup_labels b args bs) = h ->
  safe initial_heap (setup_labels b args bs) ->
  (forall k, Forall (allowed h) (iteration_labels b args bs clk 0 k)) ->
  safe h (teardown_labels b args) ->
  safe initial_heap (labels mf) /\
  final initial_heap (labels mf) = final h (teardown_labels b args).
Proof.
  intros Hres Hh Hsetup Hit Htd. rewrite (labels_run _ _ _ _ _ _ Hres).
  assert (forallb keeps_heap (loop_labels (iteration_labels b args bs clk 0) n) = true)
    as Hk by apply loop_keeps.
  split.
  - apply safe_app. split; [done|]. rewrite Hh. apply safe_app. split.
    + apply safe_keeps; [done|]. by apply loop_allowed.
    + rewrite final_keeps by done. split; [exact I|exact Htd].
  - rewrite !final_app, Hh. rewrite (final_keeps h (loop_labels _ _)) by done.
    change (EvLoopEnd :: teardown_labels b args) with ([EvLoopEnd] ++ teardown_labels b args).
    by rewrite final_app.
Qed.

(** ** Where the replicas lie *)

Lemma aligned_input_window bs A :
  A = 2 ^ Z.log2 A -> 0 < A <= 2 ^ 40 ->
  0 <= bs input_buffer_blk < 2 ^ 47 ->
  0 <= off (aligned bs input_buffer A) < A.
Proof.
  intros HA Hr Hbs. rewrite HA at 1 3.
  pose proof (Z.log2_nonneg A) as Hk.
  assert (bs (blk input_buffer) + off input_buffer + 2 ^ Z.log2 A <= 2 ^ 64) as Hfit
    by (rewrite <- HA; cbn [blk off input_buffer]; lia).
  pose proof (aligned_address bs input_buffer (Z.log2 A) Hk
                ltac:(cbn [blk off input_buffer]; lia) Hfit) as Ha.
  pose proof (round_up_window (bs (blk input_buffer) + off input_buffer)
                (2 ^ Z.log2 A) ltac:(lia)) as Hw.
  cbn [blk off input_buffer] in *. rewrite <- HA in *. lia.
Qed.

(** Evaluate the constants of a variant on given arguments. *)
Ltac eval_sizes :=
  repeat match goal with
         | |- context [replica_stride ?b ?a] =>
             let v := eval vm_compute in (replica_stride b a) in
             change (replica_stride b a) with v
         | |- context [replica_size ?b ?a] =>
             let v := eval vm_compute in (replica_size b a) in
             change (replica_size b a) with v
         | |- context [input_size ?b ?a] =>
             let v := eval vm_compute in (input_size b a) in
             change (input_size b a) with v
         | |- context [source_extent ?b] =>
             let v := eval vm_compute in (source_extent b) in
             change (source_extent b) with v
         end.

Ltac window bs :=
  repeat match goal with
         | |- context [off (aligned bs input_buffer ?A)] =>
             lazymatch goal with
             | _ : 0 <= off (aligned bs input_buffer A) < _ |- _ => fail
             | _ => let v := eval vm_compute in A in
                    assert (0 <= off (aligned bs input_buffer A) < v)
                      by (apply aligned_input_window;
                          [reflexivity | by vm_compute | assumption])
             end
         end.

(** Every replica of a registered variant lies in the input buffer, with
    room for what is copied into it and for what is read out of it. *)
Lemma replica_fits b args bs j :
  In args (registered_args b) ->
  0 <= bs input_buffer_blk < 2 ^ 47 ->
  0 <= j < num_copies b args ->
  blk (replica b args bs j) = input_buffer_blk /\
  0 <= off (replica b args bs j) /\
  off (replica b args bs j) + Z.max (replica_size b args) (source_extent b)
    <= input_size b args.
Proof.
  intros Hin Hbs Hj. split; [by destruct b|].
  destruct b; simpl in Hin;
    repeat (destruct Hin as [<-|Hin];
            [ match type of Hj with _ <= _ < ?n =>
                let v := eval vm_compute in n in change n with v in Hj end;
              unfold replica, replica_base, ptr_add; cbn [off blk input_buffer];
              eval_sizes; window bs;
              unfold size_mul, to_size_t, SIZE_WIDTH; rewrite Z.mod_small by lia; lia | ]);
    destruct Hin.
Qed.

Lemma fill_final b args bs h : fold_left after (fill_labels b args bs) h = h.
Proof. apply (final_keeps h), fill_keeps. Qed.

Lemma inside_of h p n s size :
  h (blk p) = Some (s, size) -> 0 <= off p -> 0 <= n -> off p + n <= size ->
  inside h p n.
Proof. intros Hh ? ? ?. unfold inside. by rewrite Hh. Qed.

Lemma fill_allowed b args bs h s1 s2 size :
  In args (registered_args b) ->
  0 <= bs input_buffer_blk < 2 ^ 47 ->
  h input_buffer_blk = Some (s1, input_size b args) ->
  h source_buffer_blk = Some (s2, size) ->
  0 <= replica_size b args <= size ->
  Forall (allowed h) (fill_labels b args bs).
Proof.
  intros Hin Hbs Hi Hs Hsz. unfold fill_labels.
  apply Forall_fmap, Forall_forall. intros j Hj. apply elem_of_seqZ in Hj.
  destruct (replica_fits b args bs j Hin Hbs ltac:(lia)) as (Hb & H0 & Hfit).
  split.
  - apply inside_of with s1 (input_size b args); [by rewrite Hb|lia..].
  - apply inside_of with s2 size; [done|simpl; lia..].
Qed.

Lemma replica_allowed b args bs k h s :
  In args (registered_args b) ->
  0 <= bs input_buffer_blk < 2 ^ 47 ->
  h input_buffer_blk = Some (s, input_size b args) ->
  inside h (replica b args bs (cursor (num_copies b args) k)) (source_extent b).
Proof.
  intros Hin Hbs Hi.
  pose proof (valid_num_copies _ _ (registered_valid _ _ Hin)) as HN.
  destruct (replica_fits b args bs (cursor (num_copies b args) k) Hin Hbs
              ltac:(apply Z.mod_pos_bound; lia)) as (Hb & H0 & Hfit).
  apply inside_of with s (input_size b args); [by rewrite Hb|try lia..].
  by destruct b.
Qed.

(** Unfold the setup or teardown of a variant down to its operations. *)
Ltac open_phase :=
  unfold setup_labels, teardown_labels, eviction, toggle, overwrite, flush_region,
    protected_region, final.

Ltac conj_split := repeat match goal with |- _ /\ _ => split end.

Ltac closed_inside :=
  unfold inside; cbn [blk off ptr_add flush_buffer input_buffer source_buffer];
  heap_lookup; conj_split; by vm_compute.

Ltac setup_goal Hin Hbs :=
  lazymatch goal with
  | |- True => exact I
  | |- _ = None => heap_lookup; reflexivity
  | |- _ <= _ => by vm_compute
  | |- inside _ _ _ => closed_inside
  | |- safe _ (fill_labels _ _ _) =>
      apply safe_keeps; [apply fill_keeps|];
      eapply (fill_allowed _ _ _ _ _ _ _ Hin Hbs);
      [ heap_lookup; reflexivity | heap_lookup; reflexivity | by vm_compute ]
  end.

Ltac phase_heap :=
  open_phase; cbn [app fold_left after]; rewrite ?fold_left_app, ?fill_final;
  cbn [fold_left after].

(** One registered variant on one of its arguments. *)
Ltac safe_case Hin Hbs Hres :=
  eapply (run_heap _ _ _ _ _ _ _ Hres);
  [ phase_heap; reflexivity
  | open_phase; cbn [app safe allowed after]; rewrite ?safe_app; unfold final;
    rewrite ?fill_final; cbn [safe allowed after];
    conj_split; setup_goal Hin Hbs
  | intros k; apply iteration_allowed;
    [ heap_lookup; reflexivity
    | eapply (replica_allowed _ _ _ _ _ _ Hin Hbs); heap_lookup; reflexivity
    | intros p size Heq; first [discriminate Heq | injection Heq as <- <-; closed_inside]
    | intros p size Heq; first [discriminate Heq | injection Heq as <- <-; closed_inside]
    | intros Hr; first [discriminate Hr | closed_inside] ]
  | open_phase; cbn [safe allowed after blk]; conj_split;
    try exact I; try reflexivity; eexists; heap_lookup; reflexivity ].

(** Every registered variant, on every argument of its registration, runs
    within the blocks it has allocated. *)
Lemma run_safe_registered b args n bs clk mf :
  In args (registered_args b) ->
  0 <= bs input_buffer_blk < 2 ^ 47 ->
  run_result b args n bs clk mf ->
  safe initial_heap (labels mf).
Proof.
  intros Hin Hbs Hres.
  destruct b; pose proof Hin as Hin'; simpl in Hin';
    repeat (destruct Hin' as [<-|Hin']; [safe_case Hin Hbs Hres|]);
    destruct Hin'.
Qed.


(** X5 (registered runs stay in bounds): on every argument of its
    registration and for an input buffer placed at a user-space address,
    a variant runs to completion and every fill, copy, flush and
    protection change it logs lies within a block that is live at that
    moment, the 3 KiB output buffer included. *)
Theorem registered_runs_stay_in_bounds b args n bs clk mem0 :
  In args (registered_args b) ->
  0 <= bs input_buffer_blk < 2 ^ 47 ->
  exists mf,
    run b (initial_machine args n bs clk mem0) = Some (tt, mf) /\
    safe initial_heap (labels mf).
Proof.
  intros Hin Hbs.
  destruct (run_spec b args n bs clk mem0 (registered_valid _ _ Hin)) as (mf & Hrun & Hres).
  exists mf. split; [done|]. by apply (run_safe_registered b args n bs clk mf).
Qed.

Lemma registered_runs_stay_in_bounds_witness :
  exists mf,
    run bm_memcpy_vmem_tlb_flush (example_machine [40] 100) = Some (tt, mf) /\
    safe initial_heap (labels mf).
Proof.
  apply (registered_runs_stay_in_bounds bm_memcpy_vmem_tlb_flush [40] 100).
  - simpl. left. reflexivity.
  - simpl. lia.
Defined.



(** ** Which replica an iteration reads *)

Lemma source_ptrs_iteration b args bs clk r0 k :
  source_ptrs (iteration_labels b args bs clk r0 k)
    = map (ptr_add (replica b args bs (cursor (num_copies b args) k))) (read_offsets b).
Proof.
  unfold source_ptrs.
  destruct b; open_log; destruct (wraps _ k);
    rewrite ?omap_app; rewrite ?omap_map_None by done; reflexivity.
Qed.

(** X8 (the replicas are read in rotation): in a run on arguments the
    variant is defined on, the measured copies of iteration [k] read the
    replica numbered [k mod NUM_COPIES], at the fixed offsets of the
    variant in the order the copies are issued. *)
Theorem reads_rotate b args n bs clk mem0 :
  valid_args b args = true ->
  exists mf,
    run b (initial_machine args n bs clk mem0) = Some (tt, mf) /\
    length (iterations (labels mf)) = n /\
    forall k it,
      iterations (labels mf) !! k = Some it ->
      source_ptrs it
        = map (ptr_add (replica b args bs (Z.of_nat k mod num_copies b args)))
              (read_offsets b).
Proof.
  intros Hvalid.
  destruct (run_spec b args n bs clk mem0 Hvalid) as (mf & Hrun & Hres).
  exists mf. split; [done|]. split; [by apply (iterations_length _ _ _ _ _ _ Hres)|].
  intros k it Hit. apply (iteration_run _ _ _ _ _ _ _ _ Hres) in Hit as [_ ->].
  apply source_ptrs_iteration.
Qed.

Lemma reads_rotate_witness :
  exists mf,
    run bm_memcpy_cpu_flush (example_machine [8] 2500) = Some (tt, mf) /\
    length (iterations (labels mf)) = 2500%nat /\
    forall k it,
      iterations (labels mf) !! k = Some it ->
      source_ptrs it
        = map (ptr_add (replica bm_memcpy_cpu_flush [8] example_base
                          (Z.of_nat k mod num_copies bm_memcpy_cpu_flush [8])))
              (read_offsets bm_memcpy_cpu_flush).
Proof.
  apply (reads_rotate bm_memcpy_cpu_flush [8] 2500). vm_compute. reflexivity.
Defined.

(** ** Page-aligned replicas *)

Lemma divide_to_size_t A z : (A | 2 ^ 64) -> (A | z) -> (A | to_size_t z).
Proof.
  intros H64 Hz. unfold to_size_t, SIZE_WIDTH.
  rewrite Z.mod_eq by lia. apply Z.divide_sub_r; [done|].
  by apply Z.divide_mul_l.
Qed.

Lemma tlb_replica_address args bs j :
  0 <= bs input_buffer_blk -> bs input_buffer_blk + 4096 <= 2 ^ 64 ->
  (4096 | bs input_buffer_blk + off (replica bm_memcpy_tlb args bs j)).
Proof.
  intros H0 Hfit. unfold replica, replica_base, ptr_add. cbn [off blk].
  rewrite Z.add_assoc. apply Z.divide_add_r.
  - change MemcpyTlb.PAGE_SIZE with (2 ^ 12).
    pose proof (aligned_address bs input_buffer 12 ltac:(lia)
                  ltac:(cbn [blk off input_buffer]; lia)
                  ltac:(cbn [blk off input_buffer]; lia)) as Ha.
    cbn [blk input_buffer] in Ha. rewrite Ha. apply Z.divide_factor_l.
  - apply divide_to_size_t; [by exists (2 ^ 52)|].
    change (replica_stride bm_memcpy_tlb args) with (5 * 4096).
    exists (j * 5). lia.
Qed.

(** X9 ([memcpy_tlb] reads alias across replicas): every replica of
    [memcpy_tlb] starts on a 4 KiB page boundary, so in every measured
    iteration, whichever replica it reads, the three source addresses are
    102, 2306 and 202 bytes into a page. *)
Theorem tlb_reads_alias args n bs clk mem0 :
  valid_args bm_memcpy_tlb args = true ->
  0 <= bs input_buffer_blk -> bs input_buffer_blk + 4096 <= 2 ^ 64 ->
  exists mf,
    run bm_memcpy_tlb (initial_machine args n bs clk mem0) = Some (tt, mf) /\
    length (iterations (labels mf)) = n /\
    forall k it,
      iterations (labels mf) !! k = Some it ->
      map (fun p => (bs (blk p) + off p) mod 4096) (source_ptrs it) = [102; 2306; 202].
Proof.
  intros Hvalid H0 Hfit.
  destruct (run_spec bm_memcpy_tlb args n bs clk mem0 Hvalid) as (mf & Hrun & Hres).
  exists mf. split; [done|]. split; [by apply (iterations_length _ _ _ _ _ _ Hres)|].
  intros k it Hit. apply (iteration_run _ _ _ _ _ _ _ _ Hres) in Hit as [_ ->].
  rewrite source_ptrs_iteration. cbn [read_offsets map ptr_add blk off].
  set (r := replica bm_memcpy_tlb args bs _).
  assert (blk r = input_buffer_blk) as -> by reflexivity.
  destruct (tlb_replica_address args bs (cursor (num_copies bm_memcpy_tlb args) k) H0 Hfit)
    as [c Hc]. fold r in Hc.
  repeat f_equal.
  - replace (bs input_buffer_blk + (off r + 102)) with (102 + c * 4096) by lia.
    by rewrite Z.mod_add.
  - replace (bs input_buffer_blk + (off r + 6402)) with (2306 + (c + 1) * 4096) by lia.
    by rewrite Z.mod_add.
  - replace (bs input_buffer_blk + (off r + 16586)) with (202 + (c + 4) * 4096) by lia.
    by rewrite Z.mod_add.
Qed.

Lemma tlb_reads_alias_witness :
  exists mf,
    run bm_memcpy_tlb (example_machine [850] 900) = Some (tt, mf) /\
    length (iterations (labels mf)) = 900%nat /\
    forall k it,
      iterations (labels mf) !! k = Some it ->
      map (fun p => (example_base (blk p) + off p) mod 4096) (source_ptrs it)
        = [102; 2306; 202].
Proof.
  apply (tlb_reads_alias [850] 900); [by vm_compute | simpl; lia | simpl; lia].
Defined.

(** ** The replicas the setup fills *)

Lemma loop_forallb (f : event -> bool) ev n :
  f EvIteration = true -> (forall k, forallb f (ev k) = true) ->
  forallb f (loop_labels ev n) = true.
Proof.
  intros Hf Hev. induction n as [|n IH]; [done|].
  rewrite loop_labels_S, forallb_app, IH. simpl. by rewrite Hf, Hev.
Qed.

Lemma filter_none {A} (f : A -> bool) l :
  forallb (fun x => negb (f x)) l = true -> List.filter f l = [].
Proof.
  induction l as [|x l IH]; simpl; [done|]. intros H.
  apply andb_prop in H as [Hx Hl]. destruct (f x); [done|]. by apply IH.
Qed.

Lemma filter_map_all {A B} (f : B -> bool) (g : A -> B) l :
  (forall x, f (g x) = true) -> List.filter f (map g l) = map g l.
Proof. intros H. induction l as [|x l IH]; simpl; [done|]. by rewrite H, IH. Qed.

Lemma fills_setup b args bs :
  rotating b = true ->
  List.filter is_fill (setup_labels b args bs) = fill_labels b args bs.
Proof.
  intros Hb. destruct b; try discriminate; unfold setup_labels, eviction, toggle, overwrite,
    flush_region, protected_region; rewrite ?List.filter_app;
    unfold fill_labels; rewrite filter_map_all by done;
    cbn [List.filter is_fill app]; by rewrite ?app_nil_r.
Qed.

Lemma fills_iteration b args bs clk r0 k :
  forallb (fun e => negb (is_fill e)) (iteration_labels b args bs clk r0 k) = true.
Proof. destruct b; open_log; destruct (wraps _ k); by_events. Qed.

(** X10 (NumCopies counts the replicas): in every rotating variant the
    NumCopies counter a run reports, in units of 1000, is the number of
    copies of the source buffer the run has made, all of them during the
    setup. *)
Theorem num_copies_counts_fills b args n bs clk mem0 :
  rotating b = true ->
  valid_args b args = true ->
  exists mf,
    run b (initial_machine args n bs clk mem0) = Some (tt, mf) /\
    List.filter is_fill (labels mf) = List.filter is_fill (segment (labels mf)) /\
    counters mf !! NumCopies
      = Some (MkCounter (Z.of_nat (length (List.filter is_fill (labels mf))))
                        kDefaults kIs1000).
Proof.
  intros Hb Hvalid. pose proof (valid_num_copies _ _ Hvalid) as HN.
  destruct (run_spec b args n bs clk mem0 Hvalid) as (mf & Hrun & Hres).
  exists mf. split; [done|].
  assert (List.filter is_fill (labels mf) = fill_labels b args bs) as Hfills.
  { rewrite (labels_run _ _ _ _ _ _ Hres), !List.filter_app, fills_setup by done.
    rewrite (filter_none _ (loop_labels _ _))
      by (apply loop_forallb; [done|intros; apply fills_iteration]).
    rewrite (filter_none _ (_ :: _)) by (by destruct b).
    by rewrite !app_nil_r. }
  split.
  - by rewrite Hfills, (segment_run _ _ _ _ _ _ Hres), fills_setup.
  - rewrite Hfills. unfold fill_labels. rewrite length_map, length_seqZ, Z2Nat.id by lia.
    destruct Hres as (st & lp & td & ms & ml & _ & _ & _ & _ & _ & _ & _ & ->). done.
Qed.

Lemma num_copies_counts_fills_witness :
  exists mf,
    run bm_memcpy_vmem_tlb_flush (example_machine [68] 5) = Some (tt, mf) /\
    List.filter is_fill (labels mf) = List.filter is_fill (segment (labels mf)) /\
    counters mf !! NumCopies
      = Some (MkCounter (Z.of_nat (length (List.filter is_fill (labels mf))))
                        kDefaults kIs1000).
Proof.
  apply (num_copies_counts_fills bm_memcpy_vmem_tlb_flush [68] 5); vm_compute; reflexivity.
Defined.

(** ** Where the replicas lie *)

Lemma replica_order b args bs i j :
  In args (registered_args b) ->
  0 <= i < j -> j < num_copies b args ->
  off (replica b args bs i) + replica_size b args <= off (replica b args bs j).
Proof.
  intros Hin Hi Hj.
  destruct b; simpl in Hin;
    repeat (destruct Hin as [<-|Hin];
            [ match type of Hj with _ < ?n =>
                let v := eval vm_compute in n in change n with v in Hj end;
              unfold replica, ptr_add; cbn [off]; eval_sizes;
              unfold size_mul, to_size_t, SIZE_WIDTH; rewrite !Z.mod_small by lia; lia | ]);
    destruct Hin.
Qed.

Lemma replica_size_pos b args : In args (registered_args b) -> 0 < replica_size b args.
Proof.
  intros Hin.
  destruct b; simpl in Hin;
    repeat (destruct Hin as [<-|Hin]; [by vm_compute|]); destruct Hin.
Qed.

Lemma fill_dests_filter l : fill_dests l = fill_dests (List.filter is_fill l).
Proof.
  unfold fill_dests. induction l as [|e l IH]; [done|].
  cbn [List.filter]. destruct (is_fill e) eqn:He.
  - cbn [omap list_omap]. fold (omap fill_dest l).
    fold (omap fill_dest (List.filter is_fill l)). by rewrite IH.
  - cbn [omap list_omap]. fold (omap fill_dest l).
    assert (fill_dest e = None) as -> by (destruct e; try done; simpl in *; by rewrite He).
    exact IH.
Qed.

(** The copies out of the source buffer that a run logs are those of its
    setup: one to each replica, in order. *)
Lemma fill_dests_run b args n bs clk mf :
  rotating b = true ->
  run_result b args n bs clk mf ->
  fill_dests (labels mf)
    = map (fun i => (replica b args bs i, replica_size b args)) (seqZ 0 (num_copies b args)).
Proof.
  intros Hb Hres.
  rewrite fill_dests_filter, (labels_run _ _ _ _ _ _ Hres), !List.filter_app,
    fills_setup by done.
  rewrite (filter_none _ (loop_labels _ _))
    by (apply loop_forallb; [done|intros; apply fills_iteration]).
  rewrite (filter_none _ (_ :: _)) by (by destruct b).
  rewrite !app_nil_r. unfold fill_labels, fill_dests.
  induction (seqZ 0 (num_copies b args)) as [|i l IH]; [done|].
  cbn [map omap list_omap fill_dest blk source_buffer]. rewrite bool_decide_true by done.
  f_equal. exact IH.
Qed.

(** X7 (the replicas do not overlap): in a run of a rotating variant on an
    argument of its registration, the copies out of the source buffer are
    as many as NUM_COPIES; the [i]-th writes [replica_size] bytes, more
    than none, at replica [i]; and of any two of them the earlier one
    writes into the same block as the later one and ends where or before
    the later one begins. *)
Theorem replicas_disjoint b args n bs clk mem0 :
  rotating b = true ->
  In args (registered_args b) ->
  exists mf,
    run b (initial_machine args n bs clk mem0) = Some (tt, mf) /\
    length (fill_dests (labels mf)) = Z.to_nat (num_copies b args) /\
    (forall i p c,
       fill_dests (labels mf) !! i = Some (p, c) ->
       p = replica b args bs (Z.of_nat i) /\ c = replica_size b args /\ 0 < c) /\
    forall i j p c q d,
      (i < j)%nat ->
      fill_dests (labels mf) !! i = Some (p, c) ->
      fill_dests (labels mf) !! j = Some (q, d) ->
      blk p = blk q /\ off p + c <= off q.
Proof.
  intros Hb Hin.
  destruct (run_spec b args n bs clk mem0 (registered_valid _ _ Hin)) as (mf & Hrun & Hres).
  exists mf. split; [done|]. rewrite (fill_dests_run _ _ _ _ _ _ Hb Hres).
  assert (forall i p c,
            map (fun i => (replica b args bs i, replica_size b args))
                (seqZ 0 (num_copies b args)) !! i = Some (p, c) ->
            p = replica b args bs (Z.of_nat i) /\ c = replica_size b args
            /\ Z.of_nat i < num_copies b args) as Hat.
  { intros i p c Hi. rewrite list_lookup_fmap in Hi.
    destruct (seqZ 0 (num_copies b args) !! i) as [x|] eqn:Hx; [|done].
    apply lookup_seqZ in Hx as [-> Hlt]. simpl in Hi. injection Hi as <- <-.
    rewrite Z.add_0_l. done. }
  split; [by rewrite length_map, length_seqZ|]. split.
  - intros i p c Hi. apply Hat in Hi as (-> & -> & _).
    split; [done|]. split; [done|]. by apply replica_size_pos.
  - intros i j p c q d Hij Hi Hj.
    apply Hat in Hi as (-> & -> & _). apply Hat in Hj as (-> & -> & Hlt).
    split; [reflexivity|]. apply replica_order; [done|lia..].
Qed.

Lemma replicas_disjoint_witness :
  exists mf,
    run bm_memcpy_tlb (example_machine [850] 3) = Some (tt, mf) /\
    length (fill_dests (labels mf)) = Z.to_nat (num_copies bm_memcpy_tlb [850]) /\
    (forall i p c,
       fill_dests (labels mf) !! i = Some (p, c) ->
       p = replica bm_memcpy_tlb [850] example_base (Z.of_nat i)
       /\ c = replica_size bm_memcpy_tlb [850] /\ 0 < c) /\
    forall i j p c q d,
      (i < j)%nat ->
      fill_dests (labels mf) !! i = Some (p, c) ->
      fill_dests (labels mf) !! j = Some (q, d) ->
      blk p = blk q /\ off p + c <= off q.
Proof.
  apply (replicas_disjoint bm_memcpy_tlb [850] 3).
  - reflexivity.
  - simpl. left. reflexivity.
Defined.

(** ** The time an iteration reports *)




(** ** Page protection *)

Lemma paired_app s l1 l2 :
  paired s l1 = true -> paired None l2 = true -> paired s (l1 ++ l2) = true.
Proof.
  revert s. induction l1 as [|e l1 IH]; intros s H1 H2.
  - simpl in H1. apply bool_decide_eq_true in H1. by subst.
  - destruct e as [| | | | | |p size [] old| | | | |], s as [r|]; simpl in *;
      try discriminate; try (by apply IH).
    apply andb_prop in H1 as [Hr H1]. rewrite Hr. simpl. by apply IH.
Qed.

Lemma paired_plain l : forallb no_protect l = true -> paired None l = true.
Proof.
  induction l as [|e l IH]; intros H; [done|].
  simpl in H. apply andb_prop in H as [He Hl].
  destruct e; simpl; try discriminate; auto.
Qed.

Lemma paired_toggle r : paired None (toggle r) = true.
Proof.
  destruct r as [[p size]|]; [|done]. simpl. by rewrite bool_decide_true.
Qed.

Lemma paired_eviction b args bs v : paired None (eviction b args bs v) = true.
Proof.
  unfold eviction. apply paired_app; [apply paired_toggle|].
  apply paired_plain. by destruct (flush_region b args bs) as [[p size]|].
Qed.

Lemma paired_iteration b args bs clk r0 k :
  paired None (iteration_labels b args bs clk r0 k) = true.
Proof.
  unfold iteration_labels. apply paired_app; [|apply paired_app].
  - apply paired_plain. by destruct b.
  - destruct (wraps _ k); [apply paired_eviction|done].
  - apply paired_plain. destruct b; unfold closing; by_events.
Qed.

Lemma paired_loop ev n :
  (forall k, paired None (ev k) = true) -> paired None (loop_labels ev n) = true.
Proof.
  intros Hev. induction n as [|n IH]; [done|].
  rewrite loop_labels_S. apply paired_app; [done|]. apply Hev.
Qed.

Lemma paired_setup b args bs : paired None (setup_labels b args bs) = true.
Proof.
  assert (paired None (fill_labels b args bs) = true) as Hfill
    by (apply paired_plain; unfold fill_labels; by apply forallb_map_true).
  destruct b; unfold setup_labels;
    repeat (apply paired_app; [|try done]);
    try (apply paired_plain; reflexivity); try apply paired_eviction;
    try apply paired_toggle; try done.
Qed.

Lemma null_old_iteration b args bs clk r0 k :
  forallb null_old_protect (iteration_labels b args bs clk r0 k) = true.
Proof. destruct b; open_log; destruct (wraps _ k); by_events. Qed.

(** X12 (protection is given back at once): in a run on arguments the
    variant is defined on, the [VirtualProtect] calls come in pairs: each
    call that asks for [PAGE_NOACCESS] on a region is followed at once, no
    fill, copy, flush or other operation in between, by a call that asks
    for [PAGE_READWRITE] on the same address and size, and no other
    [VirtualProtect] call is made; every one of them passes a null
    [lpflOldProtect].  This is about the calls as the code issues them:
    what Windows does with them is not modelled. *)
Theorem protection_restored_at_once b args n bs clk mem0 :
  valid_args b args = true ->
  exists mf,
    run b (initial_machine args n bs clk mem0) = Some (tt, mf) /\
    paired None (labels mf) = true /\
    forallb null_old_protect (labels mf) = true.
Proof.
  intros Hvalid.
  destruct (run_spec b args n bs clk mem0 Hvalid) as (mf & Hrun & Hres).
  exists mf. split; [done|]. rewrite (labels_run _ _ _ _ _ _ Hres). split.
  - apply paired_app; [apply paired_setup|].
    apply paired_app; [apply paired_loop; intros; apply paired_iteration|].
    apply paired_plain. by destruct b.
  - rewrite !forallb_app. apply andb_true_intro. split; [|apply andb_true_intro; split].
    + destruct b; open_log; by_events.
    + apply loop_forallb; [done|intros; apply null_old_iteration].
    + by destruct b.
Qed.

Lemma protection_restored_at_once_witness :
  exists mf,
    run bm_memcpy_vmem_tlb_flush (example_machine [40] 70) = Some (tt, mf) /\
    paired None (labels mf) = true /\
    forallb null_old_protect (labels mf) = true.
Proof.
  apply (protection_restored_at_once bm_memcpy_vmem_tlb_flush [40] 70). vm_compute. reflexivity.
Defined.
